(** * A shallow embedding of the jupyter-agent backend

    The Python backend (src/backend) is modelled module by module:
    - [kernel_manager.py]: [NotebookKernel.execute_cell] as a fold over the
      sequence of replies of [client.get_iopub_msg], and
      [KernelManagerService] as explicit state passing over a [gmap];
    - [ai_agent.py]: [_build_notebook_context], [_parse_json_response],
      [analyze_error] and [_chat_with_tools_openai];
    - [cell_tools.py]: [CellTool.execute_tool] and its five tools;
    - [main.py]: the [DELETE /kernel/{kernel_id}] endpoint.

    Python values that flow through dictionaries are represented by
    [PyVal]; a raised exception by [PyErr] of a [PyExc]. *)

From Stdlib Require Import ZArith Ascii String List Bool.
From Stdlib Require Import Numbers.DecimalString.
From stdpp Require Import base gmap strings list fin_maps.
Import ListNotations.
Open Scope string_scope.
#[local] Set Warnings "-register-all".

(* ------------------------------------------------------------------ *)
(** ** Python values and exceptions *)

(** The values that appear in the dictionaries the backend builds and in
    the results of [json.loads].  Dictionaries keep their keys in
    insertion order, as an association list.  A JSON number with a
    fraction or an exponent is kept as its lexeme in [PFloat]. *)
Inductive PyVal : Type :=
| PNone
| PBool (b : bool)
| PInt (z : Z)
| PFloat (lexeme : string)
| PStr (s : string)
| PList (l : list PyVal)
| PDict (kv : list (string * PyVal)).

(** A raised exception: its class name and [str(e)]. *)
Record PyExc := mkExc { exc_type : string; exc_msg : string }.

Inductive py_result (A : Type) : Type :=
| PyOk (a : A)
| PyErr (e : PyExc).
Arguments PyOk {A} a.
Arguments PyErr {A} e.

(** [d.get(k)] on a dictionary. *)
Fixpoint dict_get (k : string) (kv : list (string * PyVal)) : option PyVal :=
  match kv with
  | [] => None
  | (k', v) :: rest => if String.eqb k k' then Some v else dict_get k rest
  end.

(** A hexadecimal digit, lower case. *)
Definition hex_char (n : nat) : ascii :=
  ascii_of_nat (if Nat.ltb n 10 then 48 + n else 87 + n).

(** One character of [repr(s)] for a [str] quoted with [q]: the backslash
    and the quote are escaped, tab, newline and carriage return by their
    letter, the other non-printable characters of the model's range
    (below [\x20], [\x7f] to [\xa0], and [\xad]) by [\xhh]. *)
Definition py_repr_char (q a : ascii) : string :=
  let n := nat_of_ascii a in
  if Nat.eqb n 92 then String a (String a EmptyString)
  else if Ascii.eqb a q then String (ascii_of_nat 92) (String a EmptyString)
  else if Nat.eqb n 9 then String (ascii_of_nat 92) "t"
  else if Nat.eqb n 10 then String (ascii_of_nat 92) "n"
  else if Nat.eqb n 13 then String (ascii_of_nat 92) "r"
  else if Nat.ltb n 32 || (Nat.leb 127 n && Nat.leb n 160) || Nat.eqb n 173
  then String (ascii_of_nat 92) (String "x"%char
         (String (hex_char (n / 16)) (String (hex_char (n mod 16)) EmptyString)))
  else String a EmptyString.

Fixpoint py_repr_chars (q : ascii) (s : string) : string :=
  match s with
  | EmptyString => EmptyString
  | String a s' => py_repr_char q a ++ py_repr_chars q s'
  end.

Fixpoint has_char (a : ascii) (s : string) : bool :=
  match s with
  | EmptyString => false
  | String b s' => Ascii.eqb a b || has_char a s'
  end.

(** [repr(s)] of a [str]: single quotes, unless [s] holds a single quote
    and no double quote. *)
Definition py_repr_str (s : string) : string :=
  let q := if has_char "'"%char s && negb (has_char (ascii_of_nat 34) s)
           then ascii_of_nat 34 else "'"%char in
  String q (py_repr_chars q s ++ String q EmptyString).

(** [d[k]]: raises [KeyError(k)] when [k] is absent; [str] of that
    exception is [repr(k)]. *)
Definition dict_index (k : string) (kv : list (string * PyVal)) : py_result PyVal :=
  match dict_get k kv with
  | Some v => PyOk v
  | None => PyErr (mkExc "KeyError" (py_repr_str k))
  end.

(** [str(n)] for a Python int. *)
Definition str_Z (z : Z) : string := NilEmpty.string_of_int (Z.to_int z).

(** [f"{x}"] of an optional string: [None] renders as ["None"]. *)
Definition str_opt (o : option string) : string :=
  match o with Some s => s | None => "None" end.

(** [sep.join(parts)]. *)
Fixpoint join (sep : string) (parts : list string) : string :=
  match parts with
  | [] => ""
  | [p] => p
  | p :: rest => p ++ sep ++ join sep rest
  end.

Definition nl : string := String (ascii_of_nat 10) EmptyString.
Definition dq : string := String (ascii_of_nat 34) EmptyString.

(* ------------------------------------------------------------------ *)
(** ** kernel_manager.py: [NotebookKernel.execute_cell] *)

Module Kernel.

(** The [content] of an IOPub message; a field is [None] when the key is
    absent, so that [content.get(k)] is the field itself. *)
Record Content := mkContent {
  c_execution_count : option Z;
  c_data : option (list (string * string));
  c_name : option string;
  c_text : option string;
  c_ename : option string;
  c_evalue : option string;
  c_traceback : option (list string);
  c_execution_state : option string
}.

Definition empty_content : Content :=
  mkContent None None None None None None None None.

(** One call of [self.client.get_iopub_msg(10)]: a message, [queue.Empty]
    after the ten-second timeout, or any other exception. *)
Inductive IopubItem :=
| IMsg (msg_type : string) (content : Content)
| IEmpty
| IRaise (e : PyExc).

(** The output dictionaries appended to [outputs]. *)
Inductive Output :=
| OExecuteResult (data : list (string * string)) (execution_count : option Z)
| ODisplayData (data : list (string * string))
| OStream (name : option string) (text : option string).

(** The [error] dictionary: [ename], [evalue], [traceback]. *)
Record ErrorInfo := mkError {
  ename : option string;
  evalue : option string;
  traceback : list string
}.

(** The local variables of the [while True] loop. *)
Record CollectState := mkCollect {
  cs_outputs : list Output;
  cs_error : option ErrorInfo;
  cs_execution_count : option Z
}.

Definition collect_init : CollectState := mkCollect [] None None.

(** The record built on an ['error'] message. *)
Definition error_of_content (c : Content) : ErrorInfo :=
  mkError (c_ename c) (c_evalue c)
    (match c_traceback c with Some tb => tb | None => [] end).

Definition is_idle (c : Content) : bool :=
  match c_execution_state c with
  | Some st => String.eqb st "idle"
  | None => false
  end.

(** The loop of [execute_cell]: the channel is the list of successive
    results of [get_iopub_msg]; when the list runs out no message arrives
    any more, which the code sees as [queue.Empty]. *)
Fixpoint collect (s : list IopubItem) (st : CollectState) : CollectState :=
  match s with
  | [] => st
  | IEmpty :: _ => st
  | IRaise _ :: _ => st
  | IMsg t c :: rest =>
      if String.eqb t "execute_input" then
        collect rest (mkCollect (cs_outputs st) (cs_error st) (c_execution_count c))
      else if String.eqb t "execute_result" then
        collect rest (mkCollect
          (cs_outputs st ++ [OExecuteResult (match c_data c with Some d => d | None => [] end)
                                             (c_execution_count c)])%list
          (cs_error st) (cs_execution_count st))
      else if String.eqb t "display_data" then
        collect rest (mkCollect
          (cs_outputs st ++ [ODisplayData (match c_data c with Some d => d | None => [] end)])%list
          (cs_error st) (cs_execution_count st))
      else if String.eqb t "stream" then
        collect rest (mkCollect
          (cs_outputs st ++ [OStream (c_name c) (c_text c)])%list
          (cs_error st) (cs_execution_count st))
      else if String.eqb t "error" then
        collect rest (mkCollect (cs_outputs st) (Some (error_of_content c))
                                (cs_execution_count st))
      else if String.eqb t "status" then
        (if is_idle c then st else collect rest st)
      else collect rest st
  end.

(** The returned dictionary. *)
Record ExecResult := mkResult {
  r_cell_id : string;
  r_execution_count : option Z;
  r_outputs : list Output;
  r_error : option ErrorInfo;
  r_status : string
}.

Record NotebookKernel := mkKernel {
  kernel_id : string;
  is_running : bool;
  has_client : bool
}.

(** [execute_cell(code, cell_id)]; [s] is what the IOPub channel delivers
    after [client.execute(code)].  The [error] dictionary always has three
    keys, so [if error] holds exactly when it is not [None]. *)
Definition execute_cell (k : NotebookKernel) (code cell_id : string)
    (s : list IopubItem) : py_result ExecResult :=
  if negb (is_running k) then PyErr (mkExc "RuntimeError" "Kernel is not running")
  else
    let st := collect s collect_init in
    PyOk (mkResult cell_id (cs_execution_count st) (cs_outputs st) (cs_error st)
            (match cs_error st with Some _ => "error" | None => "success" end)).

(** Vocabulary of the statements: the messages the loop consumes before it
    leaves, and the contents of the ['error'] messages among them. *)
Fixpoint consumed (s : list IopubItem) : list (string * Content) :=
  match s with
  | [] => []
  | IEmpty :: _ | IRaise _ :: _ => []
  | IMsg t c :: rest =>
      if String.eqb t "status" && is_idle c then [] else (t, c) :: consumed rest
  end.

Definition error_events (s : list IopubItem) : list Content :=
  map snd (List.filter (fun tc => String.eqb (fst tc) "error") (consumed s)).

Fixpoint last_opt {A} (l : list A) : option A :=
  match l with
  | [] => None
  | [x] => Some x
  | _ :: rest => last_opt rest
  end.

Definition idle_msg : IopubItem :=
  IMsg "status" (mkContent None None None None None None None (Some "idle")).

End Kernel.

(* ------------------------------------------------------------------ *)
(** ** ai_agent.py: [NotebookCell] and [_build_notebook_context] *)

Module Agent.
Import Kernel.

Record NotebookCell := mkCell {
  cell_id : string;
  code : string;
  execution_count : option Z;
  outputs : list Output;
  error : option ErrorInfo
}.

Definition error_marker : string := " <<< ERROR HERE".

(** The marker: [cell.cell_id == highlight_cell]; a [None] highlight
    equals no id. *)
Definition marker (c : NotebookCell) (highlight : option string) : string :=
  match highlight with
  | Some h => if String.eqb (cell_id c) h then error_marker else ""
  | None => ""
  end.

Definition cell_header (i : nat) (c : NotebookCell) (highlight : option string) : string :=
  nl ++ "--- Cell " ++ str_Z (Z.of_nat (i + 1)) ++ " (ID: " ++ cell_id c ++ ")"
     ++ marker c highlight ++ " ---".

(** [if cell.execution_count:] is false for [None] and for [0]. *)
Definition execution_count_part (c : NotebookCell) : list string :=
  match execution_count c with
  | Some n => if Z.eqb n 0 then [] else ["Execution count: " ++ str_Z n]
  | None => []
  end.

(** The inner loop over [cell.outputs]: stream outputs as [name: text],
    execute results by their ['text/plain'] entry only, display data
    dropped. *)
Definition output_part (o : Output) : list string :=
  match o with
  | OStream name text => ["  " ++ str_opt name ++ ": " ++ str_opt text]
  | OExecuteResult data _ =>
      match find (fun kv => String.eqb (fst kv) "text/plain") data with
      | Some (_, txt) => ["  Result: " ++ txt]
      | None => []
      end
  | ODisplayData _ => []
  end.

Definition outputs_part (c : NotebookCell) : list string :=
  match outputs c with
  | [] => []
  | os => "Outputs:" :: flat_map output_part os
  end.

Definition error_part (c : NotebookCell) : list string :=
  match error c with
  | Some e =>
      ["ERROR: " ++ str_opt (ename e) ++ ": " ++ str_opt (evalue e);
       "Traceback:" ++ nl ++ join nl (traceback e)]
  | None => []
  end.

Definition cell_parts (i : nat) (c : NotebookCell) (highlight : option string) : list string :=
  cell_header i c highlight :: ("Code:" ++ nl ++ code c)
    :: (execution_count_part c ++ outputs_part c ++ error_part c)%list.

(** [context_parts] after the [for i, cell in enumerate(cells)] loop. *)
Fixpoint context_parts_from (i : nat) (cells : list NotebookCell)
    (highlight : option string) : list string :=
  match cells with
  | [] => []
  | c :: rest => (cell_parts i c highlight ++ context_parts_from (S i) rest highlight)%list
  end.

Definition context_parts (cells : list NotebookCell) (highlight : option string) : list string :=
  context_parts_from 0 cells highlight.

Definition build_notebook_context (cells : list NotebookCell)
    (highlight : option string) : string :=
  join nl (context_parts cells highlight).

(** Number of positions at which [sub] occurs in [s]. *)
Fixpoint count_occ_str (sub s : string) : nat :=
  match s with
  | EmptyString => if String.prefix sub EmptyString then 1 else 0
  | String a s' => (if String.prefix sub s then 1 else 0) + count_occ_str sub s'
  end.

End Agent.

(* ------------------------------------------------------------------ *)
(** ** String positions and the two regular expressions of
       [_parse_json_response] *)

Module Decoder.

(** [s[n:]] and [s[:n]]. *)
Fixpoint sdrop (n : nat) (s : string) : string :=
  match n, s with
  | 0, _ => s
  | S _, EmptyString => EmptyString
  | S n', String _ s' => sdrop n' s'
  end.

Fixpoint stake (n : nat) (s : string) : string :=
  match n, s with
  | 0, _ => EmptyString
  | S _, EmptyString => EmptyString
  | S n', String a s' => String a (stake n' s')
  end.

(** [\s] of a [str] pattern on the characters of the model (code points
    below 256): [\t\n\v\f\r], [\x1c]-[\x1f], space, [\x85] and [\xa0]. *)
Definition is_py_space (a : ascii) : bool :=
  let n := nat_of_ascii a in
  (Nat.leb 9 n && Nat.leb n 13) || (Nat.leb 28 n && Nat.leb n 32)
  || Nat.eqb n 133 || Nat.eqb n 160.

(** Length of the longest run of [\s] at the start (greedy [\s*]). *)
Fixpoint ws_prefix_len (s : string) : nat :=
  match s with
  | EmptyString => 0
  | String a s' => if is_py_space a then S (ws_prefix_len s') else 0
  end.

Definition fence : string := "```".
Definition fence_json : string := "```json".

(** [\s*```] at the start of [t]: greedy [\s*] backtracking from the
    longest run down to the empty one. *)
Fixpoint close_back (m : nat) (t : string) : bool :=
  String.prefix fence (sdrop m t) ||
  match m with 0 => false | S m' => close_back m' t end.

Definition close_at (t : string) : bool := close_back (ws_prefix_len t) t.

(** The lazy group [(.*?)] (DOTALL): the shortest prefix of [r] after
    which [\s*```] matches. *)
Fixpoint lazy_group (g n : nat) (r : string) : option string :=
  if close_at (sdrop g r) then Some (stake g r)
  else match n with 0 => None | S n' => lazy_group (S g) n' r end.

Definition try_group (r : string) : option string := lazy_group 0 (String.length r) r.

(** The first [\s*] after ["```json"], backtracking from the longest run. *)
Fixpoint ws_back (j : nat) (r : string) : option string :=
  match try_group (sdrop j r) with
  | Some g => Some g
  | None => match j with 0 => None | S j' => ws_back j' r end
  end.

(** A match of [```json\s*(.*?)\s*```] starting at the head of [s]. *)
Definition fence_at (s : string) : option string :=
  if String.prefix fence_json s then
    let r := sdrop 7 s in ws_back (ws_prefix_len r) r
  else None.

Fixpoint search_from {A} (at_ : string -> option A) (i n : nat) (s : string) : option A :=
  match at_ (sdrop i s) with
  | Some g => Some g
  | None => match n with 0 => None | S n' => search_from at_ (S i) n' s end
  end.

(** [re.search(r'```json\s*(.*?)\s*```', s, re.DOTALL).group(1)]. *)
Definition fence_search (s : string) : option string :=
  search_from fence_at 0 (String.length s) s.

Definition open_brace : ascii := "{"%char.
Definition close_brace : ascii := "}"%char.

(** Index of the last ['}'] of [t]. *)
Fixpoint last_close_brace (t : string) : option nat :=
  match t with
  | EmptyString => None
  | String a t' =>
      match last_close_brace t' with
      | Some j => Some (S j)
      | None => if Ascii.eqb a close_brace then Some 0 else None
      end
  end.

(** A match of [\{.*\}] (DOTALL) at the head of [s]: the greedy [.*]
    backtracks to the last ['}']. *)
Definition brace_at (s : string) : option string :=
  match s with
  | String a rest =>
      if Ascii.eqb a open_brace then
        match last_close_brace rest with
        | Some j => Some (stake (j + 2) s)
        | None => None
        end
      else None
  | EmptyString => None
  end.

(** [re.search(r'\{.*\}', s, re.DOTALL).group(0)]. *)
Definition brace_search (s : string) : option string :=
  search_from brace_at 0 (String.length s) s.

Section Parse.

(** [json.loads], left abstract here. *)
Variable json_loads : string -> py_result PyVal.

(** [NotebookAgent._parse_json_response]. *)
Definition parse_json_response (response : string) : py_result PyVal :=
  let response := match fence_search response with
                  | Some g => g
                  | None => response
                  end in
  match json_loads response with
  | PyOk v => PyOk v
  | PyErr e =>
      if String.eqb (exc_type e) "JSONDecodeError" then
        match brace_search response with
        | Some m => json_loads m
        | None => PyErr (mkExc "ValueError" "Could not parse JSON from response")
        end
      else PyErr e
  end.

End Parse.

(** Inputs of the decoder: a payload [p] inside a fenced block labelled
    [json], as a reply of the model typically has it. *)
Definition fence_wrap (p : string) : string := "```json" ++ nl ++ p ++ nl ++ "```".

(** [p] contains no ["```"]. *)
Definition no_fence (p : string) : Prop := forall i, String.prefix fence (sdrop i p) = false.

(** The same, as a boolean test over the positions of [p]. *)
Definition fence_free (p : string) : bool :=
  forallb (fun i => negb (String.prefix fence (sdrop i p))) (seq 0 (S (String.length p))).

Definition starts_nonspace (p : string) : Prop :=
  match p with EmptyString => True | String a _ => is_py_space a = false end.

Definition ends_nonspace (p : string) : Prop :=
  p = EmptyString \/ exists q a, p = q ++ String a EmptyString /\ is_py_space a = false.

(** The string is made of [\s] characters only. *)
Fixpoint py_space_only (s : string) : bool :=
  match s with
  | EmptyString => true
  | String a s' => is_py_space a && py_space_only s'
  end.

End Decoder.

(* ------------------------------------------------------------------ *)
(** ** A model of Python's [json.loads]

    [json.loads] is a library function, not code of this repository; the
    decoder above is stated for any [json_loads].  This executable model
    follows CPython's pure-Python scanner ([json/decoder.py],
    [json/scanner.py]) on strings of code points below 256: strict string
    scanning, integers as [PInt], other numbers and [NaN]/[Infinity] as
    [PFloat] lexemes, objects as dictionaries where a repeated key keeps
    its first position and its last value.  Error messages are given
    without their position suffix; a [\u] escape above [ÿ] is outside
    the modelled character range and reported as such. *)

Module Json.
Import Decoder.

Definition dq_char : ascii := ascii_of_nat 34.

Definition is_json_ws (a : ascii) : bool :=
  let n := nat_of_ascii a in
  Nat.eqb n 32 || Nat.eqb n 9 || Nat.eqb n 10 || Nat.eqb n 13.

Fixpoint skip_ws (s : string) : string :=
  match s with
  | String a s' => if is_json_ws a then skip_ws s' else s
  | EmptyString => EmptyString
  end.

(** The string is made of JSON whitespace only. *)
Fixpoint json_space (w : string) : bool :=
  match w with
  | EmptyString => true
  | String a w' => is_json_ws a && json_space w'
  end.

Definition is_digit (a : ascii) : bool :=
  Nat.leb 48 (nat_of_ascii a) && Nat.leb (nat_of_ascii a) 57.

Fixpoint span_digits (s : string) : string * string :=
  match s with
  | String a s' =>
      if is_digit a then let (d, r) := span_digits s' in (String a d, r)
      else (EmptyString, s)
  | EmptyString => (EmptyString, EmptyString)
  end.

Fixpoint digits_value (acc : Z) (d : string) : Z :=
  match d with
  | String a d' => digits_value (10 * acc + Z.of_nat (nat_of_ascii a - 48))%Z d'
  | EmptyString => acc
  end.

(** [NUMBER_RE]: an optional minus, then [0] or a run of digits not
    starting with [0], then an optional fraction [.] followed by digits,
    then an optional exponent [e] or [E], optional sign, digits. *)
Definition scan_number (s : string) : option (PyVal * string) :=
  let '(neg, s1) := match s with
                    | String a r => if Ascii.eqb a "-"%char then (true, r) else (false, s)
                    | EmptyString => (false, s)
                    end in
  let int_part :=
    match s1 with
    | String a r =>
        if Ascii.eqb a "0"%char then Some ("0", r)
        else if is_digit a then Some (span_digits s1) else None
    | EmptyString => None
    end in
  match int_part with
  | None => None
  | Some (idigits, r) =>
      let '(frac, r) :=
        match r with
        | String a r' =>
            if Ascii.eqb a "."%char then
              let (d, r'') := span_digits r' in
              if String.eqb d "" then (EmptyString, r) else ("." ++ d, r'')
            else (EmptyString, r)
        | EmptyString => (EmptyString, r)
        end in
      let '(exp, r) :=
        match r with
        | String e r' =>
            if Ascii.eqb e "e"%char || Ascii.eqb e "E"%char then
              let '(sign, r2) :=
                match r' with
                | String c r2 =>
                    if Ascii.eqb c "+"%char || Ascii.eqb c "-"%char
                    then (String c EmptyString, r2) else (EmptyString, r')
                | EmptyString => (EmptyString, r')
                end in
              let (d, r3) := span_digits r2 in
              if String.eqb d "" then (EmptyString, r) else (String e (sign ++ d), r3)
            else (EmptyString, r)
        | EmptyString => (EmptyString, r)
        end in
      let int_lexeme := (if neg then "-" else "") ++ idigits in
      if String.eqb frac "" && String.eqb exp "" then
        Some (PInt ((if neg then -1 else 1) * digits_value 0 idigits)%Z, r)
      else Some (PFloat (int_lexeme ++ frac ++ exp), r)
  end.

Definition escape_char (e : ascii) : option ascii :=
  match nat_of_ascii e with
  | 34 => Some dq_char
  | 92 => Some e
  | 47 => Some e
  | 98 => Some (ascii_of_nat 8)
  | 102 => Some (ascii_of_nat 12)
  | 110 => Some (ascii_of_nat 10)
  | 114 => Some (ascii_of_nat 13)
  | 116 => Some (ascii_of_nat 9)
  | _ => None
  end.

Definition hex_value (a : ascii) : option nat :=
  let n := nat_of_ascii a in
  if Nat.leb 48 n && Nat.leb n 57 then Some (n - 48)
  else if Nat.leb 97 n && Nat.leb n 102 then Some (n - 87)
  else if Nat.leb 65 n && Nat.leb n 70 then Some (n - 55)
  else None.

Definition hex4 (a b c d : ascii) : option nat :=
  match hex_value a, hex_value b, hex_value c, hex_value d with
  | Some x, Some y, Some z, Some w => Some (((x * 16 + y) * 16 + z) * 16 + w)
  | _, _, _, _ => None
  end.

Definition cons_str (a : ascii) (r : string * string + string) : string * string + string :=
  match r with
  | inl (str, rest) => inl (String a str, rest)
  | inr m => inr m
  end.

(** [py_scanstring] with [strict=True], from after the opening quote. *)
Fixpoint scan_string (s : string) : string * string + string :=
  match s with
  | EmptyString => inr "Unterminated string starting at"
  | String a r =>
      if Ascii.eqb a dq_char then inl (EmptyString, r)
      else if Ascii.eqb a "\"%char then
        match r with
        | EmptyString => inr "Unterminated string starting at"
        | String e r' =>
            match escape_char e with
            | Some ch => cons_str ch (scan_string r')
            | None =>
                if Ascii.eqb e "u"%char then
                  match r' with
                  | String h1 (String h2 (String h3 (String h4 r''))) =>
                      match hex4 h1 h2 h3 h4 with
                      | Some n =>
                          if Nat.ltb n 256 then cons_str (ascii_of_nat n) (scan_string r'')
                          else inr "code point outside the modelled range"
                      | None => inr "Invalid \uXXXX escape"
                      end
                  | _ => inr "Invalid \uXXXX escape"
                  end
                else inr "Invalid \escape"
            end
        end
      else if Nat.ltb (nat_of_ascii a) 32 then inr "Invalid control character at"
      else cons_str a (scan_string r)
  end.

(** [dict(pairs)]: a repeated key keeps its first position, last value. *)
Fixpoint dict_set (k : string) (v : PyVal) (kv : list (string * PyVal)) :
    list (string * PyVal) :=
  match kv with
  | [] => [(k, v)]
  | (k', v') :: rest =>
      if String.eqb k k' then (k', v) :: rest else (k', v') :: dict_set k v rest
  end.

Definition expecting_name : string :=
  "Expecting property name enclosed in double quotes".

(** [scan_once], [JSONObject] and [JSONArray]; [fuel] bounds the depth of
    the mutual recursion. *)
Fixpoint scan_value (fuel : nat) (s : string) : PyVal * string + string :=
  match fuel with
  | 0 => inr "maximum recursion depth exceeded"
  | S f =>
      match s with
      | EmptyString => inr "Expecting value"
      | String a r =>
          if Ascii.eqb a dq_char then
            match scan_string r with
            | inl (str, r') => inl (PStr str, r')
            | inr m => inr m
            end
          else if Ascii.eqb a "{"%char then
            match skip_ws r with
            | String b r' =>
                if Ascii.eqb b "}"%char then inl (PDict [], r')
                else if Ascii.eqb b dq_char then scan_members f (skip_ws r) []
                else inr expecting_name
            | EmptyString => inr expecting_name
            end
          else if Ascii.eqb a "["%char then
            match skip_ws r with
            | String b r' =>
                if Ascii.eqb b "]"%char then inl (PList [], r')
                else scan_elems f (skip_ws r) []
            | EmptyString => scan_elems f EmptyString []
            end
          else if String.prefix "null" s then inl (PNone, sdrop 4 s)
          else if String.prefix "true" s then inl (PBool true, sdrop 4 s)
          else if String.prefix "false" s then inl (PBool false, sdrop 5 s)
          else match scan_number s with
               | Some (v, r') => inl (v, r')
               | None =>
                   if String.prefix "NaN" s then inl (PFloat "NaN", sdrop 3 s)
                   else if String.prefix "Infinity" s then inl (PFloat "Infinity", sdrop 8 s)
                   else if String.prefix "-Infinity" s then inl (PFloat "-Infinity", sdrop 9 s)
                   else inr "Expecting value"
               end
      end
  end
with scan_members (fuel : nat) (s : string) (acc : list (string * PyVal)) :
    PyVal * string + string :=
  match fuel with
  | 0 => inr "maximum recursion depth exceeded"
  | S f =>
      match s with
      | String q r =>
          if negb (Ascii.eqb q dq_char) then inr expecting_name else
          match scan_string r with
          | inr m => inr m
          | inl (key, r1) =>
              match skip_ws r1 with
              | String c r3 =>
                  if negb (Ascii.eqb c ":"%char) then inr "Expecting ':' delimiter" else
                  match scan_value f (skip_ws r3) with
                  | inr m => inr m
                  | inl (v, r4) =>
                      let acc' := dict_set key v acc in
                      match skip_ws r4 with
                      | String d r6 =>
                          if Ascii.eqb d "}"%char then inl (PDict acc', r6)
                          else if Ascii.eqb d ","%char then scan_members f (skip_ws r6) acc'
                          else inr "Expecting ',' delimiter"
                      | EmptyString => inr "Expecting ',' delimiter"
                      end
                  end
              | EmptyString => inr "Expecting ':' delimiter"
              end
          end
      | EmptyString => inr expecting_name
      end
  end
with scan_elems (fuel : nat) (s : string) (acc : list PyVal) : PyVal * string + string :=
  match fuel with
  | 0 => inr "maximum recursion depth exceeded"
  | S f =>
      match scan_value f s with
      | inr m => inr m
      | inl (v, r) =>
          let acc' := (acc ++ [v])%list in
          match skip_ws r with
          | String d r' =>
              if Ascii.eqb d "]"%char then inl (PList acc', r')
              else if Ascii.eqb d ","%char then scan_elems f (skip_ws r') acc'
              else inr "Expecting ',' delimiter"
          | EmptyString => inr "Expecting ',' delimiter"
          end
      end
  end.

Definition decode_error (m : string) : PyExc := mkExc "JSONDecodeError" m.

(** [json.loads(s)]: a value between optional whitespace, else
    ["Extra data"]. *)
Definition json_loads (s : string) : py_result PyVal :=
  match scan_value (2 * String.length s + 2) (skip_ws s) with
  | inl (v, r) =>
      match skip_ws r with
      | EmptyString => PyOk v
      | String _ _ => PyErr (decode_error "Extra data")
      end
  | inr m => PyErr (decode_error m)
  end.

End Json.

(* ------------------------------------------------------------------ *)
(** ** ai_agent.py: [NotebookAgent.analyze_error] *)

Module Planner.
Import Agent Decoder.

Definition q (s : string) : string := dq ++ s ++ dq.

(** The f-string prompt of [analyze_error]. *)
Definition analyze_prompt (notebook_context error_cell_id : string) : string :=
  "You are an expert Python programmer helping debug a Jupyter notebook.

NOTEBOOK CONTEXT:
" ++ notebook_context ++ "

The error occurred in cell " ++ error_cell_id ++ ".

Your task is to:
1. Analyze the error in the context of ALL cells
2. Identify which specific cells need to be fixed (could be just the error cell, or earlier cells)
3. Provide the corrected code for each cell that needs fixing
4. Decide if kernel restart is needed or if we can continue from a specific cell
5. Explain your reasoning

Respond in the following JSON format:
{
    " ++ q "analysis" ++ ": " ++ q "Your analysis of what went wrong and why" ++ ",
    " ++ q "cells_to_fix" ++ ": [" ++ q "cell_id_1" ++ ", " ++ q "cell_id_2" ++ "],
    " ++ q "fixes" ++ ": {
        " ++ q "cell_id_1" ++ ": " ++ q "corrected code here" ++ ",
        " ++ q "cell_id_2" ++ ": " ++ q "corrected code here" ++ "
    },
    " ++ q "restart_needed" ++ ": true/false,
    " ++ q "continue_from_cell" ++ ": " ++ q "cell_id_to_start_from" ++ ",
    " ++ q "explanation" ++ ": " ++ q "Step-by-step explanation of the fix strategy" ++ "
}

IMPORTANT: 
- Only fix cells that actually need changes
- Preserve code in cells that are working correctly
- If the error is due to missing imports/setup in earlier cells, fix those cells
- If it's just a bug in the current cell, only fix that cell
- Consider variable state and dependencies between cells
".

(** The dictionary of the [except Exception as e] branch. *)
Definition fallback_plan (error_cell_id : string) (e : PyExc) : PyVal :=
  PDict [("analysis", PStr ("Error in analysis: " ++ exc_msg e));
         ("cells_to_fix", PList [PStr error_cell_id]);
         ("fixes", PDict []);
         ("restart_needed", PBool false);
         ("continue_from_cell", PStr error_cell_id);
         ("explanation", PStr "Using fallback strategy")].

(** [analyze_error(cells, error_cell_id)]: [generate] is the reasoning
    call [self._generate_response], [json_loads] is [json.loads]. *)
Definition analyze_error (generate : string -> py_result string)
    (json_loads : string -> py_result PyVal)
    (cells : list NotebookCell) (error_cell_id : string) : PyVal :=
  let notebook_context := build_notebook_context cells (Some error_cell_id) in
  let prompt := analyze_prompt notebook_context error_cell_id in
  match generate prompt with
  | PyErr e => fallback_plan error_cell_id e
  | PyOk response =>
      match parse_json_response json_loads response with
      | PyOk parsed => parsed
      | PyErr e => fallback_plan error_cell_id e
      end
  end.

End Planner.

(* ------------------------------------------------------------------ *)
(** ** cell_tools.py: [CellTool.execute_tool] *)

Module Tools.
Import Kernel Agent.

Definition py_bind {A B} (m : py_result A) (k : A -> py_result B) : py_result B :=
  match m with PyOk a => k a | PyErr e => PyErr e end.

(** Statements run in order; the first raised exception propagates. *)
Notation "x <-? m ;; k" := (py_bind m (fun x => k))
  (at level 100, m at next level, right associativity).

Definition opt_str_val (o : option string) : PyVal :=
  match o with Some s => PStr s | None => PNone end.

Definition opt_Z_val (o : option Z) : PyVal :=
  match o with Some z => PInt z | None => PNone end.

Definition data_val (d : list (string * string)) : PyVal :=
  PDict (map (fun kv => (fst kv, PStr (snd kv))) d).

(** The output dictionaries built by [NotebookKernel.execute_cell]. *)
Definition output_val (o : Output) : PyVal :=
  match o with
  | OExecuteResult data ec =>
      PDict [("type", PStr "execute_result"); ("data", data_val data);
             ("execution_count", opt_Z_val ec)]
  | ODisplayData data => PDict [("type", PStr "display_data"); ("data", data_val data)]
  | OStream name text =>
      PDict [("type", PStr "stream"); ("name", opt_str_val name); ("text", opt_str_val text)]
  end.

(** The [error] dictionary of [execute_cell], or [None]. *)
Definition error_val (e : option ErrorInfo) : PyVal :=
  match e with
  | Some ei => PDict [("ename", opt_str_val (ename ei)); ("evalue", opt_str_val (evalue ei));
                      ("traceback", PList (map PStr (traceback ei)))]
  | None => PNone
  end.

(** The dictionary [NotebookCell.to_dict()]: its five keys are always
    present, and ["cell_id"] and ["code"] hold strings. *)
Record CellDict := mkCellDict {
  d_cell_id : string;
  d_code : string;
  d_execution_count : option Z;
  d_outputs : PyVal;
  d_error : PyVal
}.

Definition to_dict (c : NotebookCell) : CellDict :=
  mkCellDict (cell_id c) (code c) (execution_count c)
    (PList (map output_val (outputs c))) (error_val (error c)).

Definition type_name (v : PyVal) : string :=
  match v with
  | PNone => "NoneType" | PBool _ => "bool" | PInt _ => "int" | PFloat _ => "float"
  | PStr _ => "str" | PList _ => "list" | PDict _ => "dict"
  end.

(** [d.get(k, default)] on the decoded [arguments]. *)
Definition py_get (d : PyVal) (k : string) (default : PyVal) : py_result PyVal :=
  match d with
  | PDict kv => PyOk (match dict_get k kv with Some v => v | None => default end)
  | _ => PyErr (mkExc "AttributeError" ("'" ++ type_name d ++ "' object has no attribute 'get'"))
  end.

(** [d[k]] on the decoded [arguments]. *)
Definition py_index (d : PyVal) (k : string) : py_result PyVal :=
  match d with
  | PDict kv => dict_index k kv
  | PList _ => PyErr (mkExc "TypeError" "list indices must be integers or slices, not str")
  | PStr _ => PyErr (mkExc "TypeError" "string indices must be integers, not 'str'")
  | _ => PyErr (mkExc "TypeError" ("'" ++ type_name d ++ "' object is not subscriptable"))
  end.

Definition is_nil {A} (l : list A) : bool := match l with [] => true | _ => false end.

(** A float is false when its mantissa (before [e] or [E]) is zero. *)
Fixpoint mantissa_zero (s : string) : bool :=
  match s with
  | EmptyString => true
  | String c s' =>
      if Ascii.eqb c "e"%char || Ascii.eqb c "E"%char then true
      else if Ascii.eqb c "0"%char || Ascii.eqb c "."%char || Ascii.eqb c "-"%char
              || Ascii.eqb c "+"%char
           then mantissa_zero s' else false
  end.

(** [bool(v)]. *)
Definition py_truthy (v : PyVal) : bool :=
  match v with
  | PNone => false
  | PBool b => b
  | PInt z => negb (Z.eqb z 0)
  | PFloat l => negb (mantissa_zero l)
  | PStr s => negb (String.eqb s "")
  | PList l => negb (is_nil l)
  | PDict kv => negb (is_nil kv)
  end.

(** [s == v] for a [str] [s]: only an equal [str] compares equal. *)
Definition str_eq_val (s : string) (v : PyVal) : bool :=
  match v with PStr t => String.eqb s t | _ => false end.

Section ExecuteTool.

(** [str(v)] of a decoded value, used by an f-string; left abstract. *)
Variable py_str : PyVal -> string.

Definition cell_record (c : CellDict) : PyVal :=
  PDict [("id", PStr (d_cell_id c)); ("code", PStr (d_code c));
         ("outputs", d_outputs c); ("error", d_error c)].

(** The [for cell in cells] loop of [_read_cells] with a [cell_id]. *)
Fixpoint find_cell (cell_id : PyVal) (cells : list CellDict) : py_result PyVal :=
  match cells with
  | [] => PyOk (PDict [("success", PBool false);
                       ("error", PStr ("Cell " ++ py_str cell_id ++ " not found"))])
  | c :: rest =>
      if str_eq_val (d_cell_id c) cell_id
      then PyOk (PDict [("success", PBool true); ("cell", cell_record c)])
      else find_cell cell_id rest
  end.

Definition read_cells (args : PyVal) (cells : list CellDict) : py_result PyVal :=
  cell_id <-? py_get args "cell_id" PNone ;;
  if py_truthy cell_id then find_cell cell_id cells
  else PyOk (PDict [("success", PBool true); ("cells", PList (map cell_record cells))]).

Definition update_cell (args : PyVal) (cells : list CellDict) : py_result PyVal :=
  cid <-? py_index args "cell_id" ;;
  code <-? py_index args "code" ;;
  reason <-? py_get args "reason" (PStr "") ;;
  PyOk (PDict [("action", PStr "update_cell"); ("cell_id", cid); ("code", code);
               ("reason", reason); ("success", PBool true)]).

Definition insert_cell (args : PyVal) (cells : list CellDict) : py_result PyVal :=
  code <-? py_index args "code" ;;
  index <-? py_get args "index" (PInt (-1)) ;;
  reason <-? py_get args "reason" (PStr "") ;;
  PyOk (PDict [("action", PStr "insert_cell"); ("code", code); ("index", index);
               ("reason", reason); ("success", PBool true)]).

Definition delete_cell (args : PyVal) (cells : list CellDict) : py_result PyVal :=
  cid <-? py_index args "cell_id" ;;
  reason <-? py_get args "reason" (PStr "") ;;
  PyOk (PDict [("action", PStr "delete_cell"); ("cell_id", cid); ("reason", reason);
               ("success", PBool true)]).

Definition run_cell (args : PyVal) (cells : list CellDict) : py_result PyVal :=
  cid <-? py_index args "cell_id" ;;
  PyOk (PDict [("action", PStr "run_cell"); ("cell_id", cid); ("success", PBool true)]).

(** [CellTool.execute_tool(tool_name, arguments, cells_state)]. *)
Definition execute_tool (tool_name : string) (arguments : PyVal) (cells_state : list CellDict)
    : py_result PyVal :=
  if String.eqb tool_name "read_cells" then read_cells arguments cells_state
  else if String.eqb tool_name "update_cell" then update_cell arguments cells_state
  else if String.eqb tool_name "insert_cell" then insert_cell arguments cells_state
  else if String.eqb tool_name "delete_cell" then delete_cell arguments cells_state
  else if String.eqb tool_name "run_cell" then run_cell arguments cells_state
  else PyOk (PDict [("error", PStr ("Unknown tool: " ++ tool_name))]).

End ExecuteTool.

(** A [str()] for the values the statements instantiate: exact on [None],
    booleans, integers and strings; a float is shown by its lexeme and a
    container by its brackets only. *)
Definition str_scalar (v : PyVal) : string :=
  match v with
  | PNone => "None"
  | PBool b => if b then "True" else "False"
  | PInt z => str_Z z
  | PFloat l => l
  | PStr s => s
  | PList _ => "[...]"
  | PDict _ => "{...}"
  end.

End Tools.

(* ------------------------------------------------------------------ *)
(** ** ai_agent.py: [_chat_with_tools_openai] *)

Module Chat.
Import Agent Tools.

(** [tool_call.id], [tool_call.function.name], [tool_call.function.arguments]. *)
Record ToolCall := mkToolCall { tc_id : string; tc_name : string; tc_arguments : string }.

(** [response.choices[0]]: its [message.content], [message.tool_calls]
    and [finish_reason]. *)
Record Choice := mkChoice {
  m_content : option string;
  m_tool_calls : option (list ToolCall);
  finish_reason : option string
}.

Section ChatWithTools.

Variable py_str : PyVal -> string.
Variable json_loads : string -> py_result PyVal.

(** The [for tool_call in message.tool_calls] loop; [cells_state] is the
    list built before the call, which no tool changes. *)
Fixpoint run_tool_calls (cells_state : list CellDict) (tcs : list ToolCall)
    : py_result (list PyVal) :=
  match tcs with
  | [] => PyOk []
  | tc :: rest =>
      tool_args <-? json_loads (tc_arguments tc) ;;
      tool_result <-? execute_tool py_str (tc_name tc) tool_args cells_state ;;
      recs <-? run_tool_calls cells_state rest ;;
      PyOk (PDict [("id", PStr (tc_id tc)); ("name", PStr (tc_name tc));
                   ("arguments", tool_args); ("result", tool_result)] :: recs)
  end.

(** [message.content or "I'm working on it..."]. *)
Definition message_text (ch : Choice) : string :=
  match m_content ch with
  | Some s => if String.eqb s "" then "I'm working on it..." else s
  | None => "I'm working on it..."
  end.

(** [_chat_with_tools_openai(messages, cells)].  [configured] is
    [openai_client] being set; the reasoning service is the sequence of
    its answers, [service n] being the answer to the call number [n]
    (or the exception it raises); [calls] counts the calls made so far,
    and is returned with the result. *)
Definition chat_with_tools_openai (configured : bool) (service : nat -> py_result Choice)
    (cells : list NotebookCell) (calls : nat) : py_result PyVal * nat :=
  if negb configured then (PyErr (mkExc "ValueError" "OpenAI client not configured"), calls)
  else
    let cells_state := map to_dict cells in
    match service calls with
    | PyErr e => (PyErr e, S calls)
    | PyOk ch =>
        (tool_calls <-? match m_tool_calls ch with
                        | Some tcs => if is_nil tcs then PyOk [] else run_tool_calls cells_state tcs
                        | None => PyOk []
                        end ;;
         PyOk (PDict [("message", PStr (message_text ch)); ("tool_calls", PList tool_calls);
                      ("finish_reason", opt_str_val (finish_reason ch))]),
         S calls)
    end.

End ChatWithTools.

End Chat.

(* ------------------------------------------------------------------ *)
(** ** kernel_manager.py: [KernelManagerService]; main.py: shutdown *)

Module Manager.
Import Kernel.

(** [self.kernels], in insertion order, and the set of kernel ids whose
    interpreter process was started and has not been released by a
    completed shutdown. *)
Record Mgr := mkMgr {
  kernels : list (string * NotebookKernel);
  live : gset string
}.

(** [self.kernels.get(kernel_id)]. *)
Fixpoint reg_get (id : string) (reg : list (string * NotebookKernel)) : option NotebookKernel :=
  match reg with
  | [] => None
  | (k, v) :: rest => if String.eqb k id then Some v else reg_get id rest
  end.

(** [del self.kernels[kernel_id]]. *)
Definition reg_del (id : string) (reg : list (string * NotebookKernel))
    : list (string * NotebookKernel) :=
  List.filter (fun kv => negb (String.eqb (fst kv) id)) reg.

Section Shutdown.

(** [self.manager.shutdown_kernel] for kernel [id]: [None] when the
    process is released, else the exception it raises. *)
Variable release : string -> option PyExc.

(** [NotebookKernel.shutdown] followed by the [del]; a kernel object is
    always true.  When the release raises, the exception propagates before
    the [del], so the entry stays registered; the model keeps the registry
    and [live] as they were and does not track what had already been done
    by then ([client.stop_channels()] has run, and the process may be
    partly torn down), so a state reached through a failed release is only
    described by which ids it registers. *)
Definition shutdown_kernel (kernel_id : string) (st : Mgr) : py_result unit * Mgr :=
  match reg_get kernel_id (kernels st) with
  | None => (PyOk tt, st)
  | Some _ =>
      match release kernel_id with
      | Some e => (PyErr e, st)
      | None => (PyOk tt, mkMgr (reg_del kernel_id (kernels st)) (live st ∖ {[kernel_id]}))
      end
  end.

Fixpoint shutdown_keys (ks : list string) (st : Mgr) : py_result unit * Mgr :=
  match ks with
  | [] => (PyOk tt, st)
  | k :: rest =>
      match shutdown_kernel k st with
      | (PyOk _, st') => shutdown_keys rest st'
      | (PyErr e, st') => (PyErr e, st')
      end
  end.

(** [shutdown_all]: over a copy of the keys. *)
Definition shutdown_all (st : Mgr) : py_result unit * Mgr :=
  shutdown_keys (map fst (kernels st)) st.

(** The [DELETE /kernel/{kernel_id}] endpoint: any exception becomes an
    [HTTPException] with status 500 and detail [str(e)]. *)
Definition shutdown_endpoint (kernel_id : string) (st : Mgr) : py_result PyVal * Mgr :=
  match shutdown_kernel kernel_id st with
  | (PyOk _, st') =>
      (PyOk (PDict [("status", PStr "shutdown"); ("kernel_id", PStr kernel_id)]), st')
  | (PyErr e, st') => (PyErr (mkExc "HTTPException" (exc_msg e)), st')
  end.

End Shutdown.

End Manager.

(* ------------------------------------------------------------------ *)
(** ** ai_agent.py: providers, [AgentService] and [chat] *)

Module AgentConfig.
Import Kernel Agent Tools Chat.

(** [config.REASONING_MODELS]. *)
Definition REASONING_MODELS : list string :=
  ["o1-preview"; "o1-mini"; "o1"; "gpt-5"; "gpt-5-mini"; "gpt-5-nano"].

(** [NotebookAgent._get_provider]; [String.prefix p s] is [s.startswith(p)]. *)
Definition get_provider (model_name : string) : string :=
  if String.prefix "gpt-" model_name || String.prefix "o1" model_name then "openai"
  else if String.prefix "gemini" model_name then "gemini"
  else "openai".

(** [NotebookAgent._is_reasoning_model]. *)
Definition is_reasoning_model (model_name : string) : bool :=
  existsb (fun rm => String.prefix rm model_name) REASONING_MODELS.

(** The attributes [NotebookAgent.__init__] sets. *)
Record NotebookAgent := mkAgent {
  model_name : string;
  provider : string;
  reasoning : bool
}.

Definition new_agent (m : string) : NotebookAgent :=
  mkAgent m (get_provider m) (is_reasoning_model m).

Definition default_model : string := "gpt-4o-mini".

(** [model_name or self.default_model]. *)
Definition resolve_model (model_name : option string) : string :=
  match model_name with
  | Some m => if String.eqb m "" then default_model else m
  | None => default_model
  end.

Fixpoint agent_lookup (m : string) (agents : list (string * NotebookAgent)) : option NotebookAgent :=
  match agents with
  | [] => None
  | (k, a) :: rest => if String.eqb k m then Some a else agent_lookup m rest
  end.

(** [AgentService.get_agent]: [self.agents] in insertion order, returned
    with the agent. *)
Definition get_agent (model_name : option string) (agents : list (string * NotebookAgent))
    : NotebookAgent * list (string * NotebookAgent) :=
  let model := resolve_model model_name in
  match agent_lookup model agents with
  | Some a => (a, agents)
  | None => let a := new_agent model in (a, (agents ++ [(model, a)])%list)
  end.

Definition system_message : string := "You are an expert AI coding assistant integrated into a Jupyter notebook environment.

You have tools to manipulate notebook cells:
- read_cells: Read code from cells
- update_cell: Modify existing cells
- insert_cell: Add new cells at any position  
- delete_cell: Remove cells
- run_cell: Execute cells to test them
- run_terminal_command: Run shell commands (pip install, file management, etc.)

When the user asks you to do something:
1. Use read_cells to understand the current state
2. Use the appropriate tools to make changes
3. Explain what you're doing and why
4. Use run_cell to verify your changes work

Be conversational and helpful. Think step by step.".

Definition message (role content : string) : PyVal :=
  PDict [("role", PStr role); ("content", PStr content)].

(** The [messages] that [chat] builds: [conversation_history or []], the
    system message when that list is empty, then the context message. *)
Definition chat_messages (cells : list NotebookCell) (user_message : string)
    (conversation_history : option (list PyVal)) : list PyVal :=
  let notebook_context := build_notebook_context cells None in
  let messages := match conversation_history with Some h => h | None => [] end in
  let messages := if is_nil messages then (messages ++ [message "system" system_message])%list
                  else messages in
  (messages ++ [message "user" ("Current notebook state:" ++ nl ++ notebook_context ++ nl ++ nl
                                ++ "User: " ++ user_message)])%list.

(** [messages[-1]]. *)
Definition py_last (l : list PyVal) : py_result PyVal :=
  match last_opt l with
  | Some v => PyOk v
  | None => PyErr (mkExc "IndexError" "list index out of range")
  end.

Section ChatRoute.

Variable py_str : PyVal -> string.
Variable json_loads : string -> py_result PyVal.
(** [self._generate_gemini_response(prompt)]: the text of the answer, or
    the exception the call raises. *)
Variable gemini : PyVal -> py_result string.

(** [_chat_without_tools(messages)]. *)
Definition chat_without_tools (messages : list PyVal) : py_result PyVal :=
  last <-? py_last messages ;;
  user_message <-? py_index last "content" ;;
  response <-? gemini user_message ;;
  PyOk (PDict [("message", PStr response); ("tool_calls", PList []);
               ("finish_reason", PStr "stop")]).

(** [NotebookAgent.chat] for an agent of model [model]: the OpenAI
    branch is [_chat_with_tools_openai], whose service is the sequence of
    its answers; any other provider takes [_chat_without_tools]. *)
Definition chat (model : string) (configured : bool) (service : nat -> py_result Choice)
    (cells : list NotebookCell) (user_message : string)
    (conversation_history : option (list PyVal)) (calls : nat) : py_result PyVal * nat :=
  let messages := chat_messages cells user_message conversation_history in
  if String.eqb (get_provider model) "openai"
  then chat_with_tools_openai py_str json_loads configured service cells calls
  else (chat_without_tools messages, calls).

End ChatRoute.

End AgentConfig.

(* ------------------------------------------------------------------ *)
(** ** main.py: the kernel endpoints; kernel_manager.py: [create_kernel] *)

Module Endpoints.
Import Kernel Manager.

(** An [HTTPException(status_code, detail)]; its [str] is
    ["<status>: <detail>"]. *)
Definition http_error (status : Z) (detail : string) : PyExc :=
  mkExc "HTTPException" (str_Z status ++ ": " ++ detail).

(** [self.kernels[kernel_id] = kernel]: replaced in place when the key is
    present, appended otherwise. *)
Fixpoint reg_set (id : string) (k : NotebookKernel) (reg : list (string * NotebookKernel))
    : list (string * NotebookKernel) :=
  match reg with
  | [] => [(id, k)]
  | (id', k') :: rest =>
      if String.eqb id' id then (id, k) :: rest else (id', k') :: reg_set id k rest
  end.

(** [KernelManagerService.get_kernel]. *)
Definition get_kernel (kernel_id : string) (st : Mgr) : option NotebookKernel :=
  reg_get kernel_id (kernels st).

Section Create.

(** [NotebookKernel.start] for a kernel with id [id]: [None] when the
    kernel and its channels start, else the exception raised (a failed
    start is modelled as launching no process). *)
Variable start : string -> option PyExc.

(** [KernelManagerService.create_kernel]; [new_id] is [str(uuid.uuid4())]. *)
Definition create_kernel (new_id : string) (st : Mgr) : py_result string * Mgr :=
  match start new_id with
  | Some e => (PyErr e, st)
  | None => (PyOk new_id, mkMgr (reg_set new_id (mkKernel new_id true true) (kernels st))
                                (live st ∪ {[new_id]}))
  end.

(** [POST /kernel/create]. *)
Definition create_endpoint (new_id : string) (st : Mgr) : py_result PyVal * Mgr :=
  match create_kernel new_id st with
  | (PyOk id, st') => (PyOk (PDict [("kernel_id", PStr id); ("status", PStr "created")]), st')
  | (PyErr e, st') => (PyErr (http_error 500 (exc_msg e)), st')
  end.

End Create.

(** [POST /kernel/{kernel_id}/restart] and [POST /kernel/{kernel_id}/interrupt]:
    [op] is [kernel.restart()] or [kernel.interrupt()] ([None] when it
    returns), [done_status] the status word of the answer. *)
Definition kernel_op_endpoint (op : string -> option PyExc) (done_status : string)
    (kernel_id : string) (st : Mgr) : py_result PyVal :=
  match get_kernel kernel_id st with
  | None => PyErr (http_error 404 "Kernel not found")
  | Some _ =>
      match op kernel_id with
      | Some e => PyErr (http_error 500 (exc_msg e))
      | None => PyOk (PDict [("status", PStr done_status); ("kernel_id", PStr kernel_id)])
      end
  end.

Definition restart_endpoint (restart : string -> option PyExc) := kernel_op_endpoint restart "restarted".
Definition interrupt_endpoint (interrupt : string -> option PyExc) :=
  kernel_op_endpoint interrupt "interrupted".

(** [POST /execute]; [s] is what the kernel's IOPub channel delivers. *)
Definition execute_endpoint (kernel_id cell_id code : string) (s : list IopubItem) (st : Mgr)
    : py_result ExecResult :=
  match get_kernel kernel_id st with
  | None => PyErr (http_error 404 "Kernel not found")
  | Some k =>
      match execute_cell k code cell_id s with
      | PyOk r => PyOk r
      | PyErr e => PyErr (http_error 500 (exc_msg e))
      end
  end.

End Endpoints.

(* ------------------------------------------------------------------ *)
(** ** Views of the kernel results and of the cells *)

Module Views.
Import Kernel Agent.

(** The output that a consumed IOPub message of type [t] adds, if any. *)
Definition output_of_msg (tc : string * Content) : option Output :=
  let (t, c) := tc in
  if String.eqb t "execute_result" then
    Some (OExecuteResult (match c_data c with Some d => d | None => [] end) (c_execution_count c))
  else if String.eqb t "display_data" then
    Some (ODisplayData (match c_data c with Some d => d | None => [] end))
  else if String.eqb t "stream" then Some (OStream (c_name c) (c_text c))
  else None.

(** The [execution_count] of the last ['execute_input'] message among
    [l], if there is one. *)
Definition last_input_count (l : list (string * Content)) : option (option Z) :=
  last_opt (map (fun tc => c_execution_count (snd tc))
                (List.filter (fun tc => String.eqb (fst tc) "execute_input") l)).

(** A cell with what the rendering does not show cleared: the data of
    display outputs, the entries other than ['text/plain'] and the
    execution count of execute results, and an execution count of 0. *)
Definition hide_output (o : Output) : Output :=
  match o with
  | ODisplayData _ => ODisplayData []
  | OExecuteResult d _ =>
      OExecuteResult (List.filter (fun kv => String.eqb (fst kv) "text/plain") d) None
  | OStream n t => OStream n t
  end.

Definition hide_unshown (c : NotebookCell) : NotebookCell :=
  mkCell (cell_id c) (code c)
    (match execution_count c with Some n => if Z.eqb n 0 then None else Some n | None => None end)
    (map hide_output (outputs c)) (error c).

End Views.

(* ------------------------------------------------------------------ *)
(** ** ai_agent.py: [suggest_code] and [optimize_notebook] *)

Module Suggest.
Import Agent Decoder Planner.

(** The f-string prompt of [suggest_code]. *)
Definition suggest_prompt (notebook_context user_request : string) : string :=
  "You are an expert Python programmer helping write code in a Jupyter notebook.

CURRENT NOTEBOOK STATE:
" ++ notebook_context ++ "

USER REQUEST: " ++ user_request ++ "

Generate appropriate Python code that:
1. Builds on the existing notebook context
2. Follows best practices
3. Is well-commented
4. Fulfills the user's request

Respond in JSON format:
{
    " ++ q "code" ++ ": " ++ q "your generated code here" ++ ",
    " ++ q "explanation" ++ ": " ++ q "what this code does" ++ ",
    " ++ q "cell_type" ++ ": " ++ q "code" ++ ",
    " ++ q "dependencies" ++ ": [" ++ q "list of any new packages needed" ++ "]
}
".

(** [suggest_code(cells, user_request)]. *)
Definition suggest_code (generate : string -> py_result string)
    (json_loads : string -> py_result PyVal)
    (cells : list NotebookCell) (user_request : string) : PyVal :=
  let notebook_context := build_notebook_context cells None in
  let prompt := suggest_prompt notebook_context user_request in
  let fallback e := PDict [("code", PStr "# Error generating code"); ("explanation", PStr (exc_msg e));
                           ("cell_type", PStr "code"); ("dependencies", PList [])] in
  match generate prompt with
  | PyErr e => fallback e
  | PyOk response =>
      match parse_json_response json_loads response with
      | PyOk parsed => parsed
      | PyErr e => fallback e
      end
  end.

(** The f-string prompt of [optimize_notebook]. *)
Definition optimize_prompt (notebook_context : string) : string :=
  "You are an expert Python programmer reviewing a Jupyter notebook for optimization.

NOTEBOOK:
" ++ notebook_context ++ "

Analyze this notebook and suggest:
1. Code optimizations (performance, readability)
2. Better organization of cells
3. Missing error handling
4. Potential bugs or issues

Respond in JSON format:
{
    " ++ q "suggestions" ++ ": [
        {
            " ++ q "cell_id" ++ ": " ++ q "cell_id" ++ ",
            " ++ q "issue" ++ ": " ++ q "description of issue" ++ ",
            " ++ q "suggested_fix" ++ ": " ++ q "corrected code or explanation" ++ ",
            " ++ q "priority" ++ ": " ++ q "high/medium/low" ++ "
        }
    ],
    " ++ q "overall_assessment" ++ ": " ++ q "general feedback on the notebook" ++ "
}
".

(** [optimize_notebook(cells)]. *)
Definition optimize_notebook (generate : string -> py_result string)
    (json_loads : string -> py_result PyVal) (cells : list NotebookCell) : PyVal :=
  let notebook_context := build_notebook_context cells None in
  let prompt := optimize_prompt notebook_context in
  let fallback e := PDict [("suggestions", PList []);
                           ("overall_assessment", PStr ("Error: " ++ exc_msg e))] in
  match generate prompt with
  | PyErr e => fallback e
  | PyOk response =>
      match parse_json_response json_loads response with
      | PyOk parsed => parsed
      | PyErr e => fallback e
      end
  end.

End Suggest.

(* ------------------------------------------------------------------ *)
(** ** main.py: [POST /notebook/save] and [GET /notebook/load/{filename}] *)

Module Notebook.
Import Endpoints.

(** [NotebookCellModel]; outputs and error as decoded JSON values. *)
Record CellModel := mkCellModel {
  cm_cell_id : string;
  cm_code : string;
  cm_cell_type : string;
  cm_execution_count : option Z;
  cm_outputs : list PyVal;
  cm_error : option PyVal
}.

(** A cell of an nbformat v4 notebook as [nbformat.read] gives it back:
    a code cell with its execution count and outputs, or a markdown cell,
    which has neither attribute. *)
Inductive NbCell :=
| NbCode (source : string) (execution_count : option Z) (outputs : list PyVal)
| NbMarkdown (source : string).

(** The body of the [for cell in request.cells] loop of [save_notebook]. *)
Definition nb_cell_of (c : CellModel) : NbCell :=
  if String.eqb (cm_cell_type c) "code"
  then NbCode (cm_code c) (cm_execution_count c) (cm_outputs c)
  else NbMarkdown (cm_code c).

(** A file of the [notebooks] directory: an nbformat v4 notebook, or a
    file that [open(filepath, 'w')] emptied before [nbformat.write]
    raised. *)
Inductive NbFile :=
| NbNotebook (cells : list NbCell)
| NbEmptied.

(** The [notebooks] directory: the file each name holds, by the file
    name given to the endpoint. *)
Abbreviation Store := (gmap string NbFile).

(** A code cell whose [outputs] list is not empty: [nb_cell.outputs] is
    then a list of plain dictionaries, on which the [split_lines] step of
    [nbformat.write] reads [output.output_type] and raises. *)
Definition code_with_outputs (c : CellModel) : bool :=
  String.eqb (cm_cell_type c) "code" &&
  match cm_outputs c with [] => false | _ :: _ => true end.

Definition output_type_error : string := "'dict' object has no attribute 'output_type'".

Section Files.

(** Whether [open(notebooks/filename, 'w')] succeeds, and the exception
    raised when it does not. *)
Variable writable : string -> bool.
Variable write_error : string -> PyExc.

(** [save_notebook]: the file is opened for writing, which empties it,
    then [nbformat.write] writes the cells in order, or raises
    [AttributeError] when a code cell has outputs. *)
Definition save_notebook (filename : string) (cells : list CellModel) (st : Store)
    : py_result PyVal * Store :=
  if writable filename then
    if existsb code_with_outputs cells
    then (PyErr (http_error 500 output_type_error), <[filename := NbEmptied]> st)
    else (PyOk (PDict [("status", PStr "saved"); ("filename", PStr filename)]),
          <[filename := NbNotebook (map nb_cell_of cells)]> st)
  else (PyErr (http_error 500 (exc_msg (write_error filename))), st).

End Files.

(** A directory where every file can be written. *)
Definition writable_all (filename : string) : bool := true.

(** The [NotebookCellModel] built for the cell number [i] of a loaded
    notebook; [getattr(cell, attr, default)] gives the default on a
    markdown cell. *)
Definition cell_model_of (i : nat) (c : NbCell) : CellModel :=
  match c with
  | NbCode src ec outs => mkCellModel ("cell-" ++ str_Z (Z.of_nat i)) src "code" ec outs None
  | NbMarkdown src => mkCellModel ("cell-" ++ str_Z (Z.of_nat i)) src "markdown" None [] None
  end.

(** [for i, cell in enumerate(nb.cells)], from index [i]. *)
Fixpoint cell_models_from (i : nat) (cs : list NbCell) : list CellModel :=
  match cs with
  | [] => []
  | c :: rest => cell_model_of i c :: cell_models_from (S i) rest
  end.

(** [load_notebook]: the file name and the cells, or 404 when the file
    does not exist; on an empty file [nbformat.read] raises [NotJSONError]
    with the message built from [repr] of the text read. *)
Definition load_notebook (filename : string) (st : Store) : py_result (string * list CellModel) :=
  match st !! filename with
  | None => PyErr (http_error 404 "Notebook not found")
  | Some NbEmptied =>
      PyErr (http_error 500 ("Notebook does not appear to be JSON: " ++ py_repr_str ""))
  | Some (NbNotebook nb) => PyOk (filename, cell_models_from 0 nb)
  end.

End Notebook.

(* ------------------------------------------------------------------ *)
(** ** Example inputs of the chat handler *)

Module Scenarios.
Import Agent Tools Chat.

(** A notebook of one cell. *)
Definition c1 : NotebookCell := mkCell "c1" "print(x)" None [] None.

(** [{"code": "x = 1", "index": 0}]. *)
Definition insert_args : string :=
  "{" ++ dq ++ "code" ++ dq ++ ": " ++ dq ++ "x = 1" ++ dq ++ ", "
      ++ dq ++ "index" ++ dq ++ ": 0}".

(** A reply asking to insert a cell at the top, then to read all cells. *)
Definition insert_then_read : Choice :=
  mkChoice None
    (Some [mkToolCall "call_1" "insert_cell" insert_args; mkToolCall "call_2" "read_cells" "{}"])
    (Some "tool_calls").

(** A reply with no tool call. *)
Definition final_reply : Choice := mkChoice (Some "Done.") None (Some "stop").

(** A service that asks for tools on its first answer and answers plainly
    afterwards. *)
Definition tools_then_stop (n : nat) : py_result Choice :=
  match n with 0 => PyOk insert_then_read | S _ => PyOk final_reply end.

(** A service that asks for tools on every answer. *)
Definition always_tools (n : nat) : py_result Choice := PyOk insert_then_read.

End Scenarios.

(* ================================================================== *)
(** * Theorems *)

Module KernelFacts.
Import Kernel.

Lemma last_opt_nonempty {A} (y : A) l : exists z, last_opt (y :: l) = Some z.
Proof.
  revert y; induction l as [|y' l IH]; intros y; [eauto|].
  destruct (IH y') as [z Hz]. exists z. exact Hz.
Qed.

Lemma last_opt_cons {A} (x : A) l :
  last_opt (x :: l) = match last_opt l with Some y => Some y | None => Some x end.
Proof.
  destruct l as [|y l]; [reflexivity|].
  destruct (last_opt_nonempty y l) as [z Hz].
  change (last_opt (x :: y :: l)) with (last_opt (y :: l)). by rewrite Hz.
Qed.

Lemma last_opt_None {A} (l : list A) : last_opt l = None <-> l = [].
Proof.
  induction l as [|x l IH]; [done|]. rewrite last_opt_cons.
  destruct (last_opt l); split; intros H; try discriminate.
Qed.

Lemma last_opt_In {A} (l : list A) x : last_opt l = Some x -> In x l.
Proof.
  induction l as [|y l IH]; [discriminate|]. rewrite last_opt_cons.
  destruct (last_opt l) eqn:E; intros H.
  - injection H as ->. right. by apply IH.
  - injection H as ->. left. reflexivity.
Qed.

Lemma error_events_cons t c rest :
  error_events (IMsg t c :: rest) =
  if String.eqb t "status" && is_idle c then []
  else if String.eqb t "error" then c :: error_events rest else error_events rest.
Proof.
  unfold error_events; simpl.
  destruct (String.eqb t "status" && is_idle c); [reflexivity|].
  simpl. destruct (String.eqb t "error"); reflexivity.
Qed.

(** The error slot after the loop is built from the last ['error'] message
    the loop consumed, or is left as it was. *)
Lemma collect_error s st :
  cs_error (collect s st) =
  match last_opt (error_events s) with
  | Some c => Some (error_of_content c)
  | None => cs_error st
  end.
Proof.
  revert st; induction s as [|[t c| |e] rest IH]; intros st; try reflexivity.
  rewrite error_events_cons. cbn [collect].
  destruct (String.eqb_spec t "execute_input") as [->|N1]; [by rewrite IH|].
  destruct (String.eqb_spec t "execute_result") as [->|N2]; [by rewrite IH|].
  destruct (String.eqb_spec t "display_data") as [->|N3]; [by rewrite IH|].
  destruct (String.eqb_spec t "stream") as [->|N4]; [by rewrite IH|].
  destruct (String.eqb_spec t "error") as [->|N5].
  - cbn -[last_opt error_events]. rewrite last_opt_cons, IH. cbn [cs_error].
    destruct (last_opt (error_events rest)); reflexivity.
  - destruct (String.eqb_spec t "status") as [->|N6].
    + cbn -[last_opt error_events collect].
      destruct (is_idle c); [reflexivity|by rewrite IH].
    + by rewrite IH.
Qed.

(** A channel that stops delivering (end of the list, [queue.Empty] or an
    exception) leaves the loop in the state an idle status would. *)
Lemma collect_cut_idle s st :
  collect s st = collect (s ++ [idle_msg])%list st /\
  collect (s ++ [IEmpty])%list st = collect (s ++ [idle_msg])%list st /\
  (forall e, collect (s ++ [IRaise e])%list st = collect (s ++ [idle_msg])%list st).
Proof.
  revert st; induction s as [|[t c| |e] rest IH]; intros st.
  - repeat split.
  - simpl. repeat case_match; try apply IH; repeat split.
  - repeat split.
  - repeat split.
Qed.

Lemma execute_cell_ok k code cid s r :
  execute_cell k code cid s = PyOk r ->
  r = mkResult cid (cs_execution_count (collect s collect_init))
         (cs_outputs (collect s collect_init)) (cs_error (collect s collect_init))
         (match cs_error (collect s collect_init) with
          | Some _ => "error" | None => "success" end).
Proof.
  unfold execute_cell. destruct (is_running k); simpl; [|discriminate].
  intros H. injection H as <-. reflexivity.
Qed.

(** Claim C1.  For every execution that returns a result: its status is
    ["error"] (the code's name for the failed status) exactly when an
    error record was captured, which happens exactly when an ['error']
    message was consumed; with no error record the status is ["success"];
    and when the kernel reports its errors with a non-empty traceback the
    result is failed and carries a non-empty traceback. *)
Theorem execute_cell_status_iff_error k code cid s r :
  execute_cell k code cid s = PyOk r ->
  (r_status r = "error" <-> r_error r <> None) /\
  (r_error r = None <-> error_events s = []) /\
  (r_error r = None -> r_status r = "success") /\
  (error_events s <> [] ->
   Forall (fun c => traceback (error_of_content c) <> []) (error_events s) ->
   r_status r = "error" /\ exists e, r_error r = Some e /\ traceback e <> []).
Proof.
  intros H. apply execute_cell_ok in H as ->. cbn [r_status r_error].
  rewrite collect_error. cbn [cs_error collect_init].
  destruct (last_opt (error_events s)) as [c|] eqn:L.
  - assert (Hin : In c (error_events s)) by (by apply last_opt_In).
    split; [split; intros; congruence|].
    split; [split; [discriminate|intros Hnil; rewrite Hnil in Hin; destruct Hin]|].
    split; [discriminate|].
    intros _ HF. split; [reflexivity|]. exists (error_of_content c). split; [reflexivity|].
    rewrite Forall_forall in HF. apply HF. by apply list_elem_of_In.
  - apply last_opt_None in L. rewrite L.
    split; [split; intros; congruence|]. split; [done|]. split; [done|]. done.
Qed.

(** A kernel whose channels are started. *)
Definition running_kernel : NotebookKernel := mkKernel "k0" true true.

Definition err_content (name msg : string) (tb : list string) : Content :=
  mkContent None None None None (Some name) (Some msg) (Some tb) None.

Lemma execute_cell_status_iff_error_witness :
  let s := [IMsg "error" (err_content "ZeroDivisionError" "division by zero" ["tb"]); idle_msg] in
  exists r, execute_cell running_kernel "1/0" "u1" s = PyOk r /\
  ((r_status r = "error" <-> r_error r <> None) /\
   (r_error r = None <-> error_events s = []) /\
   (r_error r = None -> r_status r = "success") /\
   (error_events s <> [] ->
    Forall (fun c => traceback (error_of_content c) <> []) (error_events s) ->
    r_status r = "error" /\ exists e, r_error r = Some e /\ traceback e <> [])).
Proof.
  eexists. split; [reflexivity|].
  apply (execute_cell_status_iff_error running_kernel "1/0" "u1"). reflexivity.
Defined.

Definition stream_content (text : string) : Content :=
  mkContent None None (Some "stdout") (Some text) None None None None.

(** Claim C3 (as the code behaves).  When the channel stops delivering
    before an idle status (the list runs out, [queue.Empty] after the
    timeout, or an exception from [get_iopub_msg]), [execute_cell] returns
    exactly the result it returns when the same messages are followed by an
    idle status: the result has no field that marks it as incomplete, and
    its status is ["success"] unless an error message was consumed. *)
Theorem execute_cell_cut_same_as_idle k code cid s :
  execute_cell k code cid s = execute_cell k code cid (s ++ [idle_msg])%list /\
  execute_cell k code cid (s ++ [IEmpty])%list = execute_cell k code cid (s ++ [idle_msg])%list /\
  (forall e, execute_cell k code cid (s ++ [IRaise e])%list =
             execute_cell k code cid (s ++ [idle_msg])%list) /\
  (forall r, (execute_cell k code cid s = PyOk r \/
              execute_cell k code cid (s ++ [IEmpty])%list = PyOk r \/
              exists e, execute_cell k code cid (s ++ [IRaise e])%list = PyOk r) ->
     (error_events s = [] -> r_status r = "success" /\ r_error r = None) /\
     (error_events s <> [] -> r_status r = "error")).
Proof.
  assert (E1 : execute_cell k code cid s = execute_cell k code cid (s ++ [idle_msg])%list /\
    execute_cell k code cid (s ++ [IEmpty])%list = execute_cell k code cid (s ++ [idle_msg])%list /\
    (forall e, execute_cell k code cid (s ++ [IRaise e])%list =
               execute_cell k code cid (s ++ [idle_msg])%list)).
  { unfold execute_cell. destruct (collect_cut_idle s collect_init) as (H1 & H2 & H3).
    split; [by rewrite <- H1|]. split; [by rewrite H2|].
    intros e. by rewrite H3. }
  destruct E1 as (H1 & H2 & H3). split; [exact H1|]. split; [exact H2|]. split; [exact H3|].
  intros r Hr.
  assert (Hs : execute_cell k code cid s = PyOk r).
  { destruct Hr as [Hr|[Hr|[e Hr]]]; [exact Hr| |]; rewrite H1; [by rewrite <- H2|by rewrite <- (H3 e)]. }
  apply execute_cell_ok in Hs as ->. cbn [r_status r_error].
  rewrite collect_error. cbn [cs_error collect_init].
  destruct (last_opt (error_events s)) as [c|] eqn:L.
  - split; [|reflexivity]. intros Hnil. rewrite Hnil in L. discriminate.
  - apply last_opt_None in L. split; [done|]. intros Hne. contradiction.
Qed.

Lemma execute_cell_cut_same_as_idle_witness :
  let s := [IMsg "stream" (stream_content "1")] in
  exists r, execute_cell running_kernel "print(1)" "u1" (s ++ [IEmpty])%list = PyOk r /\
  r_status r = "success" /\ r_error r = None.
Proof.
  eexists. split; [reflexivity|].
  destruct (execute_cell_cut_same_as_idle running_kernel "print(1)" "u1"
              [IMsg "stream" (stream_content "1")]) as (_ & _ & _ & H).
  apply (H _ (or_intror (or_introl eq_refl))). reflexivity.
Defined.

(** Claim C3, refuted: a run cut by the ten-second timeout before any idle
    status returns a plain ["success"] result, identical to the result of
    a run that completed normally. *)
Lemma execute_cell_timeout_counterexample :
  execute_cell running_kernel "print(1); import time; time.sleep(60)" "u1"
    [IMsg "stream" (stream_content "1"); IEmpty] =
  execute_cell running_kernel "print(1); import time; time.sleep(60)" "u1"
    [IMsg "stream" (stream_content "1"); idle_msg] /\
  execute_cell running_kernel "print(1); import time; time.sleep(60)" "u1"
    [IMsg "stream" (stream_content "1"); IEmpty] =
  PyOk (mkResult "u1" None [OStream (Some "stdout") (Some "1")] None "success").
Proof. split; reflexivity. Qed.

(** Claim C5 (as the code behaves).  The error slot holds at most one
    record, and each ['error'] message replaces it whole: the returned
    error is the record of the last ['error'] message consumed before the
    loop left, nothing is appended to an earlier traceback. *)
Theorem execute_cell_last_error_wins k code cid s r :
  execute_cell k code cid s = PyOk r ->
  r_error r = option_map error_of_content (last_opt (error_events s)).
Proof.
  intros H. apply execute_cell_ok in H as ->. cbn [r_error].
  rewrite collect_error. by destruct (last_opt (error_events s)).
Qed.

Lemma execute_cell_last_error_wins_witness :
  let s := [IMsg "error" (err_content "ZeroDivisionError" "division by zero" ["tb1"]);
            IMsg "error" (err_content "NameError" "name 'y' is not defined" ["tb2"]);
            idle_msg] in
  exists r, execute_cell running_kernel "1/0" "u1" s = PyOk r /\
  r_error r = option_map error_of_content (last_opt (error_events s)).
Proof.
  eexists. split; [reflexivity|].
  apply (execute_cell_last_error_wins running_kernel "1/0" "u1"). reflexivity.
Defined.

(** Claim C5, refuted: with two error messages the result keeps the second
    one's name, message and traceback, and the first traceback is lost. *)
Lemma execute_cell_two_errors_counterexample :
  execute_cell running_kernel "1/0" "u1"
    [IMsg "error" (err_content "ZeroDivisionError" "division by zero" ["tb1"]);
     IMsg "error" (err_content "NameError" "name 'y' is not defined" ["tb2"]);
     idle_msg] =
  PyOk (mkResult "u1" None []
          (Some (mkError (Some "NameError") (Some "name 'y' is not defined") ["tb2"]))
          "error").
Proof. reflexivity. Qed.

End KernelFacts.

Module SerializerFacts.
Import Kernel Agent.

Definition code_prefix : string := "Code:" ++ nl.
Definition header_prefix : string := nl ++ "--- Cell ".

Lemma filter_flat_map_output (q : string) os :
  (forall o, List.filter (String.prefix q) (output_part o) = []) ->
  List.filter (String.prefix q) (flat_map output_part os) = [].
Proof.
  intros Ho. induction os as [|o os IH]; [reflexivity|].
  simpl. rewrite List.filter_app, Ho, IH. reflexivity.
Qed.

Ltac solve_output_part :=
  intros [data ec|data|name text]; simpl; try reflexivity;
  destruct (find _ data) as [[? ?]|]; reflexivity.

Lemma filter_code_output o : List.filter (String.prefix code_prefix) (output_part o) = [].
Proof. revert o. solve_output_part. Qed.

Lemma filter_header_output o : List.filter (String.prefix header_prefix) (output_part o) = [].
Proof. revert o. solve_output_part. Qed.

Ltac solve_tail Hout :=
  intros c; unfold execution_count_part, outputs_part, error_part;
  rewrite !List.filter_app;
  destruct (execution_count c) as [n|]; [destruct (Z.eqb n 0)|];
  destruct (outputs c) as [|o os]; destruct (error c);
  cbn [List.filter app]; try (rewrite filter_flat_map_output; [|exact Hout]);
  reflexivity.

Lemma filter_code_tail c :
  List.filter (String.prefix code_prefix)
    (execution_count_part c ++ outputs_part c ++ error_part c)%list = [].
Proof. revert c. solve_tail filter_code_output. Qed.

Lemma filter_header_tail c :
  List.filter (String.prefix header_prefix)
    (execution_count_part c ++ outputs_part c ++ error_part c)%list = [].
Proof. revert c. solve_tail filter_header_output. Qed.

Lemma prefix_app_self (s t : string) : String.prefix s (s ++ t) = true.
Proof. induction s as [|a s IH]; [by destruct t|]. simpl. by destruct (ascii_dec a a). Qed.

Lemma filter_code_cell i c h :
  List.filter (String.prefix code_prefix) (cell_parts i c h) = ["Code:" ++ nl ++ code c].
Proof.
  unfold cell_parts. cbn [List.filter]. rewrite filter_code_tail.
  replace (String.prefix code_prefix (cell_header i c h)) with false by reflexivity.
  replace (String.prefix code_prefix ("Code:" ++ nl ++ code c)) with true
    by (symmetry; apply (prefix_app_self code_prefix (code c))).
  reflexivity.
Qed.

Lemma filter_header_cell i c h :
  List.filter (String.prefix header_prefix) (cell_parts i c h) = [cell_header i c h].
Proof.
  unfold cell_parts. cbn [List.filter]. rewrite filter_header_tail.
  replace (String.prefix header_prefix (cell_header i c h)) with true
    by (symmetry;
        change (cell_header i c h) with (header_prefix ++ (str_Z (Z.of_nat (i + 1)) ++ " (ID: "
          ++ cell_id c ++ ")" ++ marker c h ++ " ---"));
        apply prefix_app_self).
  replace (String.prefix header_prefix ("Code:" ++ nl ++ code c)) with false by reflexivity.
  reflexivity.
Qed.

Lemma filter_code_from i cells h :
  List.filter (String.prefix code_prefix) (context_parts_from i cells h) =
  map (fun c => "Code:" ++ nl ++ code c) cells.
Proof.
  revert i; induction cells as [|c cells IH]; intros i; [reflexivity|].
  cbn [context_parts_from]. rewrite List.filter_app, filter_code_cell, IH. reflexivity.
Qed.

Lemma filter_header_from i cells h :
  List.filter (String.prefix header_prefix) (context_parts_from i cells h) =
  map (fun ic => cell_header (fst ic) (snd ic) h) (combine (seq i (length cells)) cells).
Proof.
  revert i; induction cells as [|c cells IH]; intros i; [reflexivity|].
  cbn [context_parts_from]. rewrite List.filter_app, filter_header_cell, IH. reflexivity.
Qed.

(** Claim C4, refuted: a unit whose code is ["1"] is rendered as
    ["\n--- Cell 1 (ID: c1) ---\nCode:\n1"], in which its code occurs three
    times (in the position, in the id and as the code). *)
Lemma build_notebook_context_code_occurs_thrice :
  count_occ_str "1" (build_notebook_context [mkCell "c1" "1" None [] None] None) = 3.
Proof. vm_compute. reflexivity. Qed.

(** Claim C4 (as the code behaves).  The rendering is the newline join of
    the parts of the units in input order.  Among the parts, those that
    begin with ["Code:\n"] are exactly one per unit, in input order, each
    holding the unit's code verbatim; those that begin with
    ["\n--- Cell "] are exactly the section headers, in input order, the
    k-th carrying the position k (1-based) and the unit's id; and a
    header carries the error marker exactly when its unit's id is the
    highlighted id.  The code may occur as a substring elsewhere too. *)
Theorem build_notebook_context_sections (cells : list NotebookCell) (h : option string) :
  build_notebook_context cells h = join nl (context_parts cells h) /\
  List.filter (String.prefix ("Code:" ++ nl)) (context_parts cells h) =
    map (fun c => "Code:" ++ nl ++ code c) cells /\
  List.filter (String.prefix (nl ++ "--- Cell ")) (context_parts cells h) =
    map (fun ic => nl ++ "--- Cell " ++ str_Z (Z.of_nat (fst ic + 1)) ++ " (ID: "
                   ++ cell_id (snd ic) ++ ")" ++ marker (snd ic) h ++ " ---")
        (combine (seq 0 (length cells)) cells) /\
  (forall c, h = Some (cell_id c) -> marker c h = " <<< ERROR HERE") /\
  (forall c, h <> Some (cell_id c) -> marker c h = "").
Proof.
  split; [reflexivity|].
  split; [exact (filter_code_from 0 cells h)|].
  split; [exact (filter_header_from 0 cells h)|].
  split.
  - intros c ->. unfold marker. by rewrite String.eqb_refl.
  - intros c Hne. unfold marker. destruct h as [x|]; [|reflexivity].
    destruct (_ =? _)%string eqn:E; [|reflexivity]. apply String.eqb_eq in E. by rewrite E in Hne.
Qed.

End SerializerFacts.

Module DecoderFacts.
Import Decoder.

Lemma prefix_nil s : String.prefix EmptyString s = true.
Proof. by destruct s. Qed.

Lemma str_app_cons a x y : String a x ++ y = String a (x ++ y).
Proof. reflexivity. Qed.

Lemma str_app_nil_l y : EmptyString ++ y = y.
Proof. reflexivity. Qed.

Lemma str_app_assoc x y z : x ++ y ++ z = (x ++ y) ++ z.
Proof. induction x as [|a x IH]; [reflexivity|]. rewrite !str_app_cons. by rewrite IH. Qed.

Lemma str_length_app x y : String.length (x ++ y) = String.length x + String.length y.
Proof. induction x as [|a x IH]; [reflexivity|]. rewrite str_app_cons. simpl. by rewrite IH. Qed.

Lemma sdrop_nil n : sdrop n EmptyString = EmptyString.
Proof. by destruct n. Qed.

Lemma sdrop_app n x y : n <= String.length x -> sdrop n (x ++ y) = sdrop n x ++ y.
Proof.
  revert n; induction x as [|a x IH]; intros n Hn; simpl in Hn.
  - destruct n; [reflexivity|lia].
  - destruct n; [reflexivity|]. simpl. apply IH. lia.
Qed.

Lemma sdrop_length_app x y : sdrop (String.length x) (x ++ y) = y.
Proof. induction x as [|a x IH]; [reflexivity|exact IH]. Qed.

Lemma stake_length_app x y : stake (String.length x) (x ++ y) = x.
Proof. induction x as [|a x IH]; [reflexivity|]. rewrite str_app_cons. simpl. by rewrite IH. Qed.

Lemma sdrop_sdrop m g s : sdrop m (sdrop g s) = sdrop (m + g) s.
Proof.
  revert s; induction g as [|g IH]; intros s.
  - by rewrite Nat.add_0_r.
  - rewrite Nat.add_succ_r. destruct s as [|a s].
    + by rewrite !sdrop_nil.
    + apply IH.
Qed.

Lemma sdrop_length n s : String.length (sdrop n s) = String.length s - n.
Proof.
  revert s; induction n as [|n IH]; intros s; [simpl; lia|].
  destruct s as [|a s]; [reflexivity|]. apply IH.
Qed.

Lemma ws_len_le q a y :
  is_py_space a = false -> ws_prefix_len (q ++ String a y) <= String.length q.
Proof.
  intros Ha. induction q as [|b q IH]; simpl.
  - rewrite Ha. lia.
  - destruct (is_py_space b); lia.
Qed.

Lemma prefix_fence_json x : String.prefix fence_json x = true -> String.prefix fence x = true.
Proof.
  unfold fence, fence_json.
  destruct x as [|a [|b [|c x]]]; cbn [String.prefix]; try done;
  repeat (destruct (ascii_dec _ _); try done); by rewrite prefix_nil.
Qed.

Lemma close_back_false m t :
  (forall m', m' <= m -> String.prefix fence (sdrop m' t) = false) ->
  close_back m t = false.
Proof.
  induction m as [|m IH]; intros H; cbn [close_back].
  - rewrite H; [reflexivity|lia].
  - rewrite H by lia. apply IH. intros m' Hm. apply H. lia.
Qed.

Lemma lazy_group_found G g n r :
  g <= G -> G <= g + n ->
  (forall g', g <= g' < G -> close_at (sdrop g' r) = false) ->
  close_at (sdrop G r) = true ->
  lazy_group g n r = Some (stake G r).
Proof.
  revert g; induction n as [|n IH]; intros g H1 H2 Hno Hyes; simpl.
  - assert (g = G) as -> by lia. by rewrite Hyes.
  - destruct (Nat.eq_dec g G) as [->|Hne]; [by rewrite Hyes|].
    rewrite Hno by lia. apply IH; [lia|lia| |exact Hyes]. intros g' Hg'. apply Hno. lia.
Qed.

Lemma sdrop_past n s : String.length s < n -> sdrop n s = EmptyString.
Proof.
  intros Hn. assert (L := sdrop_length n s).
  destruct (sdrop n s); [reflexivity|simpl in L; lia].
Qed.

Lemma no_fence_of_check p : fence_free p = true -> no_fence p.
Proof.
  unfold fence_free. intros Hf i.
  destruct (Nat.le_gt_cases i (String.length p)) as [Hi|Hi].
  - rewrite forallb_forall in Hf.
    assert (Hin : In i (seq 0 (S (String.length p)))) by (apply in_seq; lia).
    specialize (Hf i Hin). by destruct (String.prefix fence (sdrop i p)).
  - by rewrite sdrop_past.
Qed.

Lemma no_fence_sdrop g p : no_fence p -> no_fence (sdrop g p).
Proof. intros H i. rewrite sdrop_sdrop. apply H. Qed.

Lemma search_from_none {A} (at_ : string -> option A) s :
  (forall i, at_ (sdrop i s) = None) -> forall n i, search_from at_ i n s = None.
Proof.
  intros H n. induction n as [|n IH]; intros i; simpl; rewrite H; [reflexivity|apply IH].
Qed.

(** A text without ["```"] has no fenced block. *)
Lemma fence_search_no_fence p : no_fence p -> fence_search p = None.
Proof.
  intros Hnf. unfold fence_search. apply search_from_none. intros i.
  unfold fence_at. destruct (String.prefix fence_json (sdrop i p)) eqn:E; [|reflexivity].
  apply prefix_fence_json in E. by rewrite Hnf in E.
Qed.

Lemma ws_prefix_len_nonspace b p' x :
  is_py_space b = false -> ws_prefix_len (String b p' ++ x) = 0.
Proof. intros Hb. rewrite str_app_cons. simpl. by rewrite Hb. Qed.

(** Scanning JSON text followed by JSON whitespace: the scanner consumes
    input, does not depend on its fuel once the fuel is large enough, and
    trailing whitespace is carried along in what remains. *)
Module JsonScan.
Import Json.


Lemma json_ws_cases c :
  is_json_ws c = true ->
  c = " "%char \/ c = ascii_of_nat 9 \/ c = ascii_of_nat 10 \/ c = ascii_of_nat 13.
Proof.
  intros H. destruct c as [b0 b1 b2 b3 b4 b5 b6 b7].
  destruct b0, b1, b2, b3, b4, b5, b6, b7; vm_compute in H; try discriminate;
    vm_compute; tauto.
Qed.

Ltac ws_case c H :=
  let E := fresh "E" in
  destruct (json_ws_cases c H) as [E|[E|[E|E]]]; subst c.

Lemma skip_ws_ws_app w y : json_space w = true -> skip_ws (w ++ y) = skip_ws y.
Proof.
  induction w as [|c w IH]; intros H; [reflexivity|].
  cbn [json_space] in H. apply andb_prop in H as [Hc Hw].
  rewrite str_app_cons. cbn [skip_ws]. rewrite Hc. by apply IH.
Qed.

Lemma skip_ws_space w : json_space w = true -> skip_ws w = EmptyString.
Proof.
  intros H. pose proof (skip_ws_ws_app w EmptyString H) as E.
  replace (w ++ EmptyString) with w in E; [exact E|].
  clear. induction w; [reflexivity|]. rewrite str_app_cons. by rewrite <- IHw.
Qed.

Lemma skip_ws_app_ws x w :
  json_space w = true ->
  skip_ws (x ++ w) = match skip_ws x with EmptyString => EmptyString | t => t ++ w end.
Proof.
  intros Hw. induction x as [|a x IH].
  - rewrite str_app_nil_l. by rewrite skip_ws_space.
  - rewrite str_app_cons. cbn [skip_ws]. destruct (is_json_ws a); [exact IH|reflexivity].
Qed.

Lemma skip_ws_length x : String.length (skip_ws x) <= String.length x.
Proof.
  induction x as [|a x IH]; [reflexivity|]. cbn [skip_ws].
  destruct (is_json_ws a); simpl; lia.
Qed.

Lemma str_app_nil_r x : x ++ EmptyString = x.
Proof. induction x; [reflexivity|]. rewrite str_app_cons. by rewrite IHx. Qed.

Lemma span_digits_app x w :
  json_space w = true ->
  span_digits (x ++ w) = (fst (span_digits x), snd (span_digits x) ++ w).
Proof.
  intros Hw. induction x as [|a x IH].
  - rewrite str_app_nil_l. destruct w as [|c w]; [reflexivity|].
    cbn [json_space] in Hw. apply andb_prop in Hw as [Hc _].
    ws_case c Hc; reflexivity.
  - rewrite str_app_cons. cbn [span_digits]. destruct (is_digit a); [|reflexivity].
    rewrite IH. destruct (span_digits x). reflexivity.
Qed.

Lemma span_digits_length x :
  String.length (fst (span_digits x)) + String.length (snd (span_digits x)) = String.length x.
Proof.
  induction x as [|a x IH]; [reflexivity|]. cbn [span_digits].
  destruct (is_digit a); [|reflexivity].
  destruct (span_digits x) as [d r]. simpl in *. lia.
Qed.


Definition sn_sign (s : string) : bool * string :=
  match s with
  | String a r => if Ascii.eqb a "-"%char then (true, r) else (false, s)
  | EmptyString => (false, s)
  end.

Definition sn_int (s1 : string) : option (string * string) :=
  match s1 with
  | String a r =>
      if Ascii.eqb a "0"%char then Some ("0", r)
      else if is_digit a then Some (span_digits s1) else None
  | EmptyString => None
  end.

Definition sn_frac (r : string) : string * string :=
  match r with
  | String a r' =>
      if Ascii.eqb a "."%char then
        let (d, r'') := span_digits r' in
        if String.eqb d "" then (EmptyString, r) else ("." ++ d, r'')
      else (EmptyString, r)
  | EmptyString => (EmptyString, r)
  end.

Definition sn_exp (r : string) : string * string :=
  match r with
  | String e r' =>
      if Ascii.eqb e "e"%char || Ascii.eqb e "E"%char then
        let '(sign, r2) :=
          match r' with
          | String c r2 =>
              if Ascii.eqb c "+"%char || Ascii.eqb c "-"%char
              then (String c EmptyString, r2) else (EmptyString, r')
          | EmptyString => (EmptyString, r')
          end in
        let (d, r3) := span_digits r2 in
        if String.eqb d "" then (EmptyString, r) else (String e (sign ++ d), r3)
      else (EmptyString, r)
  | EmptyString => (EmptyString, r)
  end.

Lemma scan_number_eq s :
  scan_number s =
  let '(neg, s1) := sn_sign s in
  match sn_int s1 with
  | None => None
  | Some (idigits, r) =>
      let '(frac, r) := sn_frac r in
      let '(exp, r) := sn_exp r in
      let int_lexeme := (if neg then "-" else "") ++ idigits in
      if String.eqb frac "" && String.eqb exp "" then
        Some (PInt ((if neg then -1 else 1) * digits_value 0 idigits)%Z, r)
      else Some (PFloat (int_lexeme ++ frac ++ exp), r)
  end.
Proof. reflexivity. Qed.

Lemma ws_head w : json_space w = true ->
  w = EmptyString \/ exists c w', w = String c w' /\ is_json_ws c = true.
Proof.
  destruct w as [|c w']; [by left|]. intros H. right. exists c, w'. split; [reflexivity|].
  cbn [json_space] in H. by apply andb_prop in H as [H _].
Qed.

Lemma sn_sign_app x w : json_space w = true ->
  sn_sign (x ++ w) = (fst (sn_sign x), snd (sn_sign x) ++ w).
Proof.
  intros Hw. destruct x as [|a x].
  - rewrite str_app_nil_l. destruct (ws_head w Hw) as [->|(c & w' & -> & Hc)]; [reflexivity|].
    ws_case c Hc; reflexivity.
  - rewrite str_app_cons. cbn [sn_sign]. destruct (Ascii.eqb a "-"%char); reflexivity.
Qed.

Lemma sn_int_app s1 w : json_space w = true ->
  sn_int (s1 ++ w) = option_map (fun dr => (fst dr, snd dr ++ w)) (sn_int s1).
Proof.
  intros Hw. destruct s1 as [|a s1].
  - rewrite str_app_nil_l. destruct (ws_head w Hw) as [->|(c & w' & -> & Hc)]; [reflexivity|].
    ws_case c Hc; reflexivity.
  - rewrite str_app_cons. cbn [sn_int]. destruct (Ascii.eqb a "0"%char); [reflexivity|].
    destruct (is_digit a) eqn:Ed; [|reflexivity]. cbn [option_map].
    rewrite <- str_app_cons. rewrite span_digits_app by exact Hw. reflexivity.
Qed.

Lemma sn_frac_app r w : json_space w = true ->
  sn_frac (r ++ w) = (fst (sn_frac r), snd (sn_frac r) ++ w).
Proof.
  intros Hw. destruct r as [|a r].
  - rewrite str_app_nil_l. destruct (ws_head w Hw) as [->|(c & w' & -> & Hc)]; [reflexivity|].
    ws_case c Hc; reflexivity.
  - rewrite str_app_cons. cbn [sn_frac]. destruct (Ascii.eqb a "."%char); [|reflexivity].
    rewrite span_digits_app by exact Hw. destruct (span_digits r) as [d r'']. cbn [fst snd].
    destruct (String.eqb d ""); reflexivity.
Qed.

Lemma sn_exp_app r w : json_space w = true ->
  sn_exp (r ++ w) = (fst (sn_exp r), snd (sn_exp r) ++ w).
Proof.
  intros Hw. destruct r as [|e r].
  - rewrite str_app_nil_l. destruct (ws_head w Hw) as [->|(c & w' & -> & Hc)]; [reflexivity|].
    ws_case c Hc; reflexivity.
  - rewrite str_app_cons. cbn [sn_exp]. destruct (Ascii.eqb e "e"%char || Ascii.eqb e "E"%char);
      [|reflexivity].
    assert (Hsg : forall r', (match r' ++ w with
              | String c r2 => if Ascii.eqb c "+"%char || Ascii.eqb c "-"%char
                               then (String c EmptyString, r2) else (EmptyString, r' ++ w)
              | EmptyString => (EmptyString, r' ++ w) end) =
            (fst (match r' with
              | String c r2 => if Ascii.eqb c "+"%char || Ascii.eqb c "-"%char
                               then (String c EmptyString, r2) else (EmptyString, r')
              | EmptyString => (EmptyString, r') end),
             snd (match r' with
              | String c r2 => if Ascii.eqb c "+"%char || Ascii.eqb c "-"%char
                               then (String c EmptyString, r2) else (EmptyString, r')
              | EmptyString => (EmptyString, r') end) ++ w)).
    { intros r'. destruct r' as [|c r2].
      - rewrite str_app_nil_l. destruct (ws_head w Hw) as [->|(c & w' & -> & Hc)]; [reflexivity|].
        ws_case c Hc; reflexivity.
      - rewrite str_app_cons. destruct (Ascii.eqb c "+"%char || Ascii.eqb c "-"%char); reflexivity. }
    rewrite Hsg.
    destruct (match r with
              | String c r2 => if Ascii.eqb c "+"%char || Ascii.eqb c "-"%char
                               then (String c EmptyString, r2) else (EmptyString, r)
              | EmptyString => (EmptyString, r) end) as [sign r2]. cbn [fst snd].
    rewrite span_digits_app by exact Hw. destruct (span_digits r2) as [d r3]. cbn [fst snd].
    destruct (String.eqb d ""); reflexivity.
Qed.

Lemma scan_number_app x w : json_space w = true ->
  scan_number (x ++ w) = option_map (fun vr => (fst vr, snd vr ++ w)) (scan_number x).
Proof.
  intros Hw. rewrite !scan_number_eq, sn_sign_app by exact Hw.
  destruct (sn_sign x) as [neg s1]. cbn [fst snd]. rewrite sn_int_app by exact Hw.
  destruct (sn_int s1) as [[idigits r]|]; [|reflexivity]. cbn [option_map fst snd].
  rewrite sn_frac_app by exact Hw. destruct (sn_frac r) as [frac r2]. cbn [fst snd].
  rewrite sn_exp_app by exact Hw. destruct (sn_exp r2) as [exp r3]. cbn [fst snd].
  destruct (String.eqb frac "" && String.eqb exp ""); reflexivity.
Qed.

Lemma sn_sign_length x : String.length (snd (sn_sign x)) <= String.length x.
Proof. destruct x as [|a x]; [reflexivity|]. cbn [sn_sign]. destruct (Ascii.eqb a "-"%char); simpl; lia. Qed.

Lemma sn_int_length s1 d r : sn_int s1 = Some (d, r) -> String.length r < String.length s1.
Proof.
  destruct s1 as [|a s1]; [discriminate|]. cbn [sn_int].
  destruct (Ascii.eqb a "0"%char); [intros H; injection H as <- <-; simpl; lia|].
  destruct (is_digit a) eqn:Ed; [|discriminate]. intros H. injection H as H.
  pose proof (span_digits_length (String a s1)) as L. cbn [span_digits] in L, H.
  rewrite Ed in L, H. destruct (span_digits s1) as [d' r'].
  injection H as <- <-. simpl in *. lia.
Qed.

Lemma sn_frac_length r : String.length (snd (sn_frac r)) <= String.length r.
Proof.
  destruct r as [|a r]; [reflexivity|]. cbn [sn_frac]. destruct (Ascii.eqb a "."%char); [|reflexivity].
  pose proof (span_digits_length r) as L. destruct (span_digits r) as [d r'']. cbn [fst snd] in *.
  destruct (String.eqb d ""); simpl; lia.
Qed.

Lemma sn_exp_length r : String.length (snd (sn_exp r)) <= String.length r.
Proof.
  destruct r as [|e r]; [reflexivity|]. cbn [sn_exp].
  destruct (Ascii.eqb e "e"%char || Ascii.eqb e "E"%char); [|reflexivity].
  assert (Hs : String.length (snd (match r with
              | String c r2 => if Ascii.eqb c "+"%char || Ascii.eqb c "-"%char
                               then (String c EmptyString, r2) else (EmptyString, r)
              | EmptyString => (EmptyString, r) end)) <= String.length r).
  { destruct r as [|c r2]; [reflexivity|]. destruct (Ascii.eqb c "+"%char || Ascii.eqb c "-"%char); simpl; lia. }
  destruct (match r with
              | String c r2 => if Ascii.eqb c "+"%char || Ascii.eqb c "-"%char
                               then (String c EmptyString, r2) else (EmptyString, r)
              | EmptyString => (EmptyString, r) end) as [sign r2]. cbn [snd] in Hs.
  pose proof (span_digits_length r2) as L. destruct (span_digits r2) as [d r3]. cbn [fst snd] in *.
  destruct (String.eqb d ""); simpl; lia.
Qed.

Lemma scan_number_length x v r : scan_number x = Some (v, r) -> String.length r < String.length x.
Proof.
  rewrite scan_number_eq. pose proof (sn_sign_length x) as L1.
  destruct (sn_sign x) as [neg s1]. cbn [snd] in L1.
  destruct (sn_int s1) as [[idigits r1]|] eqn:Ei; [|discriminate].
  apply sn_int_length in Ei.
  pose proof (sn_frac_length r1) as L2. destruct (sn_frac r1) as [frac r2]. cbn [snd] in L2.
  pose proof (sn_exp_length r2) as L3. destruct (sn_exp r2) as [exp r3]. cbn [snd] in L3.
  destruct (String.eqb frac "" && String.eqb exp ""); intros H; injection H as _ <-; lia.
Qed.


Lemma hex_ws c : is_json_ws c = true -> hex_value c = None.
Proof. intros H. ws_case c H; reflexivity. Qed.

Lemma escape_ws c : is_json_ws c = true -> escape_char c = None /\ Ascii.eqb c "u"%char = false.
Proof. intros H. ws_case c H; split; reflexivity. Qed.

Lemma scan_string_ws w : json_space w = true -> exists m, scan_string w = inr m.
Proof.
  induction w as [|c w IH]; intros H; [eexists; reflexivity|].
  cbn [json_space] in H. apply andb_prop in H as [Hc Hw].
  ws_case c Hc; cbn [scan_string]; try (eexists; reflexivity).
  destruct (IH Hw) as [m Hm]. cbn. rewrite Hm. eexists; reflexivity.
Qed.

Definition str_rel (w : string) (x y : string * string + string) : Prop :=
  match x with
  | inl (str, rest) => y = inl (str, rest ++ w)
  | inr _ => exists m, y = inr m
  end.

Lemma str_rel_cons w a x y : str_rel w x y -> str_rel w (cons_str a x) (cons_str a y).
Proof.
  destruct x as [[str rest]|m]; cbn [str_rel cons_str].
  - intros ->. reflexivity.
  - intros [m' ->]. eexists; reflexivity.
Qed.

Lemma scan_string_app_n n r w : String.length r <= n -> json_space w = true ->
  str_rel w (scan_string r) (scan_string (r ++ w)).
Proof.
  revert r; induction n as [|n IH]; intros r Hl Hw.
  { destruct r; [|simpl in Hl; lia]. rewrite str_app_nil_l. apply scan_string_ws, Hw. }
  destruct r as [|a r].
  { rewrite str_app_nil_l. apply scan_string_ws, Hw. }
  simpl in Hl. rewrite str_app_cons. cbn [scan_string].
  destruct (Ascii.eqb a dq_char); [reflexivity|].
  destruct (Ascii.eqb a "\"%char).
  - destruct r as [|e r].
    + rewrite str_app_nil_l. destruct (ws_head w Hw) as [->|(c & w' & -> & Hc)];
        [eexists; reflexivity|].
      destruct (escape_ws c Hc) as [E1 E2]. rewrite E1, E2. eexists; reflexivity.
    + rewrite str_app_cons. destruct (escape_char e) as [ch|].
      * apply str_rel_cons. apply IH; [simpl in Hl; lia|exact Hw].
      * destruct (Ascii.eqb e "u"%char); [|eexists; reflexivity].
        destruct r as [|h1 [|h2 [|h3 [|h4 r]]]].
        -- rewrite str_app_nil_l. cbn [str_rel].
           destruct w as [|c1 [|c2 [|c3 [|c4 w]]]]; try (eexists; reflexivity).
           cbn [json_space] in Hw. rewrite !andb_true_iff in Hw.
           unfold hex4. rewrite (hex_ws c1) by tauto. eexists; reflexivity.
        -- rewrite str_app_cons, str_app_nil_l. cbn [str_rel].
           destruct w as [|c1 [|c2 [|c3 w]]]; try (eexists; reflexivity).
           cbn [json_space] in Hw. rewrite !andb_true_iff in Hw.
           unfold hex4. rewrite (hex_ws c1) by tauto.
           destruct (hex_value h1); eexists; reflexivity.
        -- rewrite !str_app_cons, str_app_nil_l. cbn [str_rel].
           destruct w as [|c1 [|c2 w]]; try (eexists; reflexivity).
           cbn [json_space] in Hw. rewrite !andb_true_iff in Hw.
           unfold hex4. rewrite (hex_ws c1) by tauto.
           destruct (hex_value h1), (hex_value h2); eexists; reflexivity.
        -- rewrite !str_app_cons, str_app_nil_l. cbn [str_rel].
           destruct w as [|c1 w]; try (eexists; reflexivity).
           cbn [json_space] in Hw. rewrite !andb_true_iff in Hw.
           unfold hex4. rewrite (hex_ws c1) by tauto.
           destruct (hex_value h1), (hex_value h2), (hex_value h3); eexists; reflexivity.
        -- rewrite !str_app_cons. destruct (hex4 h1 h2 h3 h4) as [k|]; [|eexists; reflexivity].
           destruct (Nat.ltb k 256); [|eexists; reflexivity].
           apply str_rel_cons. apply IH; [simpl in Hl; lia|exact Hw].
  - destruct (Nat.ltb (nat_of_ascii a) 32); [eexists; reflexivity|].
    apply str_rel_cons. apply IH; [lia|exact Hw].
Qed.

Lemma scan_string_app r w : json_space w = true ->
  str_rel w (scan_string r) (scan_string (r ++ w)).
Proof. apply (scan_string_app_n (String.length r)). lia. Qed.

Lemma cons_str_inl a x str rest :
  cons_str a x = inl (str, rest) -> exists str', x = inl (str', rest).
Proof. destruct x as [[s' r']|m]; cbn; [intros H; injection H as _ <-; eauto|discriminate]. Qed.

Lemma scan_string_length_n n r str rest : String.length r <= n ->
  scan_string r = inl (str, rest) -> String.length rest < String.length r.
Proof.
  revert r str; induction n as [|n IH]; intros r str Hl.
  { destruct r; [discriminate|simpl in Hl; lia]. }
  destruct r as [|a r]; [discriminate|]. simpl in Hl. cbn [scan_string].
  destruct (Ascii.eqb a dq_char); [intros H; injection H as _ <-; simpl; lia|].
  destruct (Ascii.eqb a "\"%char).
  - destruct r as [|e r]; [discriminate|].
    destruct (escape_char e) as [ch|].
    + intros H. apply cons_str_inl in H as [str' H]. apply IH in H; [simpl; lia|simpl in Hl; lia].
    + destruct (Ascii.eqb e "u"%char); [|discriminate].
      destruct r as [|h1 [|h2 [|h3 [|h4 r]]]]; try discriminate.
      destruct (hex4 h1 h2 h3 h4) as [k|]; [|discriminate].
      destruct (Nat.ltb k 256); [|discriminate].
      intros H. apply cons_str_inl in H as [str' H]. apply IH in H; [simpl; lia|simpl in Hl; lia].
  - destruct (Nat.ltb (nat_of_ascii a) 32); [discriminate|].
    intros H. apply cons_str_inl in H as [str' H]. apply IH in H; [simpl; lia|lia].
Qed.

Lemma scan_string_length r str rest :
  scan_string r = inl (str, rest) -> String.length rest < String.length r.
Proof. apply (scan_string_length_n (String.length r)). lia. Qed.


Fixpoint no_json_ws (p : string) : bool :=
  match p with
  | EmptyString => true
  | String a p' => negb (is_json_ws a) && no_json_ws p'
  end.

Lemma prefix_ws_app pat x w : json_space w = true -> no_json_ws pat = true ->
  String.prefix pat (x ++ w) = String.prefix pat x.
Proof.
  intros Hw. revert pat; induction x as [|a x IH]; intros pat Hp.
  - rewrite str_app_nil_l. destruct pat as [|p pat]; [destruct w; reflexivity|].
    destruct w as [|c w]; [reflexivity|]. cbn [String.prefix].
    cbn [json_space no_json_ws] in Hw, Hp. apply andb_prop in Hw as [Hc _].
    apply andb_prop in Hp as [Hpc _].
    destruct (ascii_dec p c) as [->|]; [|reflexivity]. by rewrite Hc in Hpc.
  - rewrite str_app_cons. destruct pat as [|p pat]; [destruct w; reflexivity|]. cbn [String.prefix].
    destruct (ascii_dec p a); [|reflexivity]. apply IH.
    cbn [no_json_ws] in Hp. by apply andb_prop in Hp as [_ Hp].
Qed.

Lemma prefix_length pat x : String.prefix pat x = true -> String.length pat <= String.length x.
Proof.
  revert pat; induction x as [|a x IH]; intros pat.
  - destruct pat; [simpl; lia|discriminate].
  - destruct pat as [|p pat]; [simpl; lia|]. cbn [String.prefix].
    destruct (ascii_dec p a); [|discriminate]. intros H. apply IH in H. simpl. lia.
Qed.

Definition val_rel {A} (w : string) (x y : A * string + string) : Prop :=
  match x with
  | inl (v, r) => y = inl (v, r ++ w)
  | inr _ => exists m, y = inr m
  end.

Lemma scan_value_nil f : exists m, scan_value f EmptyString = inr m.
Proof. destruct f; eexists; reflexivity. Qed.

Lemma scan_members_nil f acc : exists m, scan_members f EmptyString acc = inr m.
Proof. destruct f; eexists; reflexivity. Qed.

Lemma scan_elems_nil f acc : exists m, scan_elems f EmptyString acc = inr m.
Proof.
  destruct f as [|f]; [eexists; reflexivity|]. cbn [scan_elems].
  destruct (scan_value_nil f) as [m ->]. eexists; reflexivity.
Qed.

Lemma scan_value_ws f w : json_space w = true -> exists m, scan_value f w = inr m.
Proof.
  intros Hw. destruct f as [|f]; [eexists; reflexivity|].
  destruct (ws_head w Hw) as [->|(c & w' & -> & Hc)]; [eexists; reflexivity|].
  ws_case c Hc; eexists; reflexivity.
Qed.

Ltac lit_case Hw :=
  rewrite prefix_ws_app by (exact Hw || reflexivity);
  match goal with
  | |- context [if String.prefix ?pat ?x then _ else _] =>
      let Ep := fresh "Ep" in
      destruct (String.prefix pat x) eqn:Ep;
      [cbn [val_rel]; rewrite sdrop_app by (apply prefix_length in Ep; simpl in *; lia);
       reflexivity|]
  end.

Lemma scan_app w : json_space w = true -> forall f,
  (forall s, val_rel w (scan_value f s) (scan_value f (s ++ w))) /\
  (forall s acc, val_rel w (scan_members f s acc) (scan_members f (s ++ w) acc)) /\
  (forall s acc, val_rel w (scan_elems f s acc) (scan_elems f (s ++ w) acc)).
Proof.
  intros Hw f. induction f as [|f (IHv & IHm & IHe)].
  { split; [|split]; intros; cbn; eexists; reflexivity. }
  split; [|split].
  - intros s. destruct s as [|a r].
    { rewrite str_app_nil_l. exact (scan_value_ws (S f) w Hw). }
    rewrite str_app_cons. cbn [scan_value].
    destruct (Ascii.eqb a dq_char).
    { pose proof (scan_string_app r w Hw) as Hs.
      destruct (scan_string r) as [[str r']|m]; cbn [str_rel] in Hs.
      - rewrite Hs. reflexivity.
      - destruct Hs as [m' ->]. eexists; reflexivity. }
    destruct (Ascii.eqb a "{"%char).
    { rewrite (skip_ws_app_ws r w Hw). destruct (skip_ws r) as [|b r'];
        [eexists; reflexivity|].
      rewrite str_app_cons. destruct (Ascii.eqb b "}"%char); [reflexivity|].
      destruct (Ascii.eqb b dq_char); [|eexists; reflexivity].
      rewrite <- str_app_cons. apply IHm. }
    destruct (Ascii.eqb a "["%char).
    { rewrite (skip_ws_app_ws r w Hw). destruct (skip_ws r) as [|b r'].
      - destruct (scan_elems_nil f []) as [m Hm]. rewrite Hm. eexists; reflexivity.
      - rewrite str_app_cons. destruct (Ascii.eqb b "]"%char); [reflexivity|].
        rewrite <- str_app_cons. apply IHe. }
    rewrite <- (str_app_cons a r w).
    lit_case Hw. lit_case Hw. lit_case Hw.
    rewrite scan_number_app by exact Hw.
    destruct (scan_number (String a r)) as [[v r']|]; [reflexivity|]. cbn [option_map].
    lit_case Hw. lit_case Hw. lit_case Hw.
    eexists; reflexivity.
  - intros s acc. destruct s as [|q r].
    { rewrite str_app_nil_l. cbn [val_rel scan_members].
      destruct (ws_head w Hw) as [->|(c & w' & -> & Hc)]; [eexists; reflexivity|].
      ws_case c Hc; eexists; reflexivity. }
    rewrite str_app_cons. cbn [scan_members].
    destruct (negb (Ascii.eqb q dq_char)); [eexists; reflexivity|].
    pose proof (scan_string_app r w Hw) as Hs.
    destruct (scan_string r) as [[key r1]|m]; cbn [str_rel] in Hs;
      [|destruct Hs as [m' ->]; eexists; reflexivity].
    rewrite Hs. rewrite (skip_ws_app_ws r1 w Hw).
    destruct (skip_ws r1) as [|c r3]; [eexists; reflexivity|].
    rewrite str_app_cons. destruct (negb (Ascii.eqb c ":"%char)); [eexists; reflexivity|].
    rewrite (skip_ws_app_ws r3 w Hw). destruct (skip_ws r3) as [|b r3'].
    { destruct (scan_value_nil f) as [m Hm]. rewrite Hm. eexists; reflexivity. }
    pose proof (IHv (String b r3')) as Hv.
    destruct (scan_value f (String b r3')) as [[v r4]|m]; cbn [val_rel] in Hv;
      [|destruct Hv as [m' ->]; eexists; reflexivity].
    rewrite Hv. rewrite (skip_ws_app_ws r4 w Hw).
    destruct (skip_ws r4) as [|d r6]; [eexists; reflexivity|].
    rewrite str_app_cons. destruct (Ascii.eqb d "}"%char); [reflexivity|].
    destruct (Ascii.eqb d ","%char); [|eexists; reflexivity].
    rewrite (skip_ws_app_ws r6 w Hw). destruct (skip_ws r6) as [|e r7].
    { destruct (scan_members_nil f (dict_set key v acc)) as [m Hm]. rewrite Hm.
      eexists; reflexivity. }
    apply IHm.
  - intros s acc. cbn [scan_elems]. pose proof (IHv s) as Hv.
    destruct (scan_value f s) as [[v r]|m]; cbn [val_rel] in Hv;
      [|destruct Hv as [m' ->]; eexists; reflexivity].
    rewrite Hv. rewrite (skip_ws_app_ws r w Hw).
    destruct (skip_ws r) as [|d r']; [eexists; reflexivity|].
    rewrite str_app_cons. destruct (Ascii.eqb d "]"%char); [reflexivity|].
    destruct (Ascii.eqb d ","%char); [|eexists; reflexivity].
    rewrite (skip_ws_app_ws r' w Hw). destruct (skip_ws r') as [|e r''].
    { destruct (scan_elems_nil f (acc ++ [v])%list) as [m Hm]. rewrite Hm.
      eexists; reflexivity. }
    apply IHe.
Qed.


Ltac lit_len :=
  match goal with
  | |- context [if String.prefix ?pat ?x then inl (_, sdrop ?n _) else _] =>
      let Ep := fresh "Ep" in
      destruct (String.prefix pat x) eqn:Ep;
      [let H := fresh in intros H;
       match goal with |- String.length ?r < _ => replace r with (sdrop n x) by congruence end;
       rewrite sdrop_length; cbn [String.length]; lia|]
  end.

Lemma scan_length f :
  (forall s v r, scan_value f s = inl (v, r) -> String.length r < String.length s) /\
  (forall s acc v r, scan_members f s acc = inl (v, r) -> String.length r < String.length s) /\
  (forall s acc v r, scan_elems f s acc = inl (v, r) -> String.length r < String.length s).
Proof.
  induction f as [|f (IHv & IHm & IHe)].
  { split; [|split]; intros; discriminate. }
  split; [|split].
  - intros s v r. destruct s as [|a r0]; [discriminate|]. cbn [scan_value].
    pose proof (skip_ws_length r0) as L0.
    destruct (Ascii.eqb a dq_char).
    { destruct (scan_string r0) as [[str r']|m] eqn:E; [|discriminate].
      intros H; injection H as _ <-. apply scan_string_length in E.
      cbn [String.length]; lia. }
    destruct (Ascii.eqb a "{"%char).
    { destruct (skip_ws r0) as [|b r'] eqn:Esk; [discriminate|].
      cbn [String.length] in L0 |- *.
      destruct (Ascii.eqb b "}"%char); [intros H; injection H as _ <-; lia|].
      destruct (Ascii.eqb b dq_char); [|discriminate].
      intros H; apply IHm in H; cbn [String.length] in H; lia. }
    destruct (Ascii.eqb a "["%char).
    { destruct (skip_ws r0) as [|b r'] eqn:Esk.
      - intros H; apply IHe in H; cbn [String.length] in H; lia.
      - cbn [String.length] in L0 |- *.
        destruct (Ascii.eqb b "]"%char); [intros H; injection H as _ <-; lia|].
        intros H; apply IHe in H; cbn [String.length] in H; lia. }
    lit_len. lit_len. lit_len.
    destruct (scan_number (String a r0)) as [[v' r']|] eqn:En.
    { intros H; injection H as _ <-. exact (scan_number_length _ _ _ En). }
    lit_len. lit_len. lit_len. discriminate.
  - intros s acc v r. destruct s as [|q r0]; [discriminate|]. cbn [scan_members].
    destruct (negb (Ascii.eqb q dq_char)); [discriminate|].
    destruct (scan_string r0) as [[key r1]|m] eqn:Es; [|discriminate].
    apply scan_string_length in Es. pose proof (skip_ws_length r1) as L1.
    destruct (skip_ws r1) as [|c r3]; [discriminate|].
    destruct (negb (Ascii.eqb c ":"%char)); [discriminate|].
    pose proof (skip_ws_length r3) as L3.
    destruct (scan_value f (skip_ws r3)) as [[v' r4]|m] eqn:Ev; [|discriminate].
    apply IHv in Ev. pose proof (skip_ws_length r4) as L4.
    destruct (skip_ws r4) as [|d r6]; [discriminate|].
    cbn [String.length] in *.
    destruct (Ascii.eqb d "}"%char); [intros H; injection H as _ <-; lia|].
    destruct (Ascii.eqb d ","%char); [|discriminate].
    pose proof (skip_ws_length r6) as L6.
    intros H; apply IHm in H; lia.
  - intros s acc v r. cbn [scan_elems].
    destruct (scan_value f s) as [[v' r1]|m] eqn:Ev; [|discriminate].
    apply IHv in Ev. pose proof (skip_ws_length r1) as L1.
    destruct (skip_ws r1) as [|d r']; [discriminate|].
    cbn [String.length] in *.
    destruct (Ascii.eqb d "]"%char); [intros H; injection H as _ <-; lia|].
    destruct (Ascii.eqb d ","%char); [|discriminate].
    pose proof (skip_ws_length r') as L'.
    intros H; apply IHe in H; lia.
Qed.

Lemma scan_fuel f :
  (forall s f', 2 * String.length s < f -> f <= f' -> scan_value f s = scan_value f' s) /\
  (forall s acc f', 2 * String.length s + 1 < f -> f <= f' ->
     scan_members f s acc = scan_members f' s acc) /\
  (forall s acc f', 2 * String.length s + 1 < f -> f <= f' ->
     scan_elems f s acc = scan_elems f' s acc).
Proof.
  induction f as [|f (IHv & IHm & IHe)].
  { split; [|split]; intros; lia. }
  split; [|split].
  - intros s f' Hf Hf'. destruct f' as [|f'']; [lia|].
    destruct s as [|a r0]; [reflexivity|]. cbn [String.length] in Hf.
    pose proof (skip_ws_length r0) as L0. cbn [scan_value].
    rewrite (IHm (skip_ws r0) [] f''), (IHe (skip_ws r0) [] f''),
      (IHe EmptyString [] f'') by (cbn [String.length]; lia).
    reflexivity.
  - intros s acc f' Hf Hf'. destruct f' as [|f'']; [lia|].
    destruct s as [|q r0]; [reflexivity|]. cbn [String.length] in Hf. cbn [scan_members].
    destruct (negb (Ascii.eqb q dq_char)); [reflexivity|].
    destruct (scan_string r0) as [[key r1]|m] eqn:Es; [|reflexivity].
    apply scan_string_length in Es. pose proof (skip_ws_length r1) as L1.
    destruct (skip_ws r1) as [|c r3]; [reflexivity|].
    destruct (negb (Ascii.eqb c ":"%char)); [reflexivity|].
    pose proof (skip_ws_length r3) as L3. cbn [String.length] in *.
    rewrite (IHv (skip_ws r3) f'') by lia.
    destruct (scan_value f'' (skip_ws r3)) as [[v r4]|m] eqn:Ev; [|reflexivity].
    apply (proj1 (scan_length f'')) in Ev. pose proof (skip_ws_length r4) as L4.
    destruct (skip_ws r4) as [|d r6]; [reflexivity|].
    destruct (Ascii.eqb d "}"%char); [reflexivity|].
    destruct (Ascii.eqb d ","%char); [|reflexivity].
    pose proof (skip_ws_length r6) as L6. cbn [String.length] in *.
    apply IHm; lia.
  - intros s acc f' Hf Hf'. destruct f' as [|f'']; [lia|]. cbn [scan_elems].
    rewrite (IHv s f'') by lia.
    destruct (scan_value f'' s) as [[v r]|m] eqn:Ev; [|reflexivity].
    apply (proj1 (scan_length f'')) in Ev. pose proof (skip_ws_length r) as L.
    destruct (skip_ws r) as [|d r']; [reflexivity|].
    destruct (Ascii.eqb d "]"%char); [reflexivity|].
    destruct (Ascii.eqb d ","%char); [|reflexivity].
    pose proof (skip_ws_length r') as L'. cbn [String.length] in *.
    apply IHe; lia.
Qed.


Lemma json_loads_ws_around w1 core w2 : json_space w1 = true -> json_space w2 = true ->
  match json_loads core with
  | PyOk v => json_loads (w1 ++ core ++ w2) = PyOk v
  | PyErr _ => exists e, json_loads (w1 ++ core ++ w2) = PyErr e
  end.
Proof.
  intros H1 H2. unfold json_loads.
  rewrite (skip_ws_ws_app w1 _ H1), (skip_ws_app_ws core w2 H2).
  pose proof (skip_ws_length core) as L.
  rewrite !str_length_app.
  destruct (skip_ws core) as [|a s'] eqn:Es.
  { destruct (scan_value_nil (2 * String.length core + 2)) as [m Hm]. rewrite Hm.
    destruct (scan_value_nil (2 * (String.length w1 + (String.length core + String.length w2)) + 2))
      as [m' Hm'].
    rewrite Hm'. eexists; reflexivity. }
  rewrite (proj1 (scan_fuel (2 * String.length core + 2)) (String a s')
             (2 * (String.length w1 + (String.length core + String.length w2)) + 2))
    by lia.
  pose proof (proj1 (scan_app w2 H2 (2 * (String.length w1 + (String.length core + String.length w2)) + 2))
                (String a s')) as Hr.
  destruct (scan_value _ (String a s')) as [[v r]|m]; cbn [val_rel] in Hr.
  - rewrite Hr. rewrite (skip_ws_app_ws r w2 H2).
    destruct (skip_ws r) as [|b r']; [reflexivity|]. eexists; reflexivity.
  - destruct Hr as [m' Hm']. rewrite Hm'. eexists; reflexivity.
Qed.

End JsonScan.

Lemma prefix_app_mono pat x y : String.prefix pat x = true -> String.prefix pat (x ++ y) = true.
Proof.
  revert pat; induction x as [|a x IH]; intros pat.
  - destruct pat; [intros; apply prefix_nil|discriminate].
  - destruct pat as [|p pat]; [intros; apply prefix_nil|]. rewrite str_app_cons.
    cbn [String.prefix]. destruct (ascii_dec p a); [apply IH|discriminate].
Qed.

Lemma sdrop_add_app x k y : sdrop (String.length x + k) (x ++ y) = sdrop k y.
Proof. induction x as [|a x IH]; [reflexivity|exact IH]. Qed.

Lemma stake_app n x y : n <= String.length x -> stake n (x ++ y) = stake n x.
Proof.
  revert n; induction x as [|a x IH]; intros n Hn; simpl in Hn.
  - destruct n; [reflexivity|lia].
  - destruct n; [reflexivity|]. rewrite str_app_cons. cbn [stake]. f_equal. apply IH. lia.
Qed.

Lemma no_fence_mid w1 core w2 : no_fence (w1 ++ core ++ w2) -> no_fence core.
Proof.
  intros H i. destruct (Nat.le_gt_cases i (String.length core)) as [Hi|Hi].
  - destruct (String.prefix fence (sdrop i core)) eqn:E; [|reflexivity].
    apply (prefix_app_mono _ _ w2) in E. rewrite <- sdrop_app in E by exact Hi.
    rewrite <- (sdrop_add_app w1 i) in E. by rewrite H in E.
  - by rewrite sdrop_past.
Qed.

Lemma ws_prefix_len_app u x :
  py_space_only u = true -> ws_prefix_len (u ++ x) = String.length u + ws_prefix_len x.
Proof.
  induction u as [|a u IH]; intros H; [reflexivity|].
  cbn [py_space_only] in H. apply andb_prop in H as [Ha Hu].
  rewrite str_app_cons. cbn [ws_prefix_len String.length]. rewrite Ha. by rewrite IH.
Qed.

Lemma space_not_tick c : is_py_space c = true -> Ascii.eqb c "`"%char = false.
Proof.
  intros H. destruct (Ascii.eqb_spec c "`"%char) as [->|]; [discriminate|reflexivity].
Qed.

(** A non-empty [y] without ["```"] at its head, followed by a whitespace
    character, has no ["```"] at its head either. *)
Lemma prefix_fence_follow y c z :
  y <> EmptyString -> String.prefix fence y = false -> is_py_space c = true ->
  String.prefix fence (y ++ String c z) = false.
Proof.
  intros Hne Hy Hc. unfold fence in *.
  assert (Hc' : c <> "`"%char) by (intros ->; discriminate).
  destruct y as [|a [|b [|d y]]]; [done| | |].
  - rewrite str_app_cons, str_app_nil_l. cbn [String.prefix].
    destruct (ascii_dec _ a); [|reflexivity].
    destruct (ascii_dec _ c); [congruence|reflexivity].
  - rewrite !str_app_cons, str_app_nil_l. cbn [String.prefix].
    destruct (ascii_dec _ a); [|reflexivity].
    destruct (ascii_dec _ b); [|reflexivity].
    destruct (ascii_dec _ c); [congruence|reflexivity].
  - rewrite !str_app_cons. revert Hy. cbn [String.prefix].
    destruct (ascii_dec _ a); [|reflexivity].
    destruct (ascii_dec _ b); [|reflexivity].
    destruct (ascii_dec _ d); [|reflexivity].
    by rewrite !prefix_nil.
Qed.

Lemma close_at_inside_sp q a c z :
  is_py_space a = false -> is_py_space c = true -> no_fence (q ++ String a EmptyString) ->
  close_at ((q ++ String a EmptyString) ++ String c z) = false.
Proof.
  intros Ha Hc Hnf. unfold close_at. apply close_back_false.
  intros m Hm.
  assert (Hle : ws_prefix_len (q ++ String a (String c z)) <= String.length q)
    by (by apply ws_len_le).
  replace ((q ++ String a EmptyString) ++ String c z) with (q ++ String a (String c z)) in Hm
    by (rewrite <- str_app_assoc; reflexivity).
  assert (Hlen : String.length (q ++ String a EmptyString) = S (String.length q))
    by (rewrite str_length_app; simpl; lia).
  rewrite sdrop_app by lia.
  apply prefix_fence_follow; [|apply Hnf|exact Hc].
  intros E. assert (L := sdrop_length m (q ++ String a EmptyString)).
  rewrite E in L. simpl in L. lia.
Qed.

Lemma try_group_payload_sp q a c z :
  is_py_space a = false -> is_py_space c = true -> no_fence (q ++ String a EmptyString) ->
  close_at (String c z) = true ->
  try_group ((q ++ String a EmptyString) ++ String c z) = Some (q ++ String a EmptyString).
Proof.
  intros Ha Hc Hnf Hz. unfold try_group.
  set (p := q ++ String a EmptyString).
  assert (Hlp : String.length p = S (String.length q))
    by (unfold p; rewrite str_length_app; simpl; lia).
  transitivity (Some (stake (String.length p) (p ++ String c z)));
    [|by rewrite stake_length_app].
  apply lazy_group_found.
  - lia.
  - rewrite str_length_app. lia.
  - intros g' Hg'. rewrite sdrop_app by lia. unfold p.
    rewrite (sdrop_app g' q (String a EmptyString)) by lia.
    apply close_at_inside_sp; [exact Ha|exact Hc|].
    rewrite <- sdrop_app by lia. by apply no_fence_sdrop.
  - by rewrite sdrop_length_app.
Qed.

Lemma close_at_tail w : py_space_only w = true -> close_at (w ++ nl ++ fence) = true.
Proof.
  intros Hw. unfold close_at. rewrite ws_prefix_len_app by exact Hw.
  change (ws_prefix_len (nl ++ fence)) with 1. rewrite Nat.add_1_r. cbn [close_back].
  replace (S (String.length w)) with (String.length w + 1) by lia.
  rewrite sdrop_add_app. reflexivity.
Qed.

Lemma tail_head w : py_space_only w = true ->
  exists c z, w ++ nl ++ fence = String c z /\ is_py_space c = true.
Proof.
  destruct w as [|c w]; intros Hw.
  - exists (ascii_of_nat 10), fence. split; reflexivity.
  - cbn [py_space_only] in Hw. apply andb_prop in Hw as [Hc _].
    exists c, (w ++ nl ++ fence). split; [reflexivity|exact Hc].
Qed.

Lemma ws_back_found j r g : try_group (sdrop j r) = Some g -> ws_back j r = Some g.
Proof. intros H. destruct j; cbn [ws_back]; by rewrite H. Qed.

(** The labelled fenced block around whitespace, a payload that has no
    ["```"] and neither starts nor ends with whitespace, and whitespace,
    yields back the payload. *)
Lemma fence_search_wrap_ws w1 core w2 :
  py_space_only w1 = true -> py_space_only w2 = true ->
  no_fence core -> starts_nonspace core -> ends_nonspace core ->
  fence_search (fence_wrap (w1 ++ core ++ w2)) = Some core.
Proof.
  intros H1 H2 Hnf Hs He.
  set (p := w1 ++ core ++ w2).
  unfold fence_search. destruct (String.length (fence_wrap p)) as [|n] eqn:Hlen.
  { unfold fence_wrap in Hlen. rewrite str_length_app in Hlen. simpl in Hlen. lia. }
  cbn [search_from sdrop].
  enough (Hat : fence_at (fence_wrap p) = Some core) by (by rewrite Hat).
  unfold fence_at.
  replace (String.prefix fence_json (fence_wrap p)) with true
    by (symmetry; apply (SerializerFacts.prefix_app_self fence_json)).
  assert (E7 : sdrop 7 (fence_wrap p) = nl ++ w1 ++ core ++ w2 ++ nl ++ fence).
  { unfold fence_wrap, p. rewrite <- !str_app_assoc.
    exact (sdrop_length_app fence_json (nl ++ w1 ++ core ++ w2 ++ nl ++ fence)). }
  rewrite E7. apply ws_back_found.
  change (nl ++ w1 ++ core ++ w2 ++ nl ++ fence)
    with (String (ascii_of_nat 10) (w1 ++ core ++ w2 ++ nl ++ fence)).
  cbn [ws_prefix_len]. change (is_py_space (ascii_of_nat 10)) with true. cbn iota.
  rewrite ws_prefix_len_app by exact H1.
  destruct He as [->|(q & a & Hq & Ha)].
  - rewrite str_app_nil_l, ws_prefix_len_app by exact H2.
    change (ws_prefix_len (nl ++ fence)) with 1. cbn [sdrop].
    rewrite sdrop_add_app, sdrop_add_app. reflexivity.
  - destruct core as [|b core'] eqn:Ec; [destruct q; discriminate|].
    cbn [starts_nonspace] in Hs. rewrite <- Ec in *.
    assert (Hz : ws_prefix_len (core ++ w2 ++ nl ++ fence) = 0)
      by (rewrite Ec; apply ws_prefix_len_nonspace, Hs).
    rewrite Hz.
    rewrite Nat.add_0_r. cbn [sdrop]. rewrite <- (Nat.add_0_r (String.length w1)).
    rewrite sdrop_add_app. cbn [sdrop].
    destruct (tail_head w2 H2) as (c & z & Ez & Hc).
    rewrite Ez, Hq. apply try_group_payload_sp; [exact Ha|exact Hc| |].
    + by rewrite <- Hq.
    + rewrite <- Ez. by apply close_at_tail.
Qed.


Lemma search_from_shift {A} (at_ : string -> option A) n k i s :
  search_from at_ (k + i) n s = search_from at_ k n (sdrop i s).
Proof.
  revert k; induction n as [|n IH]; intros k; cbn [search_from];
    rewrite sdrop_sdrop; [reflexivity|].
  destruct (at_ (sdrop (k + i) s)); [reflexivity|]. exact (IH (S k)).
Qed.

Lemma brace_search_cons a s :
  brace_search (String a s) =
  match brace_at (String a s) with Some g => Some g | None => brace_search s end.
Proof.
  unfold brace_search. cbn [String.length search_from sdrop].
  destruct (brace_at (String a s)); [reflexivity|].
  exact (search_from_shift brace_at (String.length s) 0 1 (String a s)).
Qed.

Lemma ws_not_brace c : Json.is_json_ws c = true ->
  Ascii.eqb c open_brace = false /\ Ascii.eqb c close_brace = false.
Proof. intros H. JsonScan.ws_case c H; split; reflexivity. Qed.

Lemma brace_search_ws_l w x : Json.json_space w = true -> brace_search (w ++ x) = brace_search x.
Proof.
  induction w as [|c w IH]; intros H; [reflexivity|].
  cbn [Json.json_space] in H. apply andb_prop in H as [Hc Hw].
  rewrite str_app_cons, brace_search_cons. cbn [brace_at].
  rewrite (proj1 (ws_not_brace c Hc)). by apply IH.
Qed.

Lemma last_close_brace_ws_app t w :
  Json.json_space w = true -> last_close_brace (t ++ w) = last_close_brace t.
Proof.
  intros Hw. induction t as [|a t IH].
  - rewrite str_app_nil_l. induction w as [|c w IHw]; [reflexivity|].
    cbn [Json.json_space] in Hw. apply andb_prop in Hw as [Hc Hw].
    cbn [last_close_brace]. rewrite (IHw Hw), (proj2 (ws_not_brace c Hc)). reflexivity.
  - rewrite str_app_cons. cbn [last_close_brace]. by rewrite IH.
Qed.

Lemma last_close_brace_lt t j : last_close_brace t = Some j -> j < String.length t.
Proof.
  revert j; induction t as [|a t IH]; intros j; [discriminate|]. cbn [last_close_brace].
  destruct (last_close_brace t) as [j'|].
  - intros H; injection H as <-. specialize (IH j' eq_refl). simpl. lia.
  - destruct (Ascii.eqb a close_brace); [|discriminate]. intros H; injection H as <-. simpl. lia.
Qed.

Lemma brace_search_ws_r x w : Json.json_space w = true -> brace_search (x ++ w) = brace_search x.
Proof.
  intros Hw. induction x as [|a x IH].
  - rewrite str_app_nil_l. rewrite <- (JsonScan.str_app_nil_r w) at 1.
    by rewrite brace_search_ws_l.
  - rewrite str_app_cons, !brace_search_cons, IH. f_equal.
    cbn [brace_at]. destruct (Ascii.eqb a open_brace); [|reflexivity].
    rewrite (last_close_brace_ws_app x w Hw).
    destruct (last_close_brace x) as [j|] eqn:Ej; [|reflexivity].
    apply last_close_brace_lt in Ej.
    rewrite <- str_app_cons, stake_app by (simpl; lia). reflexivity.
Qed.

Lemma json_loads_error_type s e : Json.json_loads s = PyErr e -> exc_type e = "JSONDecodeError".
Proof.
  unfold Json.json_loads.
  destruct (Json.scan_value _ _) as [[v r]|m]; [destruct (Json.skip_ws r)|];
    intros H; try discriminate; injection H as <-; reflexivity.
Qed.

(** C9 (amended): take a payload made of whitespace [w1], a core that
    neither starts nor ends with whitespace, and whitespace [w2], with no
    ["```"] anywhere. Whatever [json.loads] is, [_parse_json_response] on
    the payload wrapped in a fenced block labelled [json] gives the result it
    gives on the core alone. When [w1] and [w2] are JSON whitespace (space,
    tab, newline, carriage return), with the decoder's [json.loads] this is
    also the result on the unwrapped payload. *)
Theorem parse_json_response_fence_invariant w1 core w2 :
  no_fence (w1 ++ core ++ w2) -> starts_nonspace core -> ends_nonspace core ->
  py_space_only w1 = true -> py_space_only w2 = true ->
  (forall json_loads,
     parse_json_response json_loads (fence_wrap (w1 ++ core ++ w2))
     = parse_json_response json_loads core) /\
  (Json.json_space w1 = true -> Json.json_space w2 = true ->
   parse_json_response Json.json_loads (fence_wrap (w1 ++ core ++ w2))
   = parse_json_response Json.json_loads (w1 ++ core ++ w2)).
Proof.
  intros Hnf Hs He H1 H2.
  assert (Hc : no_fence core) by exact (no_fence_mid w1 core w2 Hnf).
  assert (Hfw : forall json_loads,
     parse_json_response json_loads (fence_wrap (w1 ++ core ++ w2))
     = parse_json_response json_loads core).
  { intros json_loads. unfold parse_json_response.
    rewrite (fence_search_wrap_ws w1 core w2 H1 H2 Hc Hs He), (fence_search_no_fence core Hc).
    reflexivity. }
  split; [exact Hfw|]. intros J1 J2. rewrite Hfw.
  unfold parse_json_response.
  rewrite (fence_search_no_fence core Hc), (fence_search_no_fence _ Hnf).
  pose proof (JsonScan.json_loads_ws_around w1 core w2 J1 J2) as Hj.
  destruct (Json.json_loads core) as [v|e] eqn:Ec.
  - by rewrite Hj.
  - destruct Hj as [e' He']. rewrite He'.
    rewrite (json_loads_error_type _ _ Ec), (json_loads_error_type _ _ He').
    cbn [String.eqb]. rewrite brace_search_ws_l, brace_search_ws_r by assumption.
    reflexivity.
Qed.

Lemma parse_json_response_fence_invariant_witness :
  let core := "{" ++ dq ++ "a" ++ dq ++ ": 1}" in
  parse_json_response Json.json_loads (fence_wrap (EmptyString ++ core ++ nl))
  = parse_json_response Json.json_loads core
  /\ parse_json_response Json.json_loads (fence_wrap (EmptyString ++ core ++ nl))
  = parse_json_response Json.json_loads (EmptyString ++ core ++ nl)
  /\ parse_json_response Json.json_loads core = PyOk (PDict [("a", PInt 1)])%list.
Proof.
  assert (Hi : no_fence (EmptyString ++ ("{" ++ dq ++ "a" ++ dq ++ ": 1}") ++ nl)
    /\ starts_nonspace ("{" ++ dq ++ "a" ++ dq ++ ": 1}")
    /\ ends_nonspace ("{" ++ dq ++ "a" ++ dq ++ ": 1}")
    /\ py_space_only EmptyString = true /\ py_space_only nl = true).
  { split; [apply no_fence_of_check; vm_compute; reflexivity|].
    split; [vm_compute; reflexivity|].
    split; [right; exists ("{" ++ dq ++ "a" ++ dq ++ ": 1"), "}"%char; split; reflexivity|].
    split; reflexivity. }
  destruct Hi as (Hn & Hs & He & H1 & H2).
  pose proof (parse_json_response_fence_invariant EmptyString ("{" ++ dq ++ "a" ++ dq ++ ": 1}") nl
                Hn Hs He H1 H2) as [A B].
  split; [apply A|]. split; [apply B; reflexivity|]. vm_compute. reflexivity.
Defined.

(** C9: a payload holding ["```"] inside a JSON string decodes on its own,
    but wrapped in a fenced block the lazy group stops at that inner
    ["```"], and the decoder raises [ValueError]. *)
Lemma parse_json_response_inner_fence_counterexample :
  let p := "{" ++ dq ++ "a" ++ dq ++ ": " ++ dq ++ "```" ++ dq ++ "}" in
  parse_json_response Json.json_loads p = PyOk (PDict [("a", PStr "```")])%list
  /\ parse_json_response Json.json_loads (fence_wrap p)
     = PyErr (mkExc "ValueError" "Could not parse JSON from response").
Proof. split; vm_compute; reflexivity. Qed.

End DecoderFacts.


Module PlannerFacts.
Import Agent Decoder Planner.

(** C2: when the reasoning call raises, or its reply fails to decode,
    [analyze_error] returns the fallback plan: [cells_to_fix] is exactly
    [[error_cell_id]], [fixes] is empty, [restart_needed] is [False],
    [continue_from_cell] is [error_cell_id], and [analysis] carries the
    message of the exception. *)
Theorem analyze_error_fallback generate json_loads cells error_cell_id e :
  let prompt := analyze_prompt (build_notebook_context cells (Some error_cell_id)) error_cell_id in
  (generate prompt = PyErr e \/
   exists response, generate prompt = PyOk response /\
                    parse_json_response json_loads response = PyErr e) ->
  exists kv, analyze_error generate json_loads cells error_cell_id = PDict kv /\
    dict_get "cells_to_fix" kv = Some (PList [PStr error_cell_id]) /\
    dict_get "fixes" kv = Some (PDict []) /\
    dict_get "restart_needed" kv = Some (PBool false) /\
    dict_get "continue_from_cell" kv = Some (PStr error_cell_id) /\
    exists pre, dict_get "analysis" kv = Some (PStr (pre ++ exc_msg e)).
Proof.
  intros prompt Hfail.
  assert (E : analyze_error generate json_loads cells error_cell_id = fallback_plan error_cell_id e).
  { unfold analyze_error. fold prompt.
    destruct Hfail as [-> | (response & -> & Hp)]; [reflexivity|].
    by rewrite Hp. }
  rewrite E. eexists. split; [reflexivity|].
  repeat split. exists "Error in analysis: ". reflexivity.
Qed.

Lemma analyze_error_fallback_witness :
  exists kv,
    analyze_error (fun _ => PyErr (mkExc "ConnectionError" "timed out")) Json.json_loads
      [] "c1" = PDict kv /\
    dict_get "cells_to_fix" kv = Some (PList [PStr "c1"]) /\
    dict_get "fixes" kv = Some (PDict []) /\
    dict_get "restart_needed" kv = Some (PBool false) /\
    dict_get "continue_from_cell" kv = Some (PStr "c1") /\
    exists pre, dict_get "analysis" kv = Some (PStr (pre ++ "timed out")).
Proof.
  apply (analyze_error_fallback (fun _ => PyErr (mkExc "ConnectionError" "timed out"))
           Json.json_loads [] "c1" (mkExc "ConnectionError" "timed out")).
  left. reflexivity.
Defined.

End PlannerFacts.

Module ToolFacts.
Import Agent Tools Chat Scenarios.

(** C10: [execute_tool] on a name other than the five tools returns, and
    does not raise, the dictionary [{"error": "Unknown tool: <name>"}],
    whatever the arguments, the cells and [str()]. *)
Theorem execute_tool_unknown py_str tool_name arguments cells_state :
  ~ In tool_name ["read_cells"; "update_cell"; "insert_cell"; "delete_cell"; "run_cell"] ->
  execute_tool py_str tool_name arguments cells_state
  = PyOk (PDict [("error", PStr ("Unknown tool: " ++ tool_name))]).
Proof.
  intros Hn. unfold execute_tool.
  repeat match goal with
  | |- context [String.eqb tool_name ?s] =>
      destruct (String.eqb_spec tool_name s) as [->|_]; [exfalso; apply Hn; simpl; tauto|]
  end.
  reflexivity.
Qed.

Lemma execute_tool_unknown_witness :
  ~ In "run_terminal_command" ["read_cells"; "update_cell"; "insert_cell"; "delete_cell"; "run_cell"]
  /\ execute_tool str_scalar "run_terminal_command" (PDict []) (map to_dict [c1])
     = PyOk (PDict [("error", PStr "Unknown tool: run_terminal_command")]).
Proof.
  assert (H : ~ In "run_terminal_command"
                ["read_cells"; "update_cell"; "insert_cell"; "delete_cell"; "run_cell"])
    by (simpl; intuition discriminate).
  split; [exact H|].
  exact (execute_tool_unknown str_scalar "run_terminal_command" (PDict []) (map to_dict [c1]) H).
Defined.

Lemma run_tool_calls_spec py_str json_loads cells_state tcs recs :
  run_tool_calls py_str json_loads cells_state tcs = PyOk recs ->
  Forall2 (fun tc r => exists args res,
      json_loads (tc_arguments tc) = PyOk args /\
      execute_tool py_str (tc_name tc) args cells_state = PyOk res /\
      r = PDict [("id", PStr (tc_id tc)); ("name", PStr (tc_name tc));
                 ("arguments", args); ("result", res)]) tcs recs.
Proof.
  revert recs; induction tcs as [|tc tcs IH]; intros recs H; simpl in H.
  - injection H as <-. constructor.
  - destruct (json_loads (tc_arguments tc)) as [args|e] eqn:Ha; [|discriminate].
    cbn [py_bind] in H.
    destruct (execute_tool py_str (tc_name tc) args cells_state) as [res|e] eqn:Hr;
      [|discriminate].
    cbn [py_bind] in H.
    destruct (run_tool_calls py_str json_loads cells_state tcs) as [rest|e] eqn:Hrest;
      [|discriminate].
    cbn [py_bind] in H. injection H as <-.
    constructor; [by exists args, res|]. by apply IH.
Qed.

(** C7 (amended): in one call of [_chat_with_tools_openai], the tool calls
    of the reply are run in the order of the reply, each one by
    [execute_tool] on the same [cells_state], the cells as they were when
    the call started; the result records them in that order. *)
Theorem chat_tools_use_turn_snapshot py_str json_loads service cells calls ch tcs v n :
  service calls = PyOk ch -> m_tool_calls ch = Some tcs ->
  chat_with_tools_openai py_str json_loads true service cells calls = (PyOk v, n) ->
  exists recs,
    v = PDict [("message", PStr (message_text ch)); ("tool_calls", PList recs);
               ("finish_reason", opt_str_val (finish_reason ch))] /\
    Forall2 (fun tc r => exists args res,
        json_loads (tc_arguments tc) = PyOk args /\
        execute_tool py_str (tc_name tc) args (map to_dict cells) = PyOk res /\
        r = PDict [("id", PStr (tc_id tc)); ("name", PStr (tc_name tc));
                   ("arguments", args); ("result", res)]) tcs recs.
Proof.
  intros Hs Ht Hc. unfold chat_with_tools_openai in Hc. cbn [negb] in Hc.
  rewrite Hs, Ht in Hc.
  destruct (is_nil tcs) eqn:Enil.
  - destruct tcs; [|discriminate]. cbn [py_bind] in Hc. injection Hc as <- _.
    exists []. split; [reflexivity|constructor].
  - destruct (run_tool_calls py_str json_loads (map to_dict cells) tcs) as [recs|e] eqn:Hr;
      cbn [py_bind] in Hc; [|discriminate].
    injection Hc as <- _. exists recs. split; [reflexivity|].
    by apply run_tool_calls_spec.
Qed.

Lemma chat_tools_use_turn_snapshot_witness :
  exists v, chat_with_tools_openai str_scalar Json.json_loads true always_tools [c1] 0 = (PyOk v, 1)
  /\ exists recs,
    v = PDict [("message", PStr (message_text insert_then_read)); ("tool_calls", PList recs);
               ("finish_reason", opt_str_val (finish_reason insert_then_read))] /\
    Forall2 (fun tc r => exists args res,
        Json.json_loads (tc_arguments tc) = PyOk args /\
        execute_tool str_scalar (tc_name tc) args (map to_dict [c1]) = PyOk res /\
        r = PDict [("id", PStr (tc_id tc)); ("name", PStr (tc_name tc));
                   ("arguments", args); ("result", res)])
      [mkToolCall "call_1" "insert_cell" insert_args; mkToolCall "call_2" "read_cells" "{}"] recs.
Proof.
  eexists. split; [vm_compute; reflexivity|].
  eapply (chat_tools_use_turn_snapshot str_scalar Json.json_loads always_tools [c1] 0
            insert_then_read); [reflexivity|reflexivity|vm_compute; reflexivity].
Defined.

(** C7: a reply that inserts a cell at index 0 and then reads all cells:
    the read sees the one cell of the notebook as it was, not the inserted
    one, and the insertion is only returned as an action. *)
Lemma chat_insert_then_read_counterexample :
  chat_with_tools_openai str_scalar Json.json_loads true always_tools [c1] 0 =
  (PyOk (PDict
     [("message", PStr "I'm working on it...");
      ("tool_calls", PList
         [PDict [("id", PStr "call_1"); ("name", PStr "insert_cell");
                 ("arguments", PDict [("code", PStr "x = 1"); ("index", PInt 0)]);
                 ("result", PDict [("action", PStr "insert_cell"); ("code", PStr "x = 1");
                                   ("index", PInt 0); ("reason", PStr "");
                                   ("success", PBool true)])];
          PDict [("id", PStr "call_2"); ("name", PStr "read_cells");
                 ("arguments", PDict []);
                 ("result", PDict [("success", PBool true);
                                   ("cells", PList [PDict [("id", PStr "c1");
                                                           ("code", PStr "print(x)");
                                                           ("outputs", PList []);
                                                           ("error", PNone)]])])]]);
      ("finish_reason", PStr "tool_calls")]), 1).
Proof. vm_compute. reflexivity. Qed.

(** C8 (amended): [_chat_with_tools_openai] calls the reasoning service
    exactly once when the client is configured (and not at all otherwise),
    and a result it returns is the dictionary of [message], [tool_calls]
    and [finish_reason] of that one answer: there is no further turn and no
    turn-limit marker. *)
Theorem chat_single_call py_str json_loads configured service cells calls :
  snd (chat_with_tools_openai py_str json_loads configured service cells calls)
    = (if configured then S calls else calls) /\
  forall v, fst (chat_with_tools_openai py_str json_loads configured service cells calls) = PyOk v ->
    exists ch tool_calls, service calls = PyOk ch /\
      v = PDict [("message", PStr (message_text ch)); ("tool_calls", PList tool_calls);
                 ("finish_reason", opt_str_val (finish_reason ch))].
Proof.
  unfold chat_with_tools_openai.
  destruct configured; cbn [negb]; [|split; [reflexivity|discriminate]].
  destruct (service calls) as [ch|e] eqn:Hs; [|split; [reflexivity|discriminate]].
  split; [reflexivity|]. intros v Hv. cbn [fst] in Hv.
  destruct (match m_tool_calls ch with
            | Some tcs => if is_nil tcs then PyOk [] else run_tool_calls py_str json_loads (map to_dict cells) tcs
            | None => PyOk []
            end) as [tcs|e]; cbn [py_bind] in Hv; [|discriminate].
  injection Hv as <-. by exists ch, tcs.
Qed.

(** C8: a service that asks for tools on every answer: the handler makes
    one call and returns its tool results, with no turn-limit marker. *)
Lemma chat_always_tools_counterexample :
  exists recs,
    chat_with_tools_openai str_scalar Json.json_loads true always_tools [c1] 0 =
    (PyOk (PDict [("message", PStr "I'm working on it..."); ("tool_calls", PList recs);
                  ("finish_reason", PStr "tool_calls")]), 1)
  /\ chat_with_tools_openai str_scalar Json.json_loads true tools_then_stop [c1] 0 =
    (PyOk (PDict [("message", PStr "I'm working on it..."); ("tool_calls", PList recs);
                  ("finish_reason", PStr "tool_calls")]), 1).
Proof.
  eexists. split; vm_compute; reflexivity.
Qed.

End ToolFacts.

Module ManagerFacts.
Import Kernel Manager.

Definition present (id : string) (reg : list (string * NotebookKernel)) : bool :=
  if reg_get id reg then true else false.

Lemma reg_get_del id x reg :
  reg_get x (reg_del id reg) = if String.eqb x id then None else reg_get x reg.
Proof.
  induction reg as [|[k v] reg IH]; simpl.
  - by destruct (String.eqb x id).
  - destruct (String.eqb_spec k id) as [->|Hk]; simpl.
    + rewrite IH. destruct (String.eqb_spec x id) as [->|Hx];
        [reflexivity|]. destruct (String.eqb_spec id x); [congruence|reflexivity].
    + rewrite IH. destruct (String.eqb_spec k x) as [->|Hkx].
      * destruct (String.eqb_spec x id); [congruence|reflexivity].
      * reflexivity.
Qed.

Lemma reg_del_absent id reg : reg_get id reg = None -> reg_del id reg = reg.
Proof.
  induction reg as [|[k v] reg IH]; simpl; [reflexivity|].
  destruct (String.eqb_spec k id) as [->|Hk]; [discriminate|].
  intros H. simpl. by rewrite IH.
Qed.

Lemma filter_filter_and {A} (f g : A -> bool) l :
  List.filter f (List.filter g l) = List.filter (fun x => g x && f x) l.
Proof.
  induction l as [|x l IH]; simpl; [reflexivity|].
  destruct (g x); simpl; [destruct (f x); simpl; by rewrite IH|exact IH].
Qed.

Lemma filter_ext_in {A} (f g : A -> bool) l :
  (forall x, In x l -> f x = g x) -> List.filter f l = List.filter g l.
Proof.
  induction l as [|x l IH]; intros H; simpl; [reflexivity|].
  rewrite (H x) by (left; reflexivity). rewrite IH by (intros y Hy; apply H; by right).
  reflexivity.
Qed.

Lemma reg_get_none_key id reg kv :
  reg_get id reg = None -> In kv reg -> String.eqb (fst kv) id = false.
Proof.
  induction reg as [|[k v] reg IH]; simpl; [tauto|].
  destruct (String.eqb_spec k id) as [->|Hk]; [discriminate|].
  intros H [<-|Hin]; [simpl; by apply String.eqb_neq|by apply IH].
Qed.

Lemma filter_true {A} (l : list A) : List.filter (fun _ => true) l = l.
Proof. induction l as [|x l IH]; simpl; [reflexivity|by rewrite IH]. Qed.

(** [shutdown_keys] with every release succeeding: the registry keeps the
    entries whose key was not visited, and the processes of the visited
    keys that were registered are released. *)
Lemma shutdown_keys_ok release ks st :
  (forall id, release id = None) ->
  shutdown_keys release ks st =
  (PyOk tt, mkMgr (List.filter (fun kv => negb (existsb (String.eqb (fst kv)) ks)) (kernels st))
                  (live st ∖ list_to_set (List.filter (fun id => present id (kernels st)) ks))).
Proof.
  intros Hrel. revert st; induction ks as [|id ks IH]; intros [reg lv].
  - cbn [shutdown_keys kernels live].
    rewrite (filter_ext_in _ (fun _ => true) reg) by reflexivity. rewrite filter_true.
    f_equal. f_equal. cbn [List.filter]. set_solver.
  - cbn [shutdown_keys]. unfold shutdown_kernel at 1. cbn [kernels live].
    destruct (reg_get id reg) as [k|] eqn:Eg.
    + rewrite Hrel. rewrite IH. cbn [kernels live]. f_equal. f_equal.
      * unfold reg_del. rewrite filter_filter_and. apply filter_ext_in.
        intros [x v] _. simpl. destruct (String.eqb_spec x id); reflexivity.
      * apply leibniz_equiv. intros x.
        rewrite !elem_of_difference, !elem_of_list_to_set, !list_elem_of_In.
        cbn [List.filter]. rewrite !filter_In.
        unfold present. rewrite reg_get_del, Eg. cbn [In]. rewrite filter_In.
        destruct (String.eqb_spec x id) as [->|Hx].
        -- split; [intros [[_ Hn] _]; set_solver|].
           intros [_ Hn]. exfalso. apply Hn. by left.
        -- split.
           ++ intros [[Hl _] Hn]. split; [exact Hl|].
              intros [E|[Hin Hp]]; [congruence|]. apply Hn. by split.
           ++ intros [Hl Hn]. split; [split; [exact Hl|set_solver]|].
              intros [Hin Hp]. apply Hn. right. by split.
    + rewrite IH. cbn [kernels live]. f_equal. f_equal.
      * apply filter_ext_in. intros kv Hin. cbn [existsb].
        rewrite (reg_get_none_key id reg kv Eg Hin). reflexivity.
      * assert (Hp : present id reg = false) by (unfold present; by rewrite Eg).
        cbn [List.filter]. by rewrite Hp.
Qed.

Lemma filter_false {A} (l : list A) : List.filter (fun _ => false) l = [].
Proof. induction l; simpl; [reflexivity|assumption]. Qed.

Lemma present_key x reg : In x (map fst reg) -> present x reg = true.
Proof.
  unfold present. induction reg as [|[k v] reg IH]; simpl; [tauto|].
  intros [->|Hin]; [by rewrite String.eqb_refl|].
  destruct (String.eqb k x); [reflexivity|by apply IH].
Qed.

(** C6 (amended): [shutdown_kernel] on an id that is not registered
    returns normally and changes nothing (the endpoint answers
    [{"status": "shutdown"}]); on a registered id it releases the process
    and then removes the entry, and if the release raises, the exception
    propagates and the entry stays; [shutdown_all], when every release
    succeeds, empties the registry and releases the process of every
    registered kernel. *)
Theorem shutdown_behaviour release st kernel_id :
  (reg_get kernel_id (kernels st) = None ->
     shutdown_kernel release kernel_id st = (PyOk tt, st) /\
     shutdown_endpoint release kernel_id st
       = (PyOk (PDict [("status", PStr "shutdown"); ("kernel_id", PStr kernel_id)]), st)) /\
  (forall k, reg_get kernel_id (kernels st) = Some k -> release kernel_id = None ->
     shutdown_kernel release kernel_id st
       = (PyOk tt, mkMgr (reg_del kernel_id (kernels st)) (live st ∖ {[kernel_id]}))) /\
  (forall k e, reg_get kernel_id (kernels st) = Some k -> release kernel_id = Some e ->
     shutdown_kernel release kernel_id st = (PyErr e, st)) /\
  ((forall id, release id = None) ->
     shutdown_all release st = (PyOk tt, mkMgr [] (live st ∖ list_to_set (map fst (kernels st))))).
Proof.
  split; [|split; [|split]].
  - intros Hn. unfold shutdown_endpoint, shutdown_kernel. by rewrite Hn.
  - intros k Hk Hr. unfold shutdown_kernel. by rewrite Hk, Hr.
  - intros k e Hk Hr. unfold shutdown_kernel. by rewrite Hk, Hr.
  - intros Hrel. unfold shutdown_all. rewrite shutdown_keys_ok by exact Hrel.
    f_equal. f_equal.
    + rewrite (filter_ext_in _ (fun _ => false)); [apply filter_false|].
      intros kv Hin. apply negb_false_iff, existsb_exists.
      exists (fst kv). split; [by apply in_map|apply String.eqb_refl].
    + rewrite (filter_ext_in _ (fun _ => true)); [by rewrite filter_true|].
      intros x Hin. by apply present_key.
Qed.

Lemma shutdown_behaviour_witness :
  let st := mkMgr [("k1", mkKernel "k1" true true)] {[ "k1" ]} in
  shutdown_kernel (fun _ => None) "k1" st = (PyOk tt, mkMgr [] ({[ "k1" ]} ∖ {[ "k1" ]})) /\
  shutdown_all (fun _ => None) st = (PyOk tt, mkMgr [] ({[ "k1" ]} ∖ list_to_set ["k1"])) /\
  shutdown_kernel (fun _ => Some (mkExc "RuntimeError" "no such process")) "k1" st
    = (PyErr (mkExc "RuntimeError" "no such process"), st) /\
  shutdown_endpoint (fun _ => None) "k2" st
    = (PyOk (PDict [("status", PStr "shutdown"); ("kernel_id", PStr "k2")]), st).
Proof.
  intros st.
  destruct (shutdown_behaviour (fun _ => None) st "k1") as (_ & Hp & _ & Hall).
  destruct (shutdown_behaviour (fun _ => Some (mkExc "RuntimeError" "no such process")) st "k1")
    as (_ & _ & Hfail & _).
  destruct (shutdown_behaviour (fun _ => None) st "k2") as (Hn & _).
  split; [exact (Hp (mkKernel "k1" true true) eq_refl eq_refl)|].
  split; [exact (Hall (fun _ => eq_refl))|].
  split; [exact (Hfail (mkKernel "k1" true true) _ eq_refl eq_refl)|].
  exact (proj2 (Hn eq_refl)).
Defined.

(** C6: a direct [shutdown_kernel] on an id that was never registered
    raises nothing: it returns, and the endpoint answers
    [{"status": "shutdown", "kernel_id": ...}]. *)
Lemma shutdown_unknown_id_counterexample :
  shutdown_kernel (fun _ => None) "missing" (mkMgr [] ∅) = (PyOk tt, mkMgr [] ∅) /\
  shutdown_endpoint (fun _ => None) "missing" (mkMgr [] ∅)
    = (PyOk (PDict [("status", PStr "shutdown"); ("kernel_id", PStr "missing")]), mkMgr [] ∅).
Proof. split; reflexivity. Qed.

End ManagerFacts.

Module KernelExtraFacts.
Import Kernel Views KernelFacts.

Lemma collect_idle_stop s1 c s2 st :
  is_idle c = true ->
  collect (s1 ++ IMsg "status" c :: s2)%list st = collect (s1 ++ [IMsg "status" c])%list st.
Proof.
  intros Hi. revert st; induction s1 as [|[t c'| |e] rest IH]; intros st.
  - simpl. by rewrite Hi.
  - simpl. repeat case_match; try apply IH; reflexivity.
  - reflexivity.
  - reflexivity.
Qed.

(** [execute_cell] leaves its loop at the first idle status message: what
    the channel delivers after it is never read. *)
Theorem execute_cell_ignores_after_idle k code cid s1 c s2 :
  is_idle c = true ->
  execute_cell k code cid (s1 ++ IMsg "status" c :: s2)%list =
  execute_cell k code cid (s1 ++ [IMsg "status" c])%list.
Proof.
  intros Hi. unfold execute_cell. by rewrite (collect_idle_stop s1 c s2 collect_init Hi).
Qed.

Lemma execute_cell_ignores_after_idle_witness :
  let c := mkContent None None None None None None None (Some "idle") in
  is_idle c = true /\
  execute_cell running_kernel "x" "u1" ([IMsg "stream" empty_content] ++ IMsg "status" c ::
      [IMsg "error" (err_content "E" "late" [])])%list =
  execute_cell running_kernel "x" "u1" ([IMsg "stream" empty_content] ++ [IMsg "status" c])%list.
Proof.
  split; [reflexivity|].
  apply (execute_cell_ignores_after_idle running_kernel "x" "u1"). reflexivity.
Defined.

Lemma last_input_count_cons x l :
  last_input_count (x :: l) =
  match last_input_count l with
  | Some n => Some n
  | None => if String.eqb (fst x) "execute_input" then Some (c_execution_count (snd x)) else None
  end.
Proof.
  unfold last_input_count. cbn [List.filter].
  destruct (String.eqb (fst x) "execute_input").
  - cbn [map]. rewrite last_opt_cons. reflexivity.
  - by destruct (last_opt _).
Qed.

Lemma omap_cons_eq {A B} (f : A -> option B) x l :
  omap f (x :: l) = match f x with Some y => y :: omap f l | None => omap f l end.
Proof. reflexivity. Qed.

Lemma collect_outputs_count s st :
  cs_outputs (collect s st) = (cs_outputs st ++ omap output_of_msg (consumed s))%list /\
  cs_execution_count (collect s st) =
    match last_input_count (consumed s) with Some n => n | None => cs_execution_count st end.
Proof.
  revert st; induction s as [|[t c| |e] rest IH]; intros st;
    try (simpl; rewrite app_nil_r; split; reflexivity).
  cbn [collect consumed].
  destruct (String.eqb_spec t "execute_input") as [->|N1].
  { cbn -[collect omap last_input_count]. rewrite last_input_count_cons.
    destruct (IH (mkCollect (cs_outputs st) (cs_error st) (c_execution_count c))) as [H1 H2].
    rewrite H1, H2. simpl. split; [reflexivity|]. by destruct (last_input_count _). }
  destruct (String.eqb_spec t "execute_result") as [->|N2].
  { cbn -[collect omap last_input_count]. rewrite last_input_count_cons.
    edestruct IH as [H1 H2]. rewrite H1, H2. simpl. rewrite <- app_assoc.
    split; [reflexivity|]. by destruct (last_input_count _). }
  destruct (String.eqb_spec t "display_data") as [->|N3].
  { cbn -[collect omap last_input_count]. rewrite last_input_count_cons.
    edestruct IH as [H1 H2]. rewrite H1, H2. simpl. rewrite <- app_assoc.
    split; [reflexivity|]. by destruct (last_input_count _). }
  destruct (String.eqb_spec t "stream") as [->|N4].
  { cbn -[collect omap last_input_count]. rewrite last_input_count_cons.
    edestruct IH as [H1 H2]. rewrite H1, H2. simpl. rewrite <- app_assoc.
    split; [reflexivity|]. by destruct (last_input_count _). }
  destruct (String.eqb_spec t "error") as [->|N5].
  { cbn -[collect omap last_input_count]. rewrite last_input_count_cons.
    edestruct IH as [H1 H2]. rewrite H1, H2. simpl.
    split; [reflexivity|]. by destruct (last_input_count _). }
  assert (Hout : output_of_msg (t, c) = None).
  { simpl. by repeat (rewrite (proj2 (String.eqb_neq _ _)); [|assumption]). }
  assert (Hin : String.eqb t "execute_input" = false) by (by apply String.eqb_neq).
  destruct (String.eqb_spec t "status") as [->|N6].
  - cbn [andb]. destruct (is_idle c).
    + simpl. rewrite app_nil_r. split; reflexivity.
    + cbn -[collect omap last_input_count]. rewrite last_input_count_cons.
      edestruct IH as [H1 H2]. rewrite H1, H2. simpl.
      split; [reflexivity|]. by destruct (last_input_count _).
  - cbn [andb]. cbn -[collect omap last_input_count output_of_msg].
    rewrite omap_cons_eq, Hout, last_input_count_cons. cbn [fst]. rewrite Hin.
    edestruct IH as [H1 H2]. rewrite H1, H2.
    split; [reflexivity|]. by destruct (last_input_count _).
Qed.

(** On a running kernel the [outputs] of the result are, in order, the
    results, displays and streams among the consumed messages, and its
    [execution_count] is the one of the last ['execute_input'] message
    consumed, or [None] when there is none. *)
Theorem execute_cell_outputs_and_count k code cid s r :
  execute_cell k code cid s = PyOk r ->
  r_outputs r = omap output_of_msg (consumed s) /\
  r_execution_count r = match last_input_count (consumed s) with Some n => n | None => None end.
Proof.
  unfold execute_cell. destruct (is_running k); [|discriminate]. cbn.
  intros H. injection H as <-. cbn.
  destruct (collect_outputs_count s collect_init) as [H1 H2].
  rewrite H1, H2. split; reflexivity.
Qed.

Lemma execute_cell_outputs_and_count_witness :
  let s := [IMsg "execute_input" (mkContent (Some 3%Z) None None None None None None None);
            IMsg "stream" (mkContent None None (Some "stdout") (Some "hi") None None None None);
            IMsg "execute_result" (mkContent (Some 3%Z) (Some [("text/plain", "2")]) None None None None None None);
            idle_msg] in
  exists r, execute_cell running_kernel "print('hi'); 1+1" "u1" s = PyOk r /\
  (r_outputs r = omap output_of_msg (consumed s) /\
   r_execution_count r = match last_input_count (consumed s) with Some n => n | None => None end).
Proof.
  eexists. split; [reflexivity|].
  apply (execute_cell_outputs_and_count running_kernel "print('hi'); 1+1" "u1"). reflexivity.
Defined.

End KernelExtraFacts.

Module ContextFacts.
Import Kernel Agent Views.

Lemma find_filter_same {A} (p : A -> bool) l : find p (List.filter p l) = find p l.
Proof.
  induction l as [|x l IH]; [reflexivity|]. simpl.
  destruct (p x) eqn:E; simpl; [by rewrite E|exact IH].
Qed.

Lemma output_part_hide o : output_part (hide_output o) = output_part o.
Proof. destruct o; simpl; [by rewrite find_filter_same|reflexivity|reflexivity]. Qed.

Lemma flat_map_output_part_hide os :
  flat_map output_part (map hide_output os) = flat_map output_part os.
Proof.
  induction os as [|o os IH]; [reflexivity|]. simpl. by rewrite output_part_hide, IH.
Qed.

Lemma cell_parts_hide i c h : cell_parts i (hide_unshown c) h = cell_parts i c h.
Proof.
  unfold cell_parts, cell_header, marker, execution_count_part, outputs_part, error_part,
    hide_unshown. cbn [cell_id code execution_count outputs error].
  f_equal. f_equal. f_equal.
  - destruct (execution_count c) as [n|]; [|reflexivity].
    destruct (Z.eqb n 0) eqn:E; [reflexivity|]. simpl. by rewrite E.
  - f_equal. destruct (outputs c) as [|o os]; [reflexivity|].
    cbn [map]. f_equal. exact (flat_map_output_part_hide (o :: os)).
Qed.

Lemma context_parts_from_hide i cells h :
  context_parts_from i (map hide_unshown cells) h = context_parts_from i cells h.
Proof.
  revert i; induction cells as [|c cells IH]; intros i; [reflexivity|].
  cbn [context_parts_from map]. by rewrite cell_parts_hide, IH.
Qed.

(** The notebook context does not depend on the data of display outputs,
    on the entries other than ['text/plain'] or the execution count of
    execute results, nor on an execution count of 0 (rendered as none). *)
Theorem build_notebook_context_hides_unshown cells h :
  build_notebook_context (map hide_unshown cells) h = build_notebook_context cells h.
Proof.
  unfold build_notebook_context, context_parts. by rewrite context_parts_from_hide.
Qed.

End ContextFacts.

Module ToolExtraFacts.
Import Kernel Agent Tools Chat Scenarios.

Lemma find_cell_map py_str id cells :
  find_cell py_str (PStr id) (map to_dict cells) =
  PyOk (match find (fun c => String.eqb (cell_id c) id) cells with
        | Some c => PDict [("success", PBool true);
                           ("cell", PDict [("id", PStr (cell_id c)); ("code", PStr (code c));
                                           ("outputs", PList (map output_val (outputs c)));
                                           ("error", error_val (error c))])]
        | None => PDict [("success", PBool false);
                         ("error", PStr ("Cell " ++ py_str (PStr id) ++ " not found"))]
        end).
Proof.
  induction cells as [|c cells IH]; [reflexivity|].
  cbn [map find find_cell]. unfold str_eq_val. cbn [to_dict d_cell_id].
  destruct (String.eqb (cell_id c) id); [reflexivity|exact IH].
Qed.

(** [read_cells] with a non-empty string [cell_id] returns the first cell
    with that id (its id, code, outputs and error as [to_dict] gives
    them), or [success: False] with ["Cell <id> not found"] when no cell
    has it. *)
Theorem read_cells_lookup py_str kv id cells :
  dict_get "cell_id" kv = Some (PStr id) -> id <> "" ->
  execute_tool py_str "read_cells" (PDict kv) (map to_dict cells) =
  PyOk (match find (fun c => String.eqb (cell_id c) id) cells with
        | Some c => PDict [("success", PBool true);
                           ("cell", PDict [("id", PStr (cell_id c)); ("code", PStr (code c));
                                           ("outputs", PList (map output_val (outputs c)));
                                           ("error", error_val (error c))])]
        | None => PDict [("success", PBool false);
                         ("error", PStr ("Cell " ++ py_str (PStr id) ++ " not found"))]
        end).
Proof.
  intros Hg Hne. unfold execute_tool. cbn [String.eqb Ascii.eqb Bool.eqb andb].
  unfold read_cells, py_get. rewrite Hg. cbn [py_bind py_truthy].
  rewrite (proj2 (String.eqb_neq _ _) Hne). cbn [negb].
  apply find_cell_map.
Qed.

Lemma read_cells_lookup_witness :
  let cells := [mkCell "a" "x = 1" (Some 1%Z) [] None; mkCell "b" "y" None [] None;
                mkCell "b" "z" None [] None] in
  dict_get "cell_id" [("cell_id", PStr "b")] = Some (PStr "b") /\ "b" <> "" /\
  execute_tool str_scalar "read_cells" (PDict [("cell_id", PStr "b")]) (map to_dict cells) =
  PyOk (PDict [("success", PBool true);
               ("cell", PDict [("id", PStr "b"); ("code", PStr "y");
                               ("outputs", PList []); ("error", PNone)])]).
Proof.
  split; [reflexivity|]. split; [discriminate|].
  apply (read_cells_lookup str_scalar [("cell_id", PStr "b")] "b"); [reflexivity|discriminate].
Defined.

(** [read_cells] with no [cell_id], or a false one ([None], [""], [0],
    ...), lists every cell in order, each by its id, code, outputs and
    error. *)
Theorem read_cells_all py_str kv cells :
  match dict_get "cell_id" kv with Some v => py_truthy v = false | None => True end ->
  execute_tool py_str "read_cells" (PDict kv) (map to_dict cells) =
  PyOk (PDict [("success", PBool true);
               ("cells", PList (map (fun c => PDict [("id", PStr (cell_id c)); ("code", PStr (code c));
                                                     ("outputs", PList (map output_val (outputs c)));
                                                     ("error", error_val (error c))]) cells))]).
Proof.
  intros Hf. unfold execute_tool. cbn [String.eqb Ascii.eqb Bool.eqb andb].
  unfold read_cells, py_get.
  destruct (dict_get "cell_id" kv) as [v|]; cbn [py_bind]; [rewrite Hf|];
    cbn [py_truthy]; by rewrite map_map.
Qed.

Lemma read_cells_all_witness :
  let cells := [mkCell "a" "x = 1" (Some 1%Z) [] None; mkCell "b" "y" None [] None] in
  py_truthy (PStr "") = false /\
  execute_tool str_scalar "read_cells" (PDict [("cell_id", PStr "")]) (map to_dict cells) =
  PyOk (PDict [("success", PBool true);
               ("cells", PList [PDict [("id", PStr "a"); ("code", PStr "x = 1");
                                       ("outputs", PList []); ("error", PNone)];
                                PDict [("id", PStr "b"); ("code", PStr "y");
                                       ("outputs", PList []); ("error", PNone)]])]).
Proof.
  split; [reflexivity|].
  apply (read_cells_all str_scalar [("cell_id", PStr "")]). reflexivity.
Defined.

(** Only [read_cells] looks at [cells_state]: every other tool name gives
    the same answer whatever the cells. *)
Theorem execute_tool_ignores_cells_except_read py_str name args cs1 cs2 :
  name <> "read_cells" ->
  execute_tool py_str name args cs1 = execute_tool py_str name args cs2.
Proof.
  intros Hn. unfold execute_tool.
  destruct (String.eqb_spec name "read_cells") as [E|_]; [contradiction|].
  reflexivity.
Qed.

Lemma execute_tool_ignores_cells_except_read_witness :
  "update_cell" <> "read_cells" /\
  execute_tool str_scalar "update_cell" (PDict [("cell_id", PStr "c1"); ("code", PStr "x")])
    (map to_dict [c1]) =
  execute_tool str_scalar "update_cell" (PDict [("cell_id", PStr "c1"); ("code", PStr "x")]) [].
Proof.
  split; [discriminate|]. apply execute_tool_ignores_cells_except_read. discriminate.
Defined.

(** Arguments that are not a dictionary make each of the five tools raise:
    [read_cells] an [AttributeError] (from [args.get]), the others a
    [TypeError] (from [args[...]]). *)
Theorem execute_tool_non_dict_raises py_str name args cs :
  (forall kv, args <> PDict kv) ->
  In name ["read_cells"; "update_cell"; "insert_cell"; "delete_cell"; "run_cell"] ->
  exists e, execute_tool py_str name args cs = PyErr e /\
    exc_type e = (if String.eqb name "read_cells" then "AttributeError" else "TypeError").
Proof.
  intros Hd Hin.
  destruct args as [| b | z | l | s | l | kv]; [| | | | | |by exfalso; apply (Hd kv)];
    simpl in Hin; destruct Hin as [<-|[<-|[<-|[<-|[<-|[]]]]]]; eexists; split; reflexivity.
Qed.

Lemma execute_tool_non_dict_raises_witness :
  (forall kv, PList [] <> PDict kv) /\
  In "run_cell" ["read_cells"; "update_cell"; "insert_cell"; "delete_cell"; "run_cell"] /\
  exists e, execute_tool str_scalar "run_cell" (PList []) [] = PyErr e /\
    exc_type e = (if String.eqb "run_cell" "read_cells" then "AttributeError" else "TypeError").
Proof.
  assert (Hd : forall kv, PList [] <> PDict kv) by discriminate.
  assert (Hin : In "run_cell" ["read_cells"; "update_cell"; "insert_cell"; "delete_cell"; "run_cell"])
    by (simpl; tauto).
  split; [exact Hd|]. split; [exact Hin|].
  exact (execute_tool_non_dict_raises str_scalar "run_cell" (PList []) [] Hd Hin).
Defined.

(** A dictionary without the key a tool reads with [args[...]] makes it
    raise [KeyError] on that key: ["cell_id"] for [update_cell],
    [delete_cell] and [run_cell], ["code"] for [insert_cell]; the message
    of the exception is the [repr] of the key, e.g. ['code']. *)
Theorem execute_tool_missing_key py_str name k kv cs :
  In (name, k) [("update_cell", "cell_id"); ("delete_cell", "cell_id");
                ("run_cell", "cell_id"); ("insert_cell", "code")] ->
  dict_get k kv = None ->
  execute_tool py_str name (PDict kv) cs = PyErr (mkExc "KeyError" (py_repr_str k)).
Proof.
  intros Hin Hk. simpl in Hin.
  destruct Hin as [E|[E|[E|[E|[]]]]]; injection E as <- <-;
    unfold execute_tool; cbn [String.eqb Ascii.eqb Bool.eqb andb];
    unfold update_cell, delete_cell, run_cell, insert_cell, py_index, dict_index;
    rewrite Hk; reflexivity.
Qed.

Lemma execute_tool_missing_key_witness :
  In ("insert_cell", "code") [("update_cell", "cell_id"); ("delete_cell", "cell_id");
                              ("run_cell", "cell_id"); ("insert_cell", "code")] /\
  dict_get "code" [("index", PInt 0)] = None /\
  execute_tool str_scalar "insert_cell" (PDict [("index", PInt 0)]) [] =
  PyErr (mkExc "KeyError" (py_repr_str "code")) /\
  py_repr_str "code" = "'code'".
Proof.
  split; [simpl; tauto|]. split; [reflexivity|]. split; [|reflexivity].
  apply execute_tool_missing_key; [simpl; tauto|reflexivity].
Defined.

Lemma run_tool_calls_app py_str json_loads cs l1 l2 :
  run_tool_calls py_str json_loads cs (l1 ++ l2)%list =
  (r1 <-? run_tool_calls py_str json_loads cs l1 ;;
   r2 <-? run_tool_calls py_str json_loads cs l2 ;; PyOk (r1 ++ r2)%list).
Proof.
  induction l1 as [|tc l1 IH]; cbn [app run_tool_calls].
  - by destruct (run_tool_calls py_str json_loads cs l2).
  - destruct (json_loads (tc_arguments tc)); [|reflexivity]. cbn [py_bind].
    destruct (execute_tool _ _ _ _); [|reflexivity]. cbn [py_bind].
    rewrite IH. destruct (run_tool_calls py_str json_loads cs l1); [|reflexivity].
    cbn [py_bind]. by destruct (run_tool_calls py_str json_loads cs l2).
Qed.

(** A tool call whose arguments [json.loads] rejects makes the whole turn
    raise that error after one service call: the results of the tool
    calls before it are dropped. *)
Theorem chat_bad_arguments_abort py_str json_loads service cells calls ch tcs1 tc tcs2 recs1 e :
  service calls = PyOk ch -> m_tool_calls ch = Some (tcs1 ++ tc :: tcs2)%list ->
  run_tool_calls py_str json_loads (map to_dict cells) tcs1 = PyOk recs1 ->
  json_loads (tc_arguments tc) = PyErr e ->
  chat_with_tools_openai py_str json_loads true service cells calls = (PyErr e, S calls).
Proof.
  intros Hs Ht H1 He. unfold chat_with_tools_openai. cbn [negb]. rewrite Hs, Ht.
  assert (Hn : is_nil (tcs1 ++ tc :: tcs2)%list = false) by (by destruct tcs1).
  rewrite Hn, run_tool_calls_app, H1. cbn [py_bind run_tool_calls]. rewrite He. reflexivity.
Qed.

Lemma chat_bad_arguments_abort_witness :
  let ch := mkChoice None (Some [mkToolCall "t1" "read_cells" "{}";
                                 mkToolCall "t2" "run_cell" "{"]) (Some "tool_calls") in
  (fun _ : nat => PyOk ch) 0 = PyOk ch /\
  m_tool_calls ch = Some ([mkToolCall "t1" "read_cells" "{}"] ++
                          mkToolCall "t2" "run_cell" "{" :: [])%list /\
  (exists recs1, run_tool_calls str_scalar Json.json_loads (map to_dict [c1])
                   [mkToolCall "t1" "read_cells" "{}"] = PyOk recs1) /\
  (exists e, Json.json_loads "{" = PyErr e /\
   chat_with_tools_openai str_scalar Json.json_loads true (fun _ => PyOk ch) [c1] 0 = (PyErr e, 1)).
Proof.
  split; [reflexivity|]. split; [reflexivity|]. split; [eexists; vm_compute; reflexivity|].
  eexists. split; [vm_compute; reflexivity|].
  eapply (chat_bad_arguments_abort str_scalar Json.json_loads _ [c1] 0 _
            [mkToolCall "t1" "read_cells" "{}"] (mkToolCall "t2" "run_cell" "{") []);
    [reflexivity|reflexivity|vm_compute; reflexivity|vm_compute; reflexivity].
Defined.

End ToolExtraFacts.

Module AgentFacts.
Import Kernel Agent Tools Chat AgentConfig KernelFacts.

Lemma prefix_trans p q m :
  String.prefix p q = true -> String.prefix q m = true -> String.prefix p m = true.
Proof.
  revert q m; induction p as [|a p IH]; intros q m H1 H2; [by destruct m|].
  destruct q as [|b q]; [discriminate|]. destruct m as [|c m]; [discriminate|].
  simpl in *. destruct (ascii_dec a b) as [->|]; [|discriminate].
  destruct (ascii_dec b c) as [->|]; [|discriminate].
  eapply IH; eassumption.
Qed.

Lemma prefix_comparable p q m :
  String.prefix p m = true -> String.prefix q m = true ->
  String.prefix p q = true \/ String.prefix q p = true.
Proof.
  revert p q; induction m as [|c m IH]; intros p q H1 H2.
  - destruct p; [left; by destruct q|discriminate].
  - destruct p as [|a p]; [left; by destruct q|]. destruct q as [|b q]; [by right|].
    simpl in *. destruct (ascii_dec a c) as [->|]; [|discriminate].
    destruct (ascii_dec b c) as [->|]; [|discriminate].
    destruct (ascii_dec c c) as [_|]; [|congruence]. eauto.
Qed.

Lemma prefix_exclusive p q m :
  String.prefix p q = false -> String.prefix q p = false ->
  String.prefix p m = true -> String.prefix q m = false.
Proof.
  intros H1 H2 Hp. destruct (String.prefix q m) eqn:Hq; [|reflexivity].
  destruct (prefix_comparable p q m Hp Hq) as [E|E]; congruence.
Qed.

Lemma get_provider_gemini m : get_provider m = "gemini" <-> String.prefix "gemini" m = true.
Proof.
  unfold get_provider. split.
  - destruct (String.prefix "gpt-" m || String.prefix "o1" m); [discriminate|].
    destruct (String.prefix "gemini" m); [reflexivity|discriminate].
  - intros Hg.
    rewrite (prefix_exclusive "gemini" "gpt-" m), (prefix_exclusive "gemini" "o1" m), Hg;
      reflexivity || assumption.
Qed.

Lemma not_prefix_of p q m :
  String.prefix p q = true -> String.prefix p m = false -> String.prefix q m = false.
Proof.
  intros H1 H2. destruct (String.prefix q m) eqn:E; [|reflexivity].
  rewrite (prefix_trans p q m H1 E) in H2. discriminate.
Qed.

Lemma is_reasoning_model_eq m :
  is_reasoning_model m = String.prefix "o1" m || String.prefix "gpt-5" m.
Proof.
  unfold is_reasoning_model, REASONING_MODELS. cbn [existsb].
  destruct (String.prefix "o1" m) eqn:Eo; destruct (String.prefix "gpt-5" m) eqn:Eg;
    rewrite ?orb_true_r; try reflexivity.
  rewrite (not_prefix_of "o1" "o1-preview" m), (not_prefix_of "o1" "o1-mini" m),
    (not_prefix_of "gpt-5" "gpt-5-mini" m), (not_prefix_of "gpt-5" "gpt-5-nano" m);
    reflexivity || assumption.
Qed.

(** A model is served by Gemini exactly when its name starts with
    ["gemini"]; the reasoning models are exactly the names starting with
    ["o1"] or ["gpt-5"] (the other entries of [REASONING_MODELS] add
    none), and they are all served by OpenAI. *)
Theorem agent_provider_and_reasoning m :
  (get_provider m = "gemini" <-> String.prefix "gemini" m = true) /\
  is_reasoning_model m = String.prefix "o1" m || String.prefix "gpt-5" m /\
  (is_reasoning_model m = true -> get_provider m = "openai").
Proof.
  split; [apply get_provider_gemini|]. split; [apply is_reasoning_model_eq|].
  rewrite is_reasoning_model_eq. intros H. unfold get_provider.
  apply orb_true_iff in H as [H|H].
  - by rewrite H, orb_true_r.
  - by rewrite (prefix_trans "gpt-" "gpt-5" m eq_refl H).
Qed.

(** Every cached agent was built for its key. *)
Definition agents_ok (agents : list (string * NotebookAgent)) : Prop :=
  Forall (fun kv => snd kv = new_agent (fst kv)) agents.

Lemma agent_lookup_ok m agents a :
  agents_ok agents -> agent_lookup m agents = Some a -> a = new_agent m.
Proof.
  induction agents as [|[k b] agents IH]; intros Hok H; [discriminate|].
  inversion Hok as [|? ? Hb Hrest]; subst. simpl in H, Hb.
  destruct (String.eqb_spec k m) as [->|]; [by injection H as <-|by apply IH].
Qed.

Lemma agent_lookup_app_new m agents a :
  agent_lookup m agents = None -> agent_lookup m (agents ++ [(m, a)])%list = Some a.
Proof.
  induction agents as [|[k b] agents IH]; simpl; intros H.
  - by rewrite String.eqb_refl.
  - destruct (String.eqb k m); [discriminate|by apply IH].
Qed.

(** [get_agent] returns the agent built for [model_name or "gpt-4o-mini"],
    keeps every cached agent built for its key, and a second call with the
    same name returns the same agent and leaves the cache as it is. *)
Theorem get_agent_cached mo agents :
  agents_ok agents ->
  fst (get_agent mo agents) = new_agent (resolve_model mo) /\
  agents_ok (snd (get_agent mo agents)) /\
  get_agent mo (snd (get_agent mo agents)) = get_agent mo agents.
Proof.
  intros Hok. unfold get_agent.
  destruct (agent_lookup (resolve_model mo) agents) as [a|] eqn:E.
  - cbn [fst snd]. rewrite E. split; [|split; [exact Hok|reflexivity]].
    by apply (agent_lookup_ok _ agents).
  - cbn [fst snd]. rewrite agent_lookup_app_new by exact E.
    split; [reflexivity|]. split; [|reflexivity].
    unfold agents_ok. apply Forall_app. split; [exact Hok|]. by constructor.
Qed.

Lemma get_agent_cached_witness :
  agents_ok [("gpt-4o-mini", new_agent "gpt-4o-mini")] /\
  fst (get_agent (Some "") [("gpt-4o-mini", new_agent "gpt-4o-mini")])
    = new_agent (resolve_model (Some "")) /\
  agents_ok (snd (get_agent (Some "") [("gpt-4o-mini", new_agent "gpt-4o-mini")])) /\
  get_agent (Some "") (snd (get_agent (Some "") [("gpt-4o-mini", new_agent "gpt-4o-mini")]))
    = get_agent (Some "") [("gpt-4o-mini", new_agent "gpt-4o-mini")].
Proof.
  assert (H : agents_ok [("gpt-4o-mini", new_agent "gpt-4o-mini")])
    by (repeat constructor).
  split; [exact H|]. exact (get_agent_cached (Some "") _ H).
Defined.

Lemma last_opt_snoc {A} (l : list A) x : last_opt (l ++ [x])%list = Some x.
Proof.
  induction l as [|y l IH]; [reflexivity|].
  cbn [app]. rewrite last_opt_cons, IH. reflexivity.
Qed.

(** For a model whose name starts with ["gemini"], [chat] sends Gemini
    only the content of the context message (the history and the system
    message are dropped), makes no call to the OpenAI service, whether or
    not it is configured, and answers with no tool call and
    [finish_reason] ["stop"]. *)
Theorem chat_gemini_context_only py_str json_loads gemini model configured service cells
    user_message history calls :
  String.prefix "gemini" model = true ->
  chat py_str json_loads gemini model configured service cells user_message history calls =
  (match gemini (PStr ("Current notebook state:" ++ nl ++ build_notebook_context cells None
                       ++ nl ++ nl ++ "User: " ++ user_message)) with
   | PyOk r => PyOk (PDict [("message", PStr r); ("tool_calls", PList []);
                            ("finish_reason", PStr "stop")])
   | PyErr e => PyErr e
   end, calls).
Proof.
  intros Hg. unfold chat. rewrite (proj2 (get_provider_gemini model) Hg). cbn.
  unfold chat_without_tools, py_last, chat_messages. rewrite last_opt_snoc. reflexivity.
Qed.

Lemma chat_gemini_context_only_witness :
  String.prefix "gemini" "gemini-1.5-pro" = true /\
  chat str_scalar Json.json_loads (fun v => match v with PStr s => PyOk s | _ => PyOk "" end)
    "gemini-1.5-pro" false (fun _ => PyErr (mkExc "RuntimeError" "unreachable")) []
    "hello" (Some [message "user" "earlier"]) 7 =
  (PyOk (PDict [("message", PStr ("Current notebook state:" ++ nl ++ build_notebook_context [] None
                                  ++ nl ++ nl ++ "User: " ++ "hello"));
                ("tool_calls", PList []); ("finish_reason", PStr "stop")]), 7).
Proof.
  split; [reflexivity|].
  apply (chat_gemini_context_only str_scalar Json.json_loads
           (fun v => match v with PStr s => PyOk s | _ => PyOk "" end) "gemini-1.5-pro").
  reflexivity.
Defined.

End AgentFacts.

Module EndpointFacts.
Import Kernel Manager Endpoints ManagerFacts.

(** [restart], [interrupt] and [execute] on an id the registry does not
    hold answer 404 ["Kernel not found"], without calling the kernel
    operation. *)
Theorem endpoints_unknown_kernel op kernel_id cell_id code s st :
  get_kernel kernel_id st = None ->
  restart_endpoint op kernel_id st = PyErr (http_error 404 "Kernel not found") /\
  interrupt_endpoint op kernel_id st = PyErr (http_error 404 "Kernel not found") /\
  execute_endpoint kernel_id cell_id code s st = PyErr (http_error 404 "Kernel not found").
Proof.
  intros H. unfold restart_endpoint, interrupt_endpoint, kernel_op_endpoint, execute_endpoint.
  rewrite H. repeat split.
Qed.

Lemma endpoints_unknown_kernel_witness :
  let st := mkMgr [("k1", mkKernel "k1" true true)] {[ "k1" ]} in
  get_kernel "k2" st = None /\
  restart_endpoint (fun _ => None) "k2" st = PyErr (http_error 404 "Kernel not found") /\
  interrupt_endpoint (fun _ => None) "k2" st = PyErr (http_error 404 "Kernel not found") /\
  execute_endpoint "k2" "c1" "1" [idle_msg] st = PyErr (http_error 404 "Kernel not found").
Proof.
  split; [reflexivity|]. apply (endpoints_unknown_kernel (fun _ => None) "k2"). reflexivity.
Defined.

(** The registry invariant: each entry is a running kernel stored under
    its own id, whose process is live. *)
Definition reg_ok (st : Mgr) : Prop :=
  forall kv, In kv (kernels st) ->
    kernel_id (snd kv) = fst kv /\ is_running (snd kv) = true /\ fst kv ∈ live st.

Lemma reg_set_in id k reg kv : In kv (reg_set id k reg) -> kv = (id, k) \/ In kv reg.
Proof.
  induction reg as [|[id' k'] reg IH]; simpl.
  - intros [<-|[]]. by left.
  - destruct (String.eqb id' id); simpl.
    + intros [<-|H]; [by left|by right; right].
    + intros [<-|H]; [by right; left|]. destruct (IH H) as [E|E]; [by left|by right; right].
Qed.

Lemma reg_get_in id reg k : reg_get id reg = Some k -> In (id, k) reg.
Proof.
  induction reg as [|[id' k'] reg IH]; simpl; [discriminate|].
  destruct (String.eqb_spec id' id) as [->|_]; [intros H; injection H as <-; by left|].
  intros H. right. by apply IH.
Qed.

Lemma create_kernel_ok start new_id st : reg_ok st -> reg_ok (snd (create_kernel start new_id st)).
Proof.
  unfold create_kernel. destruct (start new_id); [done|]. cbn [snd kernels live].
  intros Hok kv Hin. destruct (reg_set_in _ _ _ _ Hin) as [->|Hin'].
  - simpl. split; [reflexivity|]. split; [reflexivity|set_solver].
  - destruct (Hok kv Hin') as (H1 & H2 & H3). split; [exact H1|]. split; [exact H2|set_solver].
Qed.

Lemma shutdown_kernel_ok release id st : reg_ok st -> reg_ok (snd (shutdown_kernel release id st)).
Proof.
  unfold shutdown_kernel. destruct (reg_get id (kernels st)); [|done].
  destruct (release id); [done|]. cbn [snd kernels live].
  intros Hok kv Hin. unfold reg_del in Hin. apply filter_In in Hin as [Hin Hn].
  destruct (Hok kv Hin) as (H1 & H2 & H3). split; [exact H1|]. split; [exact H2|].
  apply elem_of_difference. split; [exact H3|].
  rewrite elem_of_singleton. intros E. rewrite E, String.eqb_refl in Hn. discriminate.
Qed.

Lemma shutdown_keys_reg_ok release ks st : reg_ok st -> reg_ok (snd (shutdown_keys release ks st)).
Proof.
  revert st; induction ks as [|k ks IH]; intros st Hok; [exact Hok|].
  cbn [shutdown_keys]. pose proof (shutdown_kernel_ok release k st Hok) as H.
  destruct (shutdown_kernel release k st) as [[u|e] st'] eqn:E; cbn [snd] in H;
    [by apply IH|exact H].
Qed.

(** Creating kernels (also when a start raises) and shutting them down
    with releases that succeed keep every registered kernel running,
    stored under its own id, with a live process; so [/execute] on a
    registered id never gets the ["Kernel is not running"] error and always
    answers with the result of [execute_cell]. *)
Theorem registry_invariant start release st :
  reg_ok st ->
  (forall new_id, reg_ok (snd (create_kernel start new_id st))) /\
  (forall id, release id = None -> reg_ok (snd (shutdown_kernel release id st))) /\
  ((forall id, release id = None) -> reg_ok (snd (shutdown_all release st))) /\
  (forall id k cell_id code s, get_kernel id st = Some k ->
     execute_endpoint id cell_id code s st =
     PyOk (mkResult cell_id (cs_execution_count (collect s collect_init))
             (cs_outputs (collect s collect_init)) (cs_error (collect s collect_init))
             (match cs_error (collect s collect_init) with Some _ => "error" | None => "success" end))).
Proof.
  intros Hok. split; [intros; by apply create_kernel_ok|].
  split; [intros; by apply shutdown_kernel_ok|].
  split; [intros; by apply shutdown_keys_reg_ok|].
  intros id k cid code s Hk. unfold execute_endpoint. rewrite Hk.
  destruct (Hok (id, k) (reg_get_in _ _ _ Hk)) as (_ & Hr & _). cbn [snd] in Hr.
  unfold execute_cell. rewrite Hr. reflexivity.
Qed.

Lemma registry_invariant_witness :
  let st := mkMgr [("k1", mkKernel "k1" true true)] {[ "k1" ]} in
  reg_ok st /\
  ((forall new_id, reg_ok (snd (create_kernel (fun _ => None) new_id st))) /\
   (forall id, (fun _ : string => @None PyExc) id = None ->
      reg_ok (snd (shutdown_kernel (fun _ => None) id st))) /\
   ((forall id, (fun _ : string => @None PyExc) id = None) ->
      reg_ok (snd (shutdown_all (fun _ => None) st))) /\
   (forall id k cell_id code s, get_kernel id st = Some k ->
      execute_endpoint id cell_id code s st =
      PyOk (mkResult cell_id (cs_execution_count (collect s collect_init))
              (cs_outputs (collect s collect_init)) (cs_error (collect s collect_init))
              (match cs_error (collect s collect_init) with Some _ => "error" | None => "success" end)))).
Proof.
  assert (H : reg_ok (mkMgr [("k1", mkKernel "k1" true true)] {[ "k1" ]})).
  { intros kv [<-|[]]. simpl. split; [reflexivity|]. split; [reflexivity|set_solver]. }
  split; [exact H|]. exact (registry_invariant (fun _ => None) (fun _ => None) _ H).
Defined.

Lemma reg_set_absent id k reg : reg_get id reg = None -> reg_set id k reg = (reg ++ [(id, k)])%list.
Proof.
  induction reg as [|[id' k'] reg IH]; simpl; [reflexivity|].
  destruct (String.eqb_spec id' id) as [->|_]; [discriminate|]. intros H. by rewrite IH.
Qed.

Lemma reg_del_snoc_absent id k reg :
  reg_get id reg = None -> reg_del id (reg ++ [(id, k)])%list = reg.
Proof.
  intros H. rewrite <- (reg_del_absent id reg H) at 2. unfold reg_del. clear H.
  induction reg as [|[id' k'] reg IH]; cbn [app List.filter fst].
  - by rewrite String.eqb_refl.
  - by rewrite IH.
Qed.

(** With a fresh id whose start and release succeed, [POST /kernel/create]
    answers [{"kernel_id": id, "status": "created"}] and registers a
    running kernel under the id; [DELETE /kernel/{id}] then gives back the
    registry and the set of live processes as they were before. *)
Theorem create_then_shutdown start release new_id st :
  reg_get new_id (kernels st) = None -> new_id ∉ live st ->
  start new_id = None -> release new_id = None ->
  create_endpoint start new_id st =
    (PyOk (PDict [("kernel_id", PStr new_id); ("status", PStr "created")]),
     snd (create_kernel start new_id st)) /\
  get_kernel new_id (snd (create_kernel start new_id st)) = Some (mkKernel new_id true true) /\
  shutdown_endpoint release new_id (snd (create_kernel start new_id st)) =
    (PyOk (PDict [("status", PStr "shutdown"); ("kernel_id", PStr new_id)]), st).
Proof.
  intros Hg Hl Hs Hr. unfold create_endpoint, create_kernel. rewrite Hs. cbn [snd].
  rewrite reg_set_absent by exact Hg.
  assert (Hget : reg_get new_id (kernels st ++ [(new_id, mkKernel new_id true true)])%list
                 = Some (mkKernel new_id true true)).
  { clear Hl. induction (kernels st) as [|[id' k'] reg IH]; simpl in *.
    - by rewrite String.eqb_refl.
    - destruct (String.eqb id' new_id); [discriminate|by apply IH]. }
  split; [reflexivity|]. split; [exact Hget|].
  unfold shutdown_endpoint, shutdown_kernel. cbn [kernels live]. rewrite Hget, Hr.
  rewrite reg_del_snoc_absent by exact Hg.
  assert (E : (live st ∪ {[new_id]}) ∖ {[new_id]} = live st)
    by (apply leibniz_equiv; set_solver).
  rewrite E. by destruct st.
Qed.

Lemma create_then_shutdown_witness :
  let st := mkMgr [("k1", mkKernel "k1" true true)] {[ "k1" ]} in
  reg_get "k2" (kernels st) = None /\ ("k2" ∉ live st) /\
  create_endpoint (fun _ => None) "k2" st =
    (PyOk (PDict [("kernel_id", PStr "k2"); ("status", PStr "created")]),
     snd (create_kernel (fun _ => None) "k2" st)) /\
  get_kernel "k2" (snd (create_kernel (fun _ => None) "k2" st)) = Some (mkKernel "k2" true true) /\
  shutdown_endpoint (fun _ => None) "k2" (snd (create_kernel (fun _ => None) "k2" st)) =
    (PyOk (PDict [("status", PStr "shutdown"); ("kernel_id", PStr "k2")]), st).
Proof.
  assert (Hl : "k2" ∉ ({[ "k1" ]} : gset string)) by set_solver.
  split; [reflexivity|]. split; [exact Hl|].
  exact (create_then_shutdown (fun _ => None) (fun _ => None) "k2"
           (mkMgr [("k1", mkKernel "k1" true true)] {[ "k1" ]}) eq_refl Hl eq_refl eq_refl).
Defined.

End EndpointFacts.

Module DecoderExtraFacts.
Import Decoder DecoderFacts.

Lemma sdrop_in_char i s c r : sdrop i s = String c r -> In c (list_ascii_of_string s).
Proof.
  revert s; induction i as [|i IH]; intros s H.
  - simpl in H. subst s. simpl. by left.
  - destruct s as [|a s]; [discriminate|]. simpl. right. by apply IH.
Qed.

Lemma sdrop_inside i pre x :
  i < String.length pre -> exists c r, sdrop i (pre ++ x) = String c r /\ In c (list_ascii_of_string pre).
Proof.
  intros Hi. rewrite sdrop_app by lia.
  destruct (sdrop i pre) as [|c r] eqn:E.
  - assert (L := sdrop_length i pre). rewrite E in L. simpl in L. lia.
  - exists c, (r ++ x). split; [reflexivity|]. by apply (sdrop_in_char i pre c r).
Qed.

Lemma search_from_skip {A} (at_ : string -> option A) s k :
  forall i n, k <= n -> (forall j, i <= j < i + k -> at_ (sdrop j s) = None) ->
  search_from at_ i n s = search_from at_ (i + k) (n - k) s.
Proof.
  induction k as [|k IH]; intros i n Hk H.
  - by rewrite Nat.add_0_r, Nat.sub_0_r.
  - destruct n as [|n]; [lia|]. simpl. rewrite H by lia.
    rewrite (IH (S i) n) by (lia || (intros j Hj; apply H; lia)).
    f_equal. lia.
Qed.

Lemma brace_at_other c r : c <> open_brace -> brace_at (String c r) = None.
Proof.
  intros Hc. unfold brace_at. destruct (Ascii.eqb_spec c open_brace); [contradiction|reflexivity].
Qed.

Lemma last_close_brace_none t :
  ~ In close_brace (list_ascii_of_string t) -> last_close_brace t = None.
Proof.
  induction t as [|a t IH]; intros H; [reflexivity|]. simpl in H |- *.
  rewrite IH by tauto. destruct (Ascii.eqb_spec a close_brace) as [->|]; [tauto|reflexivity].
Qed.

Lemma last_close_brace_app x y :
  last_close_brace (x ++ y) =
  match last_close_brace y with
  | Some j => Some (String.length x + j)
  | None => last_close_brace x
  end.
Proof.
  induction x as [|a x IH].
  - rewrite str_app_nil_l. by destruct (last_close_brace y).
  - rewrite str_app_cons. simpl. rewrite IH.
    destruct (last_close_brace y); [reflexivity|]. reflexivity.
Qed.

Lemma brace_at_object mid post :
  ~ In close_brace (list_ascii_of_string post) ->
  brace_at ("{" ++ mid ++ "}" ++ post) = Some ("{" ++ mid ++ "}").
Proof.
  intros Hp. rewrite !str_app_cons, !str_app_nil_l. unfold brace_at.
  change (Ascii.eqb "{"%char open_brace) with true. cbn iota.
  rewrite last_close_brace_app. cbn [last_close_brace].
  rewrite (last_close_brace_none post Hp). change (Ascii.eqb "}"%char close_brace) with true.
  cbn iota. rewrite Nat.add_0_r.
  replace (String.length mid + 2) with (S (String.length (mid ++ "}"))) by
    (rewrite str_length_app; simpl; lia).
  assert (E : mid ++ String "}" post = (mid ++ "}") ++ post)
    by (rewrite <- str_app_assoc; reflexivity).
  cbn [stake]. rewrite E, stake_length_app. reflexivity.
Qed.

Lemma no_fence_string s : fence_free s = true -> fence_search s = None.
Proof. intros H. apply fence_search_no_fence, no_fence_of_check, H. Qed.

(** When a reply has no fenced block and [json.loads] rejects it as a
    whole, [_parse_json_response] decodes the span from the first ['{']
    to the last ['}']: for prose [pre] without ['{'] and [post] without
    ['}'] around an object, the result is [json.loads] of the object. *)
Theorem parse_json_response_prose json_loads pre mid post e :
  ~ In open_brace (list_ascii_of_string pre) ->
  ~ In close_brace (list_ascii_of_string post) ->
  fence_free (pre ++ "{" ++ mid ++ "}" ++ post) = true ->
  json_loads (pre ++ "{" ++ mid ++ "}" ++ post) = PyErr e -> exc_type e = "JSONDecodeError" ->
  parse_json_response json_loads (pre ++ "{" ++ mid ++ "}" ++ post) = json_loads ("{" ++ mid ++ "}").
Proof.
  intros Hpre Hpost Hf Hj He. unfold parse_json_response.
  rewrite (no_fence_string _ Hf), Hj, He, String.eqb_refl.
  unfold brace_search.
  rewrite (search_from_skip brace_at _ (String.length pre) 0).
  - cbn [Nat.add]. destruct (String.length (pre ++ _) - String.length pre);
      cbn [search_from]; rewrite sdrop_length_app, (brace_at_object mid post Hpost); reflexivity.
  - rewrite str_length_app. lia.
  - intros j Hj'. destruct (sdrop_inside j pre ("{" ++ mid ++ "}" ++ post)) as (c & r & E & Hc);
      [lia|]. rewrite E. apply brace_at_other. intros ->. contradiction.
Qed.

Lemma parse_json_response_prose_witness :
  let pre := "Here is the plan: " in
  let mid := dq ++ "a" ++ dq ++ ": {" ++ dq ++ "b" ++ dq ++ ": 2}" in
  let post := ". Hope it helps" in
  ~ In open_brace (list_ascii_of_string pre) /\
  ~ In close_brace (list_ascii_of_string post) /\
  fence_free (pre ++ "{" ++ mid ++ "}" ++ post) = true /\
  (exists e, Json.json_loads (pre ++ "{" ++ mid ++ "}" ++ post) = PyErr e /\
   exc_type e = "JSONDecodeError" /\
   parse_json_response Json.json_loads (pre ++ "{" ++ mid ++ "}" ++ post)
   = Json.json_loads ("{" ++ mid ++ "}")) /\
  Json.json_loads ("{" ++ mid ++ "}") = PyOk (PDict [("a", PDict [("b", PInt 2)])])%list.
Proof.
  intros pre mid post.
  assert (H1 : ~ In open_brace (list_ascii_of_string pre)) by (vm_compute; intuition discriminate).
  assert (H2 : ~ In close_brace (list_ascii_of_string post)) by (vm_compute; intuition discriminate).
  assert (H3 : fence_free (pre ++ "{" ++ mid ++ "}" ++ post) = true) by (vm_compute; reflexivity).
  split; [exact H1|]. split; [exact H2|]. split; [exact H3|].
  split; [|vm_compute; reflexivity].
  eexists. split; [vm_compute; reflexivity|]. split; [vm_compute; reflexivity|].
  eapply (parse_json_response_prose Json.json_loads pre mid post); [exact H1|exact H2|exact H3| |];
    vm_compute; reflexivity.
Defined.

End DecoderExtraFacts.

Module SuggestFacts.
Import Agent Decoder Planner Suggest.

(** When the reasoning call raises, or its reply fails to decode,
    [suggest_code] returns (and does not raise) the dictionary with code
    ["# Error generating code"], the message of the exception as
    explanation, cell type ["code"] and no dependency. *)
Theorem suggest_code_fallback generate json_loads cells user_request e :
  let prompt := suggest_prompt (build_notebook_context cells None) user_request in
  (generate prompt = PyErr e \/
   exists response, generate prompt = PyOk response /\
                    parse_json_response json_loads response = PyErr e) ->
  suggest_code generate json_loads cells user_request =
  PDict [("code", PStr "# Error generating code"); ("explanation", PStr (exc_msg e));
         ("cell_type", PStr "code"); ("dependencies", PList [])].
Proof.
  intros prompt Hfail. unfold suggest_code. fold prompt.
  destruct Hfail as [-> | (response & -> & Hp)]; [reflexivity|]. by rewrite Hp.
Qed.

Lemma suggest_code_fallback_witness :
  let prompt := suggest_prompt (build_notebook_context [] None) "plot x" in
  ((fun _ : string => PyOk "no json here") prompt = PyErr (mkExc "ValueError" "Could not parse JSON from response") \/
   exists response, (fun _ : string => PyOk "no json here") prompt = PyOk response /\
     parse_json_response Json.json_loads response = PyErr (mkExc "ValueError" "Could not parse JSON from response")) /\
  suggest_code (fun _ => PyOk "no json here") Json.json_loads [] "plot x" =
  PDict [("code", PStr "# Error generating code");
         ("explanation", PStr "Could not parse JSON from response");
         ("cell_type", PStr "code"); ("dependencies", PList [])].
Proof.
  assert (H : let prompt := suggest_prompt (build_notebook_context [] None) "plot x" in
    ((fun _ : string => PyOk "no json here") prompt = PyErr (mkExc "ValueError" "Could not parse JSON from response") \/
     exists response, (fun _ : string => PyOk "no json here") prompt = PyOk response /\
       parse_json_response Json.json_loads response = PyErr (mkExc "ValueError" "Could not parse JSON from response"))).
  { right. exists "no json here". split; [reflexivity|vm_compute; reflexivity]. }
  split; [exact H|].
  exact (suggest_code_fallback (fun _ => PyOk "no json here") Json.json_loads [] "plot x" _ H).
Defined.

(** When the reasoning call raises, or its reply fails to decode,
    [optimize_notebook] returns (and does not raise) no suggestion and the
    assessment ["Error: <message>"]. *)
Theorem optimize_notebook_fallback generate json_loads cells e :
  let prompt := optimize_prompt (build_notebook_context cells None) in
  (generate prompt = PyErr e \/
   exists response, generate prompt = PyOk response /\
                    parse_json_response json_loads response = PyErr e) ->
  optimize_notebook generate json_loads cells =
  PDict [("suggestions", PList []); ("overall_assessment", PStr ("Error: " ++ exc_msg e))].
Proof.
  intros prompt Hfail. unfold optimize_notebook. fold prompt.
  destruct Hfail as [-> | (response & -> & Hp)]; [reflexivity|]. by rewrite Hp.
Qed.

Lemma optimize_notebook_fallback_witness :
  let prompt := optimize_prompt (build_notebook_context [] None) in
  ((fun _ : string => @PyErr string (mkExc "RateLimitError" "quota exceeded")) prompt
     = PyErr (mkExc "RateLimitError" "quota exceeded") \/
   exists response, (fun _ : string => @PyErr string (mkExc "RateLimitError" "quota exceeded")) prompt
     = PyOk response /\
     parse_json_response Json.json_loads response = PyErr (mkExc "RateLimitError" "quota exceeded")) /\
  optimize_notebook (fun _ => PyErr (mkExc "RateLimitError" "quota exceeded")) Json.json_loads [] =
  PDict [("suggestions", PList []); ("overall_assessment", PStr "Error: quota exceeded")].
Proof.
  assert (H : let prompt := optimize_prompt (build_notebook_context [] None) in
    ((fun _ : string => @PyErr string (mkExc "RateLimitError" "quota exceeded")) prompt
       = PyErr (mkExc "RateLimitError" "quota exceeded") \/
     exists response, (fun _ : string => @PyErr string (mkExc "RateLimitError" "quota exceeded")) prompt
       = PyOk response /\
       parse_json_response Json.json_loads response = PyErr (mkExc "RateLimitError" "quota exceeded")))
    by (left; reflexivity).
  split; [exact H|].
  exact (optimize_notebook_fallback (fun _ => PyErr (mkExc "RateLimitError" "quota exceeded"))
           Json.json_loads [] _ H).
Defined.

End SuggestFacts.

Module NotebookFacts.
Import Endpoints Notebook.

Lemma cell_models_from_length k l : length (cell_models_from k l) = length l.
Proof. revert k; induction l as [|c l IH]; intros k; simpl; [reflexivity|by rewrite IH]. Qed.

Lemma cell_models_from_nth k l i :
  nth_error (cell_models_from k l) i = option_map (cell_model_of (k + i)) (nth_error l i).
Proof.
  revert k i; induction l as [|c l IH]; intros k i; [by destruct i|].
  destruct i as [|i]; simpl; [by rewrite Nat.add_0_r|]. rewrite IH. by rewrite Nat.add_succ_r.
Qed.

(** A notebook without code cells that have outputs, saved under a
    writable [filename], loads back with as many cells, in order: the cell
    number [i] gets the id ["cell-i"] and keeps its code; a code cell keeps
    its execution count; any other cell type comes back as ["markdown"]
    without execution count; no cell has outputs or an error. *)
Theorem save_then_load writable write_error filename cells st :
  writable filename = true ->
  Forall (fun c => cm_cell_type c = "code" -> cm_outputs c = []) cells ->
  exists st',
    save_notebook writable write_error filename cells st =
      (PyOk (PDict [("status", PStr "saved"); ("filename", PStr filename)]), st') /\
    (exists ms, load_notebook filename st' = PyOk (filename, ms) /\
       length ms = length cells /\
       forall i c, nth_error cells i = Some c ->
         nth_error ms i = Some (mkCellModel ("cell-" ++ str_Z (Z.of_nat i)) (cm_code c)
           (if String.eqb (cm_cell_type c) "code" then "code" else "markdown")
           (if String.eqb (cm_cell_type c) "code" then cm_execution_count c else None)
           [] None)).
Proof.
  intros Hw Hout. unfold save_notebook. rewrite Hw.
  assert (Hno : existsb code_with_outputs cells = false).
  { apply not_true_is_false. intros Hex. apply existsb_exists in Hex as (c & Hin & Hc).
    rewrite Forall_forall in Hout. specialize (Hout c (proj2 (list_elem_of_In _ _) Hin)).
    unfold code_with_outputs in Hc. apply andb_prop in Hc as [Ht Ho].
    apply String.eqb_eq in Ht. rewrite (Hout Ht) in Ho. discriminate. }
  rewrite Hno. eexists. split; [reflexivity|].
  unfold load_notebook. rewrite lookup_insert_eq. eexists. split; [reflexivity|].
  split; [by rewrite cell_models_from_length, length_map|].
  intros i c Hc. rewrite cell_models_from_nth, nth_error_map, Hc. cbn [option_map Nat.add].
  unfold nb_cell_of. destruct (String.eqb_spec (cm_cell_type c) "code") as [E|E]; [|reflexivity].
  rewrite Forall_forall in Hout.
  assert (Hin : c ∈ cells) by (apply list_elem_of_In; eapply nth_error_In; exact Hc).
  by rewrite (Hout c Hin E).
Qed.

Lemma save_then_load_witness :
  let cells := [mkCellModel "a" "x = 1" "code" (Some 1%Z) [] None;
                mkCellModel "b" "# Title" "raw" (Some 2%Z) [PDict []] (Some (PDict []))] in
  writable_all "notes.ipynb" = true /\
  Forall (fun c => cm_cell_type c = "code" -> cm_outputs c = []) cells /\
  exists st',
    save_notebook writable_all (fun _ => mkExc "OSError" "cannot write") "notes.ipynb" cells ∅ =
      (PyOk (PDict [("status", PStr "saved"); ("filename", PStr "notes.ipynb")]), st') /\
    (exists ms, load_notebook "notes.ipynb" st' = PyOk ("notes.ipynb", ms) /\
       length ms = length cells /\
       forall i c, nth_error cells i = Some c ->
         nth_error ms i = Some (mkCellModel ("cell-" ++ str_Z (Z.of_nat i)) (cm_code c)
           (if String.eqb (cm_cell_type c) "code" then "code" else "markdown")
           (if String.eqb (cm_cell_type c) "code" then cm_execution_count c else None)
           [] None)).
Proof.
  intros cells.
  assert (Hf : Forall (fun c => cm_cell_type c = "code" -> cm_outputs c = []) cells).
  { constructor; [intros _; reflexivity|]. constructor; [intros H; discriminate|constructor]. }
  split; [reflexivity|]. split; [exact Hf|]. apply save_then_load; [reflexivity|exact Hf].
Defined.



End NotebookFacts.

Module DecoderEdgeFacts.
Import Decoder DecoderFacts DecoderExtraFacts.

Lemma brace_search_no_open s :
  ~ In open_brace (list_ascii_of_string s) -> brace_search s = None.
Proof.
  intros Hs. unfold brace_search. apply search_from_none. intros i.
  destruct (sdrop i s) as [|c r] eqn:E; [reflexivity|].
  apply brace_at_other. intros ->. apply Hs. by apply (sdrop_in_char i s open_brace r).
Qed.

(** A reply with no fenced block and no ['{'] that [json.loads] rejects
    makes [_parse_json_response] raise [ValueError("Could not parse JSON
    from response")]. *)
Theorem parse_json_response_no_object json_loads s e :
  ~ In open_brace (list_ascii_of_string s) -> fence_free s = true ->
  json_loads s = PyErr e -> exc_type e = "JSONDecodeError" ->
  parse_json_response json_loads s = PyErr (mkExc "ValueError" "Could not parse JSON from response").
Proof.
  intros Hs Hf Hj He. unfold parse_json_response.
  rewrite (no_fence_string _ Hf), Hj, He, String.eqb_refl, (brace_search_no_open s Hs).
  reflexivity.
Qed.

Lemma parse_json_response_no_object_witness :
  ~ In open_brace (list_ascii_of_string "Sorry, I cannot help with that.") /\
  fence_free "Sorry, I cannot help with that." = true /\
  (exists e, Json.json_loads "Sorry, I cannot help with that." = PyErr e /\
   exc_type e = "JSONDecodeError" /\
   parse_json_response Json.json_loads "Sorry, I cannot help with that."
   = PyErr (mkExc "ValueError" "Could not parse JSON from response")).
Proof.
  assert (H1 : ~ In open_brace (list_ascii_of_string "Sorry, I cannot help with that."))
    by (vm_compute; intuition discriminate).
  assert (H2 : fence_free "Sorry, I cannot help with that." = true) by (vm_compute; reflexivity).
  split; [exact H1|]. split; [exact H2|].
  eexists. split; [vm_compute; reflexivity|]. split; [vm_compute; reflexivity|].
  eapply (parse_json_response_no_object Json.json_loads _ _ H1 H2); vm_compute; reflexivity.
Defined.

End DecoderEdgeFacts.

Module ManagerExtraFacts.
Import Kernel Manager ManagerFacts.

Lemma reg_get_not_key id reg : ~ In id (map fst reg) -> reg_get id reg = None.
Proof.
  induction reg as [|[k v] reg IH]; simpl; intros H; [reflexivity|].
  destruct (String.eqb_spec k id) as [->|_]; [tauto|]. apply IH. tauto.
Qed.

Lemma shutdown_keys_prefix release pre post lv ks :
  NoDup (map fst (pre ++ post)) ->
  Forall (fun kv => release (fst kv) = None) pre ->
  shutdown_keys release (map fst pre ++ ks) (mkMgr (pre ++ post) lv) =
  shutdown_keys release ks (mkMgr post (lv ∖ list_to_set (map fst pre))).
Proof.
  revert lv; induction pre as [|[x k] pre IH]; intros lv Hnd Hrel.
  - cbn [app map]. f_equal. f_equal. apply leibniz_equiv. set_solver.
  - inversion Hrel as [|? ? Hx Hrest]; subst. cbn [fst] in Hx.
    cbn [app map] in Hnd |- *. inversion Hnd as [|? ? Hnin Hnd']; subst.
    cbn [shutdown_keys]. unfold shutdown_kernel. cbn [kernels live reg_get].
    cbn [fst]. rewrite String.eqb_refl, Hx. unfold reg_del at 1. cbn [List.filter fst].
    rewrite String.eqb_refl. cbn [negb]. fold (reg_del x (pre ++ post)).
    assert (Hnin' : ~ In x (map fst (pre ++ post))) by (rewrite <- list_elem_of_In; exact Hnin).
    rewrite (reg_del_absent x _ (reg_get_not_key x _ Hnin')).
    rewrite IH by assumption. f_equal. f_equal. apply leibniz_equiv.
    cbn [map list_to_set]. set_solver.
Qed.

(** [shutdown_all] stops at the first kernel whose release raises: the
    kernels before it are shut down and removed, and that kernel and the
    ones after it stay registered, with their processes live; the
    exception propagates. *)
Theorem shutdown_all_stops_at_failure release pre id k post lv e :
  NoDup (map fst (pre ++ (id, k) :: post)) ->
  Forall (fun kv => release (fst kv) = None) pre ->
  release id = Some e ->
  shutdown_all release (mkMgr (pre ++ (id, k) :: post) lv) =
  (PyErr e, mkMgr ((id, k) :: post) (lv ∖ list_to_set (map fst pre))).
Proof.
  intros Hnd Hrel He. unfold shutdown_all. cbn [kernels].
  rewrite map_app. cbn [map fst].
  rewrite shutdown_keys_prefix by assumption.
  cbn [shutdown_keys]. unfold shutdown_kernel. cbn [kernels reg_get].
  rewrite String.eqb_refl, He. reflexivity.
Qed.

Lemma shutdown_all_stops_at_failure_witness :
  let rel := fun id => if String.eqb id "k2" then Some (mkExc "TimeoutError" "kernel busy") else None in
  NoDup (map fst ([("k1", mkKernel "k1" true true)] ++
                  ("k2", mkKernel "k2" true true) :: [("k3", mkKernel "k3" true true)]))%list /\
  Forall (fun kv => rel (fst kv) = None) [("k1", mkKernel "k1" true true)] /\
  rel "k2" = Some (mkExc "TimeoutError" "kernel busy") /\
  shutdown_all rel (mkMgr ([("k1", mkKernel "k1" true true)] ++
                           ("k2", mkKernel "k2" true true) :: [("k3", mkKernel "k3" true true)])
                          {[ "k1"; "k2"; "k3" ]}) =
  (PyErr (mkExc "TimeoutError" "kernel busy"),
   mkMgr (("k2", mkKernel "k2" true true) :: [("k3", mkKernel "k3" true true)])
         ({[ "k1"; "k2"; "k3" ]} ∖ list_to_set (map fst [("k1", mkKernel "k1" true true)]))).
Proof.
  intros rel.
  assert (H1 : NoDup (map fst ([("k1", mkKernel "k1" true true)] ++
                  ("k2", mkKernel "k2" true true) :: [("k3", mkKernel "k3" true true)]))%list)
    by (vm_compute; repeat constructor; set_solver).
  assert (H2 : Forall (fun kv => rel (fst kv) = None) [("k1", mkKernel "k1" true true)])
    by (repeat constructor).
  assert (H3 : rel "k2" = Some (mkExc "TimeoutError" "kernel busy")) by reflexivity.
  split; [exact H1|]. split; [exact H2|]. split; [exact H3|].
  exact (shutdown_all_stops_at_failure rel _ "k2" _ _ _ _ H1 H2 H3).
Defined.

End ManagerExtraFacts.
